(** * The store-action factory and the HTTP interceptors of the-sync-frontend

    A shallow embedding of

    - the generic store-action factory (createFetchAction,
      createFetchBySemesterAction, createCreateAction,
      createBatchCreateAction, createUpdateAction, createDeleteAction,
      createToggleStatusAction and their helpers), and
    - [HttpInterceptors] of src/lib/services/http/interceptors.ts,

    together with the properties the specification states about them.

    JavaScript objects used as maps (the zustand store state, the header
    bag of a request) are finite maps with string keys; arrays are lists;
    [async] functions that run between two suspension points are state
    transformers over an explicit world, and a thrown exception is an
    abrupt completion. *)

From Stdlib Require Import Ascii.
From stdpp Require Import gmap strings list fin_maps pretty.

Set Default Proof Using "Type".

(** ** JavaScript strings, exceptions and promises *)

Module Js.

(** [c.toUpperCase()] for one character, on the ASCII range. *)
Definition toUpperCase (c : ascii) : ascii :=
  let n := nat_of_ascii c in
  if (97 <=? n)%nat && (n <=? 122)%nat then ascii_of_nat (n - 32) else c.

(** [s.charAt(0).toUpperCase() + s.slice(1)] *)
Definition capitalize (s : string) : string :=
  match s with
  | EmptyString => EmptyString
  | String c rest => String (toUpperCase c) rest
  end.

(** [hay.startsWith(needle)] *)
Fixpoint startsWith (hay needle : string) : bool :=
  match needle, hay with
  | EmptyString, _ => true
  | String _ _, EmptyString => false
  | String a n', String b h' => if decide (a = b) then startsWith h' n' else false
  end.

(** [hay.includes(needle)] *)
Fixpoint includes (hay needle : string) : bool :=
  startsWith hay needle ||
  match hay with
  | EmptyString => false
  | String _ h' => includes h' needle
  end.

(** The last character of a string, when it has one. *)
Fixpoint lastChar (s : string) : option ascii :=
  match s with
  | EmptyString => None
  | String c EmptyString => Some c
  | String _ rest => lastChar rest
  end.

(** A thrown JavaScript value. *)
Inductive JsError :=
| TypeError (msg : string)
| Thrown (payload : string).

(** How a statement completes: normally with a value, or by a throw. *)
Inductive Completion (A : Type) :=
| Normal (a : A)
| Abrupt (e : JsError).
Arguments Normal {A} _.
Arguments Abrupt {A} _.

(** How an awaited promise settles. *)
Inductive Awaited (A : Type) :=
| Resolves (a : A)
| RejectsWith (e : JsError).
Arguments Resolves {A} _.
Arguments RejectsWith {A} _.

(** A case folding of the ASCII letters.  It stands in for
    [String.prototype.toLowerCase] only where an example with ASCII text
    is run; the search filter takes the host's folding as a parameter. *)
Definition asciiLowerChar (c : ascii) : ascii :=
  let n := nat_of_ascii c in
  if (65 <=? n)%nat && (n <=? 90)%nat then ascii_of_nat (n + 32) else c.

Fixpoint asciiLower (s : string) : string :=
  match s with
  | EmptyString => EmptyString
  | String c rest => String (asciiLowerChar c) (asciiLower rest)
  end.

End Js.

(** ** The store-action factory *)

Module StoreFactory.
Import Js.

(** [{ message, statusCode }] *)
Record ApiError := { message : string; statusCode : nat }.

(** The object built by [createErrorState]. *)
Record ErrorState :=
  { es_message : string; es_statusCode : nat; es_timestamp : nat }.

(** The normalized result that [handleApiResponse] returns:
    [{ success, data?, error? }]. *)
Record ApiResult (D : Type) :=
  { success : bool; data : option D; error : option ApiError }.
Arguments success {D} _.
Arguments data {D} _.
Arguments error {D} _.

(** One call of [showNotification.error(title, description)]. *)
Record Notification := { n_title : string; n_description : string }.

Section Factory.

(** The record type [T extends { id: string }] and the payload type of
    the mutating calls. *)
Context {T Payload : Type} (id : T → string).

(** A value held in a field of the store state. *)
Inductive Value :=
| VNull
| VBool (b : bool)
| VStr (s : string)
| VItems (items : list T)
| VErrorState (e : ErrorState).

(** JavaScript truthiness of a field that may be absent. *)
Definition truthy (v : option Value) : bool :=
  match v with
  | None | Some VNull => false
  | Some (VBool b) => b
  | Some (VStr s) => negb (String.eqb s "")
  | Some (VItems _) | Some (VErrorState _) => true
  end.

(** A call that reached the per-entity service. *)
Inductive ServiceCall :=
| CallFindAll
| CallFindAllBySemester (semesterId : string)
| CallCreate (payload : Payload)
| CallCreateMany (payload : Payload)
| CallUpdate (i : string) (payload : Payload)
| CallDelete (i : string)
| CallToggleStatus (i : string) (payload : Payload).

(** The world an action runs in: the data fields of the zustand store,
    the notifications shown so far, the service calls issued so far, and
    the clock that [new Date()] reads. *)
Record World := mkWorld
  { store : gmap string Value;
    notifications : list Notification;
    calls : list ServiceCall;
    clock : nat }.

Definition Act (A : Type) : Type := World → Completion A * World.

Definition ret {A} (a : A) : Act A := λ w, (Normal a, w).

Definition bind {A B} (m : Act A) (k : A → Act B) : Act B :=
  λ w, match m w with
       | (Normal a, w') => k a w'
       | (Abrupt e, w') => (Abrupt e, w')
       end.

Definition throw {A} (e : JsError) : Act A := λ w, (Abrupt e, w).

(** [try { body } catch (error) { handler } finally { fin }] *)
Definition tryCatchFinally {A} (body : Act A) (handler : JsError → Act A)
    (fin : Act unit) : Act A :=
  λ w,
    let '(c, w1) := body w in
    let '(c', w2) := match c with
                     | Normal a => (Normal a, w1)
                     | Abrupt e => handler e w1
                     end in
    match fin w2 with
    | (Normal _, w3) => (c', w3)
    | (Abrupt e, w3) => (Abrupt e, w3)
    end.

Declare Scope act_scope.
Delimit Scope act_scope with act.
Notation "'let*' x ':=' m 'in' k" := (bind m (λ x, k))
  (at level 10, x binder, m at level 100, k at level 200) : act_scope.
Local Open Scope act_scope.

(** [get()] *)
Definition getState : Act (gmap string Value) := λ w, (Normal (store w), w).

(** The shallow merge [{ ...state, ...partial }]; a later entry of the
    object literal wins over an earlier one with the same key. *)
Definition merge (partial : list (string * Value)) (state : gmap string Value)
    : gmap string Value :=
  foldl (λ acc kv, <[kv.1 := kv.2]> acc) state partial.

(** [set(partial)] *)
Definition setState (partial : list (string * Value)) : Act unit :=
  λ w, (Normal tt,
        mkWorld (merge partial (store w)) (notifications w) (calls w) (clock w)).

(** [set((state) => ({ ...state, ...f(state) }))]; a throw inside the
    updater leaves the state as it was. *)
Definition setStateWith
    (f : gmap string Value → Completion (list (string * Value))) : Act unit :=
  λ w, match f (store w) with
       | Normal partial => setState partial w
       | Abrupt e => (Abrupt e, w)
       end.

(** [state[key] as T[]] used as an array: spreading it or calling
    [.map] / [.filter] on it throws a TypeError unless the field holds
    an array.  (A string under the collection key is outside the typing
    [T[]] and is treated like the other non-arrays.) *)
Definition asItems (state : gmap string Value) (key : string)
    : Completion (list T) :=
  match state !! key with
  | Some (VItems items) => Normal items
  | _ => Abrupt (TypeError key)
  end.

(** [showNotification.error(title, description)] *)
Definition showNotificationError (title description : string) : Act unit :=
  λ w, (Normal tt,
        mkWorld (store w) (notifications w ++ [Build_Notification title description])
                (calls w) (clock w)).

(** [await service.op(args)]: the call is recorded and the promise
    settles as the service decides, given the calls made before. *)
Definition await {D} (call : ServiceCall)
    (op : list ServiceCall → Awaited D) : Act D :=
  λ w,
    let w' := mkWorld (store w) (notifications w) (calls w ++ [call]) (clock w) in
    match op (calls w) with
    | Resolves r => (Normal r, w')
    | RejectsWith e => (Abrupt e, w')
    end.

(** The field names derived from the entity name. *)
Definition itemsKey (entityName : string) : string := entityName +:+ "s".
Definition filteredKey (entityName : string) : string :=
  "filtered" +:+ capitalize entityName +:+ "s".
Definition filterFunctionKey (entityName : string) : string :=
  "filter" +:+ capitalize entityName +:+ "s".
Definition creatingManyKey (entityName : string) : string :=
  "creatingMany" +:+ capitalize entityName +:+ "s".

(** The raw envelope a service resolves with, and the two helpers of
    lib/utils/handleApi, which the factory imports. *)
Context {ApiResponse : Type → Type}.
Context (handleApiResponse :
  ∀ D, ApiResponse D → option string → option string → ApiResult D).
Context (handleApiError : JsError → string → ApiError).

(** The function members of the store state.  The factory writes only
    data fields, none of which can carry the name of a filter function,
    so the members are fixed while an action runs. *)
Context (methods : gmap string (Act unit)).

(** [createErrorState] *)
Definition createErrorState (e : ApiError) : Act ErrorState :=
  λ w, (Normal {| es_message := message e;
                  es_statusCode := statusCode e;
                  es_timestamp := clock w |}, w).

(** [getErrorTitle] inside [handleCreateError] *)
Definition getErrorTitle (code : nat) : string :=
  if (code =? 400)%nat then "Validation Error"
  else if (code =? 409)%nat then "Conflict Error"
  else if (code =? 422)%nat then "Invalid Data"
  else "Error " +:+ pretty code.

(** [handleCreateError] *)
Definition handleCreateError {D} (result : ApiResult D) : Act unit :=
  match error result with
  | Some e => showNotificationError (getErrorTitle (statusCode e)) (message e)
  | None => ret tt
  end.

(** [handleActionError] *)
Definition handleActionError (e : JsError) (entityName operation : string)
    : Act unit :=
  let apiError :=
    handleApiError e ("Failed to " +:+ operation +:+ " " +:+ entityName) in
  let* errorState := createErrorState apiError in
  let* _ := setState [("lastError", VErrorState errorState)] in
  showNotificationError "Error" (message apiError).

(** [handleResultError] *)
Definition handleResultError (e : ApiError) : Act unit :=
  let* errorState := createErrorState e in
  let* _ := setState [("lastError", VErrorState errorState)] in
  showNotificationError "Error" (message e).

(** The closing steps of every success handler:
    [const f = get()[`filter${Name}s`]; if (typeof f === 'function') f();] *)
Definition runFilterFunction (entityName : string) : Act unit :=
  let* _ := getState in
  match methods !! filterFunctionKey entityName with
  | Some filterFunction => filterFunction
  | None => ret tt
  end.

(** [handleFetchSuccess] *)
Definition handleFetchSuccess (items : list T) (entityName : string) : Act unit :=
  let* _ := setState [(itemsKey entityName, VItems items);
                      (filteredKey entityName, VItems items)] in
  runFilterFunction entityName.

(** [handleCreateSuccess] *)
Definition handleCreateSuccess (item : T) (entityName : string) : Act unit :=
  let* _ := setStateWith (λ state,
    match asItems state (itemsKey entityName) with
    | Normal items => Normal [(itemsKey entityName, VItems (item :: items))]
    | Abrupt e => Abrupt e
    end) in
  runFilterFunction entityName.

(** [handleUpdateSuccess] *)
Definition handleUpdateSuccess (item : T) (i : string) (entityName : string)
    : Act unit :=
  let* _ := setStateWith (λ state,
    match asItems state (itemsKey entityName) with
    | Normal items =>
        Normal [(itemsKey entityName,
                 VItems (map (λ x, if String.eqb (id x) i then item else x) items))]
    | Abrupt e => Abrupt e
    end) in
  runFilterFunction entityName.

(** [handleDeleteSuccess] *)
Definition handleDeleteSuccess (i : string) (entityName : string) : Act unit :=
  let* _ := setStateWith (λ state,
    match asItems state (itemsKey entityName) with
    | Normal items =>
        Normal [(itemsKey entityName,
                 VItems (List.filter (λ x, negb (String.eqb (id x) i)) items))]
    | Abrupt e => Abrupt e
    end) in
  runFilterFunction entityName.

(** [result.success && result.data]: the data when both are truthy. *)
Definition successData {D} (result : ApiResult D) : option D :=
  if success result then data result else None.

(** [createFetchAction] *)
Definition createFetchAction
    (findAll : list ServiceCall → Awaited (ApiResponse (list T)))
    (entityName : string) : Act unit :=
  let* _ := setState [("loading", VBool true); ("lastError", VNull)] in
  let* _ := tryCatchFinally
    (let* response := await CallFindAll findAll in
     let result := handleApiResponse _ response None None in
     match successData result with
     | Some items =>
         let* _ := handleFetchSuccess items entityName in
         ret tt
     | None =>
         match error result with
         | Some e => handleResultError e
         | None => ret tt
         end
     end)
    (λ e, handleActionError e (entityName +:+ "s") "fetch")
    (setState [("loading", VBool false)]) in
  ret tt.

(** The condition under which [createFetchBySemesterAction] shows empty
    data instead of an error. *)
Definition isEnrollmentStateConflict (e : ApiError) : bool :=
  (statusCode e =? 409)%nat &&
  negb (String.eqb (message e) "") &&
  (includes (message e) "NotYet" ||
   includes (message e) "End" ||
   includes (message e) "semesters allow student enrollment").

(** [currentState.students && currentState.lastSemesterId === semesterId] *)
Definition hasCachedSemester (currentState : gmap string Value)
    (semesterId : string) : bool :=
  truthy (currentState !! "students") &&
  match currentState !! "lastSemesterId" with
  | Some (VStr s) => String.eqb s semesterId
  | _ => false
  end.

(** [createFetchBySemesterAction] *)
Definition createFetchBySemesterAction
    (findAllBySemester : string → list ServiceCall → Awaited (ApiResponse (list T)))
    (entityName : string) (semesterId : string) (force : bool) : Act unit :=
  let* cached :=
    (if negb force then
       let* currentState := getState in
       ret (hasCachedSemester currentState semesterId)
     else ret false) in
  if (cached : bool) then ret tt
  else
    let* _ := setState [("loading", VBool true); ("lastError", VNull)] in
    let* _ := tryCatchFinally
      (let* response :=
         await (CallFindAllBySemester semesterId) (findAllBySemester semesterId) in
       let result := handleApiResponse _ response None None in
       match successData result with
       | Some items =>
           let* _ := handleFetchSuccess items entityName in
           setState [("lastSemesterId", VStr semesterId)]
       | None =>
           match error result with
           | Some e =>
               if isEnrollmentStateConflict e then
                 let* _ := handleFetchSuccess [] entityName in
                 setState [("lastSemesterId", VStr semesterId)]
               else handleResultError e
           | None => ret tt
           end
       end)
      (λ e, handleActionError e (entityName +:+ "s") "fetch by semester")
      (setState [("loading", VBool false)]) in
    ret tt.

(** The body shared by the mutating actions:
    [try { ...; return b } catch { ...; return false } finally { ... }
     return false]; the body yields [Some b] at a [return b] and [None]
    when control falls out of the [try] block. *)
Definition returning (body : Act (option bool)) (handler : JsError → Act unit)
    (fin : Act unit) : Act bool :=
  let* r := tryCatchFinally body
              (λ e, let* _ := handler e in ret (Some false)) fin in
  ret (match r with Some b => b | None => false end).

(** [createCreateAction] *)
Definition createCreateAction
    (create : Payload → list ServiceCall → Awaited (ApiResponse T))
    (entityName : string) (payload : Payload) : Act bool :=
  let* _ := setState [("creating", VBool true); ("lastError", VNull)] in
  returning
    (let* response := await (CallCreate payload) (create payload) in
     let result := handleApiResponse _ response (Some "Success")
                     (Some (capitalize entityName +:+ " created successfully")) in
     match successData result with
     | Some item =>
         let* _ := handleCreateSuccess item entityName in
         ret (Some true)
     | None =>
         match error result with
         | Some e =>
             let* errorState := createErrorState e in
             let* _ := setState [("lastError", VErrorState errorState)] in
             let* _ := handleCreateError result in
             ret (Some false)
         | None => ret None
         end
     end)
    (λ e, handleActionError e entityName "create")
    (setState [("creating", VBool false)]).

(** [createBatchCreateAction] *)
Definition createBatchCreateAction
    (createMany : Payload → list ServiceCall → Awaited (ApiResponse (list T)))
    (entityName : string) (payload : Payload) : Act bool :=
  let legacyLoadingField := "creatingMany" in
  let newLoadingField := creatingManyKey entityName in
  let* _ := setState [(legacyLoadingField, VBool true);
                      (newLoadingField, VBool true);
                      ("lastError", VNull)] in
  returning
    (let* response := await (CallCreateMany payload) (createMany payload) in
     let result := handleApiResponse _ response (Some "Import Successfully")
                     (Some ("List " +:+ entityName +:+
                            "s have been imported successfully.")) in
     match successData result with
     | Some items =>
         let* _ := setStateWith (λ state,
           match asItems state (itemsKey entityName) with
           | Normal old => Normal [(itemsKey entityName, VItems (items ++ old))]
           | Abrupt e => Abrupt e
           end) in
         let* _ := runFilterFunction entityName in
         ret (Some true)
     | None =>
         match error result with
         | Some e =>
             let* errorState := createErrorState e in
             let* _ := setState [("lastError", VErrorState errorState)] in
             let* _ := handleCreateError result in
             ret (Some false)
         | None => ret None
         end
     end)
    (λ e, handleActionError e (entityName +:+ "s") "create")
    (setState [(legacyLoadingField, VBool false);
               (newLoadingField, VBool false)]).

(** [createUpdateAction] *)
Definition createUpdateAction
    (update : string → Payload → list ServiceCall → Awaited (ApiResponse T))
    (entityName : string) (i : string) (payload : Payload) : Act bool :=
  let* _ := setState [("updating", VBool true); ("lastError", VNull)] in
  returning
    (let* response := await (CallUpdate i payload) (update i payload) in
     let result := handleApiResponse _ response (Some "Success")
                     (Some (capitalize entityName +:+ " updated successfully")) in
     match successData result with
     | Some item =>
         let* _ := handleUpdateSuccess item i entityName in
         ret (Some true)
     | None =>
         match error result with
         | Some e => let* _ := handleResultError e in ret (Some false)
         | None => ret None
         end
     end)
    (λ e, handleActionError e entityName "update")
    (setState [("updating", VBool false)]).

(** [createDeleteAction]; the success test is [result.success] alone. *)
Definition createDeleteAction
    (delete : string → list ServiceCall → Awaited (ApiResponse unit))
    (entityName : string) (i : string) : Act bool :=
  let* _ := setState [("deleting", VBool true); ("lastError", VNull)] in
  returning
    (let* response := await (CallDelete i) (delete i) in
     let result := handleApiResponse _ response (Some "Success")
                     (Some (capitalize entityName +:+ " deleted successfully")) in
     if success result then
       let* _ := handleDeleteSuccess i entityName in
       ret (Some true)
     else
       match error result with
       | Some e => let* _ := handleResultError e in ret (Some false)
       | None => ret None
       end)
    (λ e, handleActionError e entityName "delete")
    (setState [("deleting", VBool false)]).

(** [createToggleStatusAction] *)
Definition createToggleStatusAction
    (toggleStatus : string → Payload → list ServiceCall → Awaited (ApiResponse T))
    (entityName : string) (i : string) (payload : Payload) : Act bool :=
  let loadingField := "togglingStatus" in
  let* _ := setState [(loadingField, VBool true); ("lastError", VNull)] in
  returning
    (let* response := await (CallToggleStatus i payload) (toggleStatus i payload) in
     let result := handleApiResponse _ response
                     (Some (capitalize entityName +:+ " status updated successfully"))
                     None in
     match successData result with
     | Some item =>
         let* _ := handleUpdateSuccess item i entityName in
         ret (Some true)
     | None =>
         match error result with
         | Some e => let* _ := handleResultError e in ret (Some false)
         | None => ret None
         end
     end)
    (λ e, handleActionError e entityName "toggle status")
    (setState [(loadingField, VBool false)]).

(** [createSearchFilter(searchFields)]: the search over the fields
    that [searchFields] lists for a record, some of which may be
    [undefined].  [toLowerCase] is [String.prototype.toLowerCase] of the
    host, which folds every cased letter; it is taken as it is. *)
Definition createSearchFilter (toLowerCase : string → string)
    (searchFields : T → list (option string))
    (items : list T) (searchText : string) : list T :=
  if String.eqb searchText "" then items
  else
    let lowercaseSearch := toLowerCase searchText in
    List.filter (λ item,
      existsb (λ field,
        match field with
        | Some f => includes (toLowerCase f) lowercaseSearch
        | None => false
        end) (searchFields item)) items.

(** [commonStoreUtilities.clearError] *)
Definition clearError : list (string * Value) := [("lastError", VNull)].

(** [commonStoreUtilities.createSetSearchText] *)
Definition createSetSearchText (filterFunctionName : string) (text : string)
    : Act unit :=
  let* _ := setState [("searchText", VStr text)] in
  let* _ := getState in
  match methods !! filterFunctionName with
  | Some filterFunction => filterFunction
  | None => ret tt
  end.

(** [commonStoreUtilities.createFieldSetter] *)
Definition createFieldSetter (fieldName filterFunctionName : string)
    (value : Value) : Act unit :=
  let* _ := setState [(fieldName, value)] in
  let* _ := getState in
  match methods !! filterFunctionName with
  | Some filterFunction => filterFunction
  | None => ret tt
  end.

(** [commonStoreUtilities.createGetById]: [items?.find(...)] is
    [undefined] when the field is absent or [null], and a TypeError when
    the field holds a value without a [find] method. *)
Definition createGetById (entityName : string) (i : string) : Act (option T) :=
  let* currentState := getState in
  match currentState !! itemsKey entityName with
  | None | Some VNull => ret None
  | Some (VItems items) => ret (List.find (λ item, String.eqb (id item) i) items)
  | Some _ => throw (TypeError "find")
  end.

(** [commonStoreUtilities.createReset]: the fields of a store in its
    initial state. *)
Definition createReset (entityName : string)
    (customFields : list (string * Value)) : list (string * Value) :=
  [(itemsKey entityName, VItems []);
   (filteredKey entityName, VItems []);
   ("loading", VBool false);
   ("creating", VBool false);
   ("updating", VBool false);
   ("deleting", VBool false);
   ("togglingStatus", VBool false);
   ("lastError", VNull);
   ("searchText", VStr "");
   ("creatingMany", VBool false);
   (creatingManyKey entityName, VBool false)] ++ customFields.

(** The identifiers of a collection, in order. *)
Definition ids (items : list T) : list string := map id items.

(** How many records of a collection carry the identifier [i]. *)
Definition countId (i : string) (items : list T) : nat :=
  length (List.filter (λ x, String.eqb (id x) i) items).


(** *** Notions used to state the properties *)

(** An action that never throws. *)
Definition alwaysNormal {A} (m : Act A) : Prop :=
  ∀ w, ∃ a w', m w = (Normal a, w').

(** What it means for an action to end with a flag cleared. *)
Definition endsCleared {A} (flag : string) (m : Act A) (w : World) : Prop :=
  ∃ a w', m w = (Normal a, w') ∧ store w' !! flag = Some (VBool false).

(** The filter functions are defined by the per-entity stores, which
    are not among the sources.  The specification has the filtered list
    "computable purely from the full list and current search/filter
    parameters" and "never independently mutated": a filter function
    completes, calls no service, and writes no field but the filtered
    view. *)
Definition derivesFilteredView (entityName : string) (f : Act unit) : Prop :=
  ∀ w, ∃ w', f w = (Normal tt, w')
             ∧ (∀ k, k ≠ filteredKey entityName → store w' !! k = store w !! k)
             ∧ calls w' = calls w.

Definition filterIsDerived (entityName : string) : Prop :=
  ∀ f, methods !! filterFunctionKey entityName = Some f →
       derivesFilteredView entityName f.

(** [new] is [old] with every record of identifier [i] replaced, at its
    position, by [item], and every other record left as it is. *)
Definition replacedInPlace (i : string) (item : T) (old new : list T) : Prop :=
  length new = length old
  ∧ ∀ n x, old !! n = Some x →
           (id x = i → new !! n = Some item) ∧ (id x ≠ i → new !! n = Some x).

(** The collection without the records of identifier [i]. *)
Definition withoutId (i : string) (items : list T) : list T :=
  List.filter (λ x, negb (String.eqb (id x) i)) items.

(** What the service's answer makes the action store: the returned
    records, or no records when the answer is the recognized conflict. *)
Definition fetchedItems (result : ApiResult (list T)) : option (list T) :=
  match successData result with
  | Some items => Some items
  | None =>
      match error result with
      | Some e => if isEnrollmentStateConflict e then Some [] else None
      | None => None
      end
  end.

(** The error state that [createErrorState] builds in the world [w]. *)
Definition errorStateAt (w : World) (e : ApiError) : ErrorState :=
  {| es_message := message e; es_statusCode := statusCode e;
     es_timestamp := clock w |}.

(** An action that ends without touching the data: it returns
    [result], issues the one service call [call], leaves [slot] in the
    error slot, clears its busy flags, shows the notifications [shown]
    and changes no other field. *)
Definition endsUntouched {A} (flags : list string) (call : ServiceCall)
    (slot : Value) (shown : list Notification) (result : A)
    (m : Act A) (w : World) : Prop :=
  ∃ w', m w = (Normal result, w')
        ∧ store w' !! "lastError" = Some slot
        ∧ (∀ flag, flag ∈ flags → store w' !! flag = Some (VBool false))
        ∧ (∀ k, k ≠ "lastError" → k ∉ flags → store w' !! k = store w !! k)
        ∧ notifications w' = notifications w ++ shown
        ∧ calls w' = calls w ++ [call].

(** What an action writes when it starts, and when it ends, given
    the names of its busy flags. *)
Definition raised (flags : list string) : list (string * Value) :=
  map (λ f, (f, VBool true)) flags ++ [("lastError", VNull)].

Definition lowered (flags : list string) : list (string * Value) :=
  map (λ f, (f, VBool false)) flags.

(** The service resolves the call and [handleApiResponse] turns its
    answer into [result]. *)
Definition answeredWith {D} (op : list ServiceCall → Awaited (ApiResponse D))
    (title description : option string) (w : World) (result : ApiResult D)
    : Prop :=
  ∃ response, op (calls w) = Resolves response
              ∧ handleApiResponse D response title description = result.

(** An action that succeeds in changing the collection: it returns
    [true], issues the one service call [call], leaves [items] as the
    collection, [null] in the error slot and its busy flags cleared, and
    changes no field besides these and the filtered view. *)
Definition endsUpdated (flags : list string) (call : ServiceCall)
    (entityName : string) (items : list T) (m : Act bool) (w : World) : Prop :=
  ∃ w', m w = (Normal true, w')
        ∧ store w' !! itemsKey entityName = Some (VItems items)
        ∧ store w' !! "lastError" = Some VNull
        ∧ (∀ flag, flag ∈ flags → store w' !! flag = Some (VBool false))
        ∧ (∀ k, k ≠ itemsKey entityName → k ≠ filteredKey entityName →
                k ≠ "lastError" → k ∉ flags → store w' !! k = store w !! k)
        ∧ calls w' = calls w ++ [call].

End Factory.

Arguments VNull {T}.
Arguments VBool {T} _.
Arguments VStr {T} _.
Arguments VItems {T} _.
Arguments VErrorState {T} _.
Arguments CallFindAll {Payload}.
Arguments CallFindAllBySemester {Payload} _.
Arguments CallDelete {Payload} _.

(** *** A concrete store, used to run the actions on examples *)

Record Student := { studentId : string; fullName : string; isActive : bool }.

(** A service whose envelope already has the normalized shape. *)
Definition plainResponse (D : Type) : Type := ApiResult D.

Definition passThrough (D : Type) (response : plainResponse D)
    (_ _ : option string) : ApiResult D := response.

Definition genericApiError (e : JsError) (fallback : string) : ApiError :=
  {| message := fallback; statusCode := 500 |}.

(** A filter function that copies the collection into the filtered view
    (an empty search text). *)
Definition copyFilter (entityName : string)
    : @Act Student unit unit :=
  λ w, match store w !! itemsKey entityName with
       | Some v => setState [(filteredKey entityName, v)] w
       | None => (Normal tt, w)
       end.

Definition studentMethods : gmap string (@Act Student unit unit) :=
  {[ filterFunctionKey "student" := copyFilter "student" ]}.

Definition emptyWorld (entityName : string) : @World Student unit :=
  mkWorld (merge (createReset entityName []) ∅) [] [] 0.

Definition ann : Student :=
  {| studentId := "s1"; fullName := "Ann"; isActive := false |}.
Definition bob : Student :=
  {| studentId := "s2"; fullName := "Bob"; isActive := true |}.
Definition annActive : Student :=
  {| studentId := "s1"; fullName := "Ann"; isActive := true |}.

Definition worldWith (entityName : string) (items : list Student)
    : @World Student unit :=
  mkWorld (merge [(itemsKey entityName, VItems items);
                  (filteredKey entityName, VItems items)]
                 (store (emptyWorld entityName))) [] [] 0.

Definition succeedWith {D} (d : D) : list (@ServiceCall unit) → Awaited (plainResponse D) :=
  λ _, Resolves {| success := true; data := Some d; error := None |}.

Definition failWith {D} (code : nat) (msg : string)
    : list (@ServiceCall unit) → Awaited (plainResponse D) :=
  λ _, Resolves {| success := false; data := None;
                   error := Some {| message := msg; statusCode := code |} |}.

(** Answers of the service used in the examples. *)
Definition studentExists : ApiError :=
  {| message := "Student code already exists"; statusCode := 409 |}.

Definition okResult {D} (d : D) : ApiResult D :=
  {| success := true; data := Some d; error := None |}.

Definition errorResult {D} (e : ApiError) : ApiResult D :=
  {| success := false; data := None; error := Some e |}.

Definition emptyResult {D} : ApiResult D :=
  {| success := false; data := None; error := None |}.

Definition answering {D} (r : ApiResult D)
    : list (@ServiceCall unit) → Awaited (plainResponse D) :=
  λ _, Resolves r.

Definition throwing {D} (e : JsError)
    : list (@ServiceCall unit) → Awaited (plainResponse D) :=
  λ _, RejectsWith e.

Definition networkDown : JsError := Thrown "Network Error".

Definition classroom : @World Student unit := worldWith "student" [ann; bob].

End StoreFactory.

(** ** The HTTP interceptors (src/lib/services/http/interceptors.ts) *)

Module HttpInterceptors.
Import Js.

(** [ExtendedAxiosRequestConfig]: the fields the interceptors read or
    write, and the rest of the request. *)
Record Config := mkConfig
  { url : option string;
    headers : option (gmap string string);
    _retry : option bool;
    method : string;
    payload : string }.

Record Response := { status : nat; body : string }.

(** [AxiosError] *)
Record AxiosError := mkError
  { config : option Config;
    response : option Response;
    errorMessage : string }.

(** What the environment records. *)
Inductive Event :=
| EvSend (c : Config)
| EvConsoleWarn (about : option string)
| EvConsoleError (what : string).

(** How the promise returned by the client, or by the response error
    handler, settles. *)
Inductive Settled :=
| Fulfilled (r : Response)
| Rejected (e : AxiosError)
| RejectedThrown (e : JsError).

(** What the transport does with a request: a response that axios
    accepts, or a failure, which may carry the server's response. *)
Inductive Transport :=
| Delivers (r : Response)
| FailsWith (r : option Response) (msg : string).

Definition authEndpoints : list string :=
  ["/auth/admin/login"; "/auth/user/login";
   "/auth/admin/refresh"; "/auth/user/refresh"].

(** [authEndpoints.some((endpoint) => url?.includes(endpoint))] *)
Definition isAuthEndpoint (u : option string) : bool :=
  existsb (λ endpoint,
    match u with
    | Some s => includes s endpoint
    | None => false
    end) authEndpoints.

(** [isRetryableRequest]: [typeof config === 'object' && config !== null] *)
Definition isRetryableRequest (c : Config) : bool := true.

(** Truthiness of a [string | null] token and of the [_retry] flag. *)
Definition tokenTruthy (t : option string) : bool :=
  match t with
  | Some s => negb (String.eqb s "")
  | None => false
  end.

Definition flagTruthy (f : option bool) : bool :=
  match f with
  | Some b => b
  | None => false
  end.

(** [config.headers = config.headers ?? {};
     config.headers.Authorization = `Bearer ${token}`] *)
Definition withAuthorization (c : Config) (token : string) : Config :=
  mkConfig (url c)
    (Some (<["Authorization" := "Bearer " +:+ token]> (default ∅ (headers c))))
    (_retry c) (method c) (payload c).

(** [originalRequest._retry = true] *)
Definition markRetried (c : Config) : Config :=
  mkConfig (url c) (headers c) (Some true) (method c) (payload c).

(** [createRequestErrorHandler]: the error is an [Error] instance and
    is rejected as it is. *)
Definition createRequestErrorHandler (error : AxiosError) : Settled :=
  Rejected error.

(** [createResponseSuccessHandler] *)
Definition createResponseSuccessHandler (r : Response) : Response := r.

(** The test of the handler: a 401 from an endpoint that is not an
    authentication endpoint, on a request not yet retried. *)
Definition refreshable (error : AxiosError) (originalRequest : Config) : Prop :=
  config error = Some originalRequest
  ∧ (∃ r, response error = Some r ∧ status r = 401)
  ∧ flagTruthy (_retry originalRequest) = false
  ∧ isAuthEndpoint (url originalRequest) = false.

(** The error with its config marked as retried. *)
Definition retriedError (error : AxiosError) (originalRequest : Config) : AxiosError :=
  mkError (Some (markRetried originalRequest)) (response error) (errorMessage error).

(** How the promise of a request settles once the transport has
    answered and no retry follows. *)
Definition settles (sent : Config) (answer : Transport) : Settled :=
  match answer with
  | Delivers r => Fulfilled r
  | FailsWith r msg => Rejected (mkError (Some sent) r msg)
  end.

Section Interceptors.

(** [TokenManager] (lib/utils/auth/token-manager) over its own state:
    the interceptors only call it. *)
Context {TokenState : Type}.
Context (getValidAccessToken : TokenState → Awaited (option string) * TokenState).
Context (refreshAccessToken : TokenState → Awaited (option string) * TokenState).
Context (clearTokens : TokenState → TokenState).

(** The transport below the interceptors, answering a request given
    what happened before. *)
Context (transport : Config → list Event → Transport).

(** The world a request runs in: the token manager's state, the
    address shown by the window when there is a window, and the
    events so far. *)
Record World := mkWorld
  { tokens : TokenState;
    window : option string;
    events : list Event }.

Definition Act (A : Type) : Type := World → A * World.

Definition ret {A} (a : A) : Act A := λ w, (a, w).

Definition bind {A B} (m : Act A) (k : A → Act B) : Act B :=
  λ w, let '(a, w') := m w in k a w'.

Declare Scope http_scope.
Delimit Scope http_scope with http.
Notation "'let*' x ':=' m 'in' k" := (bind m (λ x, k))
  (at level 10, x binder, m at level 100, k at level 200) : http_scope.
Local Open Scope http_scope.

Definition emit (e : Event) : Act unit :=
  λ w, (tt, mkWorld (tokens w) (window w) (events w ++ [e])).

(** [await TokenManager.getValidAccessToken()] *)
Definition awaitValidAccessToken : Act (Awaited (option string)) :=
  λ w, let '(r, t) := getValidAccessToken (tokens w) in
       (r, mkWorld t (window w) (events w)).

(** [await TokenManager.refreshAccessToken()] *)
Definition awaitRefreshAccessToken : Act (Awaited (option string)) :=
  λ w, let '(r, t) := refreshAccessToken (tokens w) in
       (r, mkWorld t (window w) (events w)).

(** [TokenManager.clearTokens()] *)
Definition doClearTokens : Act unit :=
  λ w, (tt, mkWorld (clearTokens (tokens w)) (window w) (events w)).

(** [if (typeof window !== 'undefined') window.location.href = '/login'] *)
Definition redirectToLogin : Act unit :=
  λ w, (tt, mkWorld (tokens w)
              (match window w with
               | Some _ => Some "/login"
               | None => None
               end) (events w)).

(** [createRequestInterceptor] *)
Definition createRequestInterceptor (c : Config) : Act Config :=
  if isAuthEndpoint (url c) then ret c
  else
    let* r := awaitValidAccessToken in
    match r with
    | Resolves accessToken =>
        match accessToken with
        | Some token =>
            if tokenTruthy accessToken then ret (withAuthorization c token)
            else ret c
        | None => ret c
        end
    | RejectsWith _ =>
        let* _ := emit (EvConsoleWarn (url c)) in
        ret c
    end.

(** [createResponseErrorHandler(httpClient)]: the handler is given the
    client it reissues the request with.  [originalRequest] is the
    object [error.config], so marking it retried marks the error's
    config too. *)
Definition createResponseErrorHandler {R} (httpClient : Config → Act R)
    (reject : Settled → R) (error : AxiosError) : Act R :=
  match config error with
  | None =>
      let* _ := emit (EvConsoleError "API Error (no config)") in
      ret (reject (Rejected error))
  | Some originalRequest =>
      if negb (isRetryableRequest originalRequest) then
        let* _ := emit (EvConsoleError "Invalid request config for retry") in
        ret (reject (Rejected error))
      else
        if match response error with
           | Some r => (status r =? 401)%nat
           | None => false
           end
           && negb (flagTruthy (_retry originalRequest))
           && negb (isAuthEndpoint (url originalRequest))
        then
          let originalRequest := markRetried originalRequest in
          let error := mkError (Some originalRequest) (response error)
                               (errorMessage error) in
          let* r := awaitRefreshAccessToken in
          match r with
          | RejectsWith e => ret (reject (RejectedThrown e))
          | Resolves newAccessToken =>
              match newAccessToken with
              | Some token =>
                  if tokenTruthy newAccessToken then
                    httpClient (withAuthorization originalRequest token)
                  else
                    let* _ := doClearTokens in
                    let* _ := redirectToLogin in
                    let* _ := emit (EvConsoleError "API Error") in
                    ret (reject (Rejected error))
              | None =>
                  let* _ := doClearTokens in
                  let* _ := redirectToLogin in
                  let* _ := emit (EvConsoleError "API Error") in
                  ret (reject (Rejected error))
              end
          end
        else
          let* _ := emit (EvConsoleError "API Error") in
          ret (reject (Rejected error))
  end.

(** The request goes out: the transport answers given the events so
    far, and the request is recorded. *)
Definition send (c : Config) : Act Transport :=
  λ w, (transport c (events w),
        mkWorld (tokens w) (window w) (events w ++ [EvSend c])).

(** Modelled from the spec: the configured request client of
    lib/services/_httpClient, which is not among the sources ("a single
    configured request client with interceptors").  A request passes the
    request interceptor and is sent; a response goes to the success
    handler; a failure goes to the response error handler as an error
    that carries the request's own config, custom fields included, as
    axios does.  The handler may call the client again, so the
    definition is by recursion on a bound of the nesting; [None] says
    the bound was too small. *)
Fixpoint httpClient (fuel : nat) (c : Config) : Act (option Settled) :=
  match fuel with
  | 0 => ret None
  | S fuel' =>
      let* sent := createRequestInterceptor c in
      let* answer := send sent in
      match answer with
      | Delivers r => ret (Some (Fulfilled (createResponseSuccessHandler r)))
      | FailsWith r msg =>
          createResponseErrorHandler (httpClient fuel') Some
            (mkError (Some sent) r msg)
      end
  end.

(** The requests sent so far. *)
Definition sends (w : World) : list Config :=
  omap (λ e, match e with EvSend c => Some c | _ => None end) (events w).

End Interceptors.

(** *** A concrete environment, used to run the interceptors *)

(** A token manager whose state is the stored access credential and
    the credential that the next refresh will obtain. *)
Record SimpleTokens := { stored : option string; nextToken : option string }.

Definition simpleGetValid (t : SimpleTokens)
    : Awaited (option string) * SimpleTokens :=
  (Resolves (stored t), t).

Definition simpleRefresh (t : SimpleTokens)
    : Awaited (option string) * SimpleTokens :=
  (Resolves (nextToken t), {| stored := nextToken t; nextToken := nextToken t |}).

Definition brokenGetValid (t : SimpleTokens)
    : Awaited (option string) * SimpleTokens :=
  (RejectsWith (Thrown "storage unavailable"), t).

Definition simpleClear (t : SimpleTokens) : SimpleTokens :=
  {| stored := None; nextToken := nextToken t |}.

(** A server that rejects every request with status 401. *)
Definition alwaysUnauthorized (c : Config) (_ : list Event) : Transport :=
  FailsWith (Some {| status := 401; body := "Unauthorized" |}) "401".

(** A server that accepts the bearer token [good] and nothing else. *)
Definition acceptsOnly (good : string) (c : Config) (_ : list Event) : Transport :=
  match headers c with
  | Some h =>
      if decide (h !! "Authorization" = Some ("Bearer " +:+ good))
      then Delivers {| status := 200; body := "ok" |}
      else FailsWith (Some {| status := 401; body := "Unauthorized" |}) "401"
  | None => FailsWith (Some {| status := 401; body := "Unauthorized" |}) "401"
  end.

Definition getStudents : Config :=
  mkConfig (Some "/students") None None "GET" "".

Definition postLogin : Config :=
  mkConfig (Some "/auth/user/login") None None "POST" "{}".

Definition browser (t : SimpleTokens) : @World SimpleTokens :=
  mkWorld t (Some "/dashboard") [].

Definition server (t : SimpleTokens) : @World SimpleTokens :=
  mkWorld t None [].

Definition freshTokens : SimpleTokens :=
  {| stored := Some "old"; nextToken := Some "new" |}.

Definition spentTokens : SimpleTokens :=
  {| stored := Some "old"; nextToken := None |}.

Definition unauthorized (c : Config) : AxiosError :=
  mkError (Some c) (Some {| status := 401; body := "Unauthorized" |}) "401".

Definition brokenRefresh (t : SimpleTokens)
    : Awaited (option string) * SimpleTokens :=
  (RejectsWith (Thrown "refresh failed"), t).

Definition renewedTokens : SimpleTokens :=
  {| stored := Some "new"; nextToken := Some "new" |}.

Definition ok : Response := {| status := 200; body := "ok" |}.

Definition denied : Response := {| status := 401; body := "Unauthorized" |}.

End HttpInterceptors.

(** ** Credential refresh shared by pending requests *)

Module TokenRefresh.

(** Modelled from the spec: [TokenManager.refreshAccessToken] of
    lib/utils/auth/token-manager, which is not among the sources.  The
    specification says that the credential pair is "refreshed
    asynchronously and shared across all pending requests", that "at
    most one in-flight refresh of the Credential Pair exists at a time"
    and that "concurrent requests needing refresh must await the same
    outstanding refresh rather than triggering duplicate refresh calls".
    The manager therefore keeps the outstanding refresh, with the
    requests awaiting it, in one slot. *)
Record Manager := mkManager
  { awaiting : option (list nat);
    refreshCalls : nat;
    inFlight : nat;
    resolved : list (nat * option string) }.

Definition idle : Manager := mkManager None 0 0 [].

(** What happens on the event loop: a request finds the access
    credential expired or absent and asks for a refresh, or the
    outstanding refresh call settles with the new credential (or with
    none). *)
Inductive Event :=
| NeedsRefresh (request : nat)
| RefreshSettles (token : option string).

Definition step (m : Manager) (e : Event) : Manager :=
  match e with
  | NeedsRefresh r =>
      match awaiting m with
      | Some waiters =>
          mkManager (Some (waiters ++ [r])) (refreshCalls m) (inFlight m) (resolved m)
      | None =>
          mkManager (Some [r]) (S (refreshCalls m)) (S (inFlight m)) (resolved m)
      end
  | RefreshSettles token =>
      match awaiting m with
      | Some waiters =>
          mkManager None (refreshCalls m) (pred (inFlight m))
            (resolved m ++ map (λ r, (r, token)) waiters)
      | None => m
      end
  end.

Definition run (es : list Event) (m : Manager) : Manager := foldl step m es.

(** The slot and the count of outstanding calls agree. *)
Definition consistent (m : Manager) : Prop :=
  match awaiting m with
  | Some _ => inFlight m = 1
  | None => inFlight m = 0
  end.

End TokenRefresh.

(** ** Route configuration (lib/auth route config and auth-constants) *)

Module Routes.
Import Js.

(** [USER_ROLES] *)
Inductive UserRole := STUDENT | LECTURER | MODERATOR | ADMIN.

(** [RouteConfig] *)
Record RouteConfig := mkRoute
  { path : string;
    requiredRole : UserRole;
    requiresModerator : option bool }.

(** [DASHBOARD_PATHS] *)
Definition DASHBOARD_STUDENT : string := "/student".
Definition DASHBOARD_LECTURER : string := "/lecturer".
Definition DASHBOARD_ADMIN : string := "/admin".
Definition LECTURER_DASHBOARD_MODERATOR : string := "/lecturer/dashboard-moderator".
Definition LECTURER_GROUP_MANAGEMENT : string := "/lecturer/group-management".
Definition LECTURER_ASSIGN_STUDENT_DETAIL : string :=
  "/lecturer/assign-student-detail".
Definition LECTURER_ASSIGN_SUPERVISOR : string := "/lecturer/assign-supervisor".
Definition LECTURER_ASSIGN_LIST_PUBLISH_THESIS : string :=
  "/lecturer/assign-list-publish-thesis".
Definition LECTURER_ASSIGN_LECTURER_REVIEW : string :=
  "/lecturer/assign-lecturer-review".
Definition LECTURER_CHECKLIST_MANAGEMENT : string :=
  "/lecturer/checklist-management".

(** [ROUTE_CONFIGS] *)
Definition ROUTE_CONFIGS : list RouteConfig :=
  [ mkRoute DASHBOARD_STUDENT STUDENT None;
    mkRoute DASHBOARD_LECTURER LECTURER None;
    mkRoute LECTURER_GROUP_MANAGEMENT LECTURER (Some true);
    mkRoute LECTURER_ASSIGN_STUDENT_DETAIL LECTURER (Some true);
    mkRoute LECTURER_ASSIGN_SUPERVISOR LECTURER (Some true);
    mkRoute LECTURER_ASSIGN_LIST_PUBLISH_THESIS LECTURER (Some true);
    mkRoute LECTURER_ASSIGN_LECTURER_REVIEW LECTURER (Some true);
    mkRoute LECTURER_CHECKLIST_MANAGEMENT LECTURER (Some true);
    mkRoute DASHBOARD_ADMIN ADMIN None ].

(** [findMatchingRoute] *)
Definition findMatchingRoute (pathname : string) : option RouteConfig :=
  List.find (λ route, startsWith pathname (path route)) ROUTE_CONFIGS.

End Routes.

(** * Properties *)

Module JsFacts.
Import Js.

Lemma lastChar_app_singleton (s : string) (c : ascii) :
  lastChar (s +:+ String c EmptyString) = Some c.
Proof.
  induction s as [|a s IH]; [reflexivity|].
  change (String a s +:+ String c EmptyString)
    with (String a (s +:+ String c EmptyString)).
  cbn [lastChar]. rewrite IH.
  destruct (s +:+ String c EmptyString) eqn:E; [|reflexivity].
  destruct s; discriminate.
Qed.

Lemma capitalize_length (s : string) :
  String.length (capitalize s) = String.length s.
Proof. destruct s; reflexivity. Qed.

Lemma app_length (s t : string) :
  String.length (s +:+ t) = String.length s + String.length t.
Proof.
  induction s as [|a s IH]; [reflexivity|].
  change (String a s +:+ t) with (String a (s +:+ t)).
  cbn [String.length]. rewrite IH. reflexivity.
Qed.

Lemma startsWith_spec (hay needle : string) :
  startsWith hay needle = true ↔ ∃ post, hay = needle +:+ post.
Proof.
  revert hay. induction needle as [|a needle IH]; intros hay; cbn.
  - split; [intros _; exists hay; reflexivity|]. destruct hay; reflexivity.
  - destruct hay as [|b hay]; cbn.
    + split; [discriminate|]. intros (post & Heq). discriminate.
    + destruct (decide (a = b)) as [->|Hne].
      * rewrite IH. split; intros (post & Heq); exists post.
        -- change (String b needle +:+ post) with (String b (needle +:+ post)).
           congruence.
        -- change (String b needle +:+ post) with (String b (needle +:+ post)) in Heq.
           congruence.
      * split; [discriminate|]. intros (post & Heq).
        change (String a needle +:+ post) with (String a (needle +:+ post)) in Heq.
        congruence.
Qed.

Lemma includes_spec (hay needle : string) :
  includes hay needle = true ↔ ∃ pre post, hay = pre +:+ needle +:+ post.
Proof.
  induction hay as [|b hay IH].
  - cbn [includes]. rewrite orb_false_r, startsWith_spec. split.
    + intros (post & Heq). exists "", post. exact Heq.
    + intros (pre & post & Heq). destruct pre; [exists post; exact Heq|discriminate].
  - cbn [includes]. rewrite orb_true_iff, startsWith_spec, IH. split.
    + intros [(post & Heq)|(pre & post & Heq)].
      * exists "", post. exact Heq.
      * exists (String b pre), post. rewrite Heq. reflexivity.
    + intros (pre & post & Heq). destruct pre as [|a pre].
      * left. exists post. exact Heq.
      * right. exists pre, post.
        change (String a pre +:+ needle +:+ post)
          with (String a (pre +:+ needle +:+ post)) in Heq.
        congruence.
Qed.

Lemma startsWith_shorter (hay a b : string) :
  startsWith hay (a +:+ b) = true → startsWith hay a = true.
Proof.
  rewrite !startsWith_spec. intros (post & ->). exists (b +:+ post).
  induction a as [|c a IH]; [reflexivity|].
  change (String c a +:+ b) with (String c (a +:+ b)).
  change (String c (a +:+ b) +:+ post) with (String c ((a +:+ b) +:+ post)).
  change (String c a +:+ b +:+ post) with (String c (a +:+ b +:+ post)).
  f_equal. exact IH.
Qed.

End JsFacts.

(** ** Properties of the store-action factory *)

Module StoreProperties.
Import Js JsFacts StoreFactory.

Section Properties.

Context {T Payload : Type} (id : T → string).
Context {ApiResponse : Type → Type}.
Context (handleApiResponse :
  ∀ D, ApiResponse D → option string → option string → ApiResult D).
Context (handleApiError : JsError → string → ApiError).
Context (methods : gmap string (@Act T Payload unit)).

Local Abbreviation Store := (gmap string (@Value T)).
Local Abbreviation World := (@World T Payload).
Local Abbreviation filterIsDerived := (filterIsDerived methods).
Local Abbreviation answeredWith := (answeredWith handleApiResponse).
Local Abbreviation replacedInPlace := (replacedInPlace id).
Local Abbreviation withoutId := (withoutId id).

(** *** The shallow merge *)

Lemma merge_cons (k : string) (v : @Value T) (rest : list (string * Value))
    (s : Store) :
  merge ((k, v) :: rest) s = merge rest (<[k := v]> s).
Proof. reflexivity. Qed.

Lemma merge_nil (s : Store) : merge [] s = s.
Proof. reflexivity. Qed.

Lemma merge_lookup_other (partial : list (string * Value)) (s : Store) (k : string) :
  k ∉ partial.*1 → merge partial s !! k = s !! k.
Proof.
  revert s. induction partial as [|[k' v] rest IH]; intros s Hk; [reflexivity|].
  rewrite merge_cons, IH.
  - apply lookup_insert_ne. intros ->. apply Hk. cbn. left.
  - intros Hin. apply Hk. cbn. right. exact Hin.
Qed.

Lemma merge_lookup_all (partial : list (string * Value)) (s : Store)
    (k : string) (v : Value) :
  k ∈ partial.*1 → (∀ kv, kv ∈ partial → kv.2 = v) →
  merge partial s !! k = Some v.
Proof.
  revert s. induction partial as [|[k' v'] rest IH]; intros s Hk Hall.
  - cbn in Hk. inversion Hk.
  - rewrite merge_cons.
    destruct (decide (k ∈ rest.*1)) as [Hin|Hnin].
    + apply IH; [exact Hin|]. intros kv Hkv. apply Hall. right. exact Hkv.
    + rewrite merge_lookup_other by exact Hnin.
      cbn in Hk. apply elem_of_cons in Hk as [->|Hk]; [|contradiction].
      rewrite lookup_insert_eq. f_equal.
      apply (Hall (k', v')). left.
Qed.

(** *** What [try]/[finally] guarantees *)

Lemma setState_normal (partial : list (string * @Value T)) :
  alwaysNormal (setState (Payload:=Payload) partial).
Proof. intros w. eexists _, _. reflexivity. Qed.

Lemma handleActionError_normal (e : JsError) (entityName operation : string) :
  alwaysNormal (T:=T) (Payload:=Payload)
    (handleActionError handleApiError e entityName operation).
Proof. intros w. eexists _, _. reflexivity. Qed.

(** Whatever the body and the handler do, a statement whose [finally]
    block is [set(partial)] ends in a world whose store went through
    that [set] last. *)
Lemma tryCatchFinally_ends_with_set {A} (body : Act A) (handler : JsError → Act A)
    (partial : list (string * Value)) (w : World) :
  (∀ e, alwaysNormal (handler e)) →
  ∃ c w2, tryCatchFinally body handler (setState partial) w
          = (c, mkWorld (merge partial (store w2)) (notifications w2)
                        (calls w2) (clock w2))
          ∧ (∀ e, c = Abrupt e → False).
Proof.
  intros Hh. unfold tryCatchFinally.
  destruct (body w) as [[a|e] w1].
  - exists (Normal a), w1. cbn. split; [reflexivity|]. intros e; discriminate.
  - destruct (Hh e w1) as (a & w2 & ->).
    exists (Normal a), w2. cbn. split; [reflexivity|]. intros ?; discriminate.
Qed.

Lemma returning_ends_with_set (body : Act (option bool)) (handler : JsError → Act unit)
    (partial : list (string * Value)) (w : World) :
  (∀ e, alwaysNormal (handler e)) →
  ∃ b w2, returning body handler (setState partial) w
          = (Normal b, mkWorld (merge partial (store w2)) (notifications w2)
                               (calls w2) (clock w2)).
Proof.
  intros Hh. unfold returning, bind.
  destruct (tryCatchFinally_ends_with_set body
              (λ e, bind (handler e) (λ _, ret (Some false))) partial w)
    as (c & w2 & Heq & Hc).
  - intros e w'. destruct (Hh e w') as (a & w'' & Ha).
    unfold bind. rewrite Ha. eexists _, _. reflexivity.
  - unfold bind in Heq. rewrite Heq.
    destruct c as [r|e]; [|destruct (Hc e eq_refl)].
    eexists _, w2. reflexivity.
Qed.

Lemma set_then_returning_cleared (flag : string) (first partial : list (string * Value))
    (body : Act (option bool)) (handler : JsError → Act unit) (w : World) :
  (∀ e, alwaysNormal (handler e)) →
  flag ∈ partial.*1 → (∀ kv, kv ∈ partial → kv.2 = VBool false) →
  endsCleared flag
    (bind (setState first) (λ _, returning body handler (setState partial))) w.
Proof.
  intros Hh Hin Hall. unfold endsCleared, bind. cbn [setState].
  destruct (returning_ends_with_set body handler partial
              (mkWorld (merge first (store w)) (notifications w) (calls w) (clock w))
              Hh) as (b & w2 & ->).
  eexists _, _. split; [reflexivity|]. cbn.
  apply merge_lookup_all; assumption.
Qed.

Lemma set_then_try_cleared {A} (flag : string) (first partial : list (string * Value))
    (body : Act A) (handler : JsError → Act A) (w : World) :
  (∀ e, alwaysNormal (handler e)) →
  flag ∈ partial.*1 → (∀ kv, kv ∈ partial → kv.2 = VBool false) →
  endsCleared flag
    (bind (setState first)
       (λ _, bind (tryCatchFinally body handler (setState partial)) (λ _, ret tt))) w.
Proof.
  intros Hh Hin Hall. unfold endsCleared, bind. cbn [setState].
  destruct (tryCatchFinally_ends_with_set body handler partial
              (mkWorld (merge first (store w)) (notifications w) (calls w) (clock w))
              Hh) as (c & w2 & -> & Hc).
  destruct c as [a|e]; [|destruct (Hc e eq_refl)].
  eexists _, _. split; [reflexivity|]. cbn.
  apply merge_lookup_all; assumption.
Qed.

Ltac flag_side :=
  first [ intros ?; apply handleActionError_normal
        | cbn; solve [ repeat constructor ]
        | let H := fresh in
          intros [? ?] H; cbn in H;
          repeat (apply elem_of_cons in H; destruct H as [H|H];
                  [injection H as -> ->; reflexivity|]);
          apply elem_of_nil in H; destruct H ].

(** *** Field names *)

Lemma itemsKey_lastChar (entityName : string) :
  lastChar (itemsKey entityName) = Some "s"%char.
Proof. apply lastChar_app_singleton. Qed.

(** The collection field is none of the fields whose name does not end
    in the letter s. *)
Lemma itemsKey_neq (entityName k : string) :
  lastChar k ≠ Some "s"%char → itemsKey entityName ≠ k.
Proof. intros Hk <-. apply Hk, itemsKey_lastChar. Qed.

Lemma itemsKey_neq_filteredKey (entityName : string) :
  itemsKey entityName ≠ filteredKey entityName.
Proof.
  intros Heq. apply (f_equal String.length) in Heq.
  unfold itemsKey, filteredKey in Heq.
  rewrite !app_length, capitalize_length in Heq. cbn in Heq. lia.
Qed.

Lemma filteredKey_prefix (entityName : string) :
  ∃ rest, filteredKey entityName = String "f" rest.
Proof. eexists. reflexivity. Qed.

Lemma filteredKey_neq (entityName k : string) :
  (∀ rest, k ≠ String "f" rest) → filteredKey entityName ≠ k.
Proof. intros Hk Heq. apply (Hk _ (eq_sym Heq)). Qed.

Ltac key_neq :=
  first
    [ assumption
    | apply itemsKey_neq_filteredKey
    | apply not_eq_sym, itemsKey_neq_filteredKey
    | apply itemsKey_neq; cbn; discriminate
    | apply not_eq_sym, itemsKey_neq; cbn; discriminate
    | apply filteredKey_neq; intros ?; discriminate
    | apply not_eq_sym, filteredKey_neq; intros ?; discriminate
    | discriminate ].

(** *** The filter function *)

Lemma runFilterFunction_derives (entityName : string) :
  filterIsDerived entityName →
  derivesFilteredView entityName (runFilterFunction methods entityName).
Proof.
  intros Hf w. unfold runFilterFunction, bind, getState.
  destruct (methods !! filterFunctionKey entityName) as [f|] eqn:Hm.
  - apply (Hf f Hm).
  - exists w. repeat split; reflexivity.
Qed.

(** Writing the collection and then running the filter function leaves
    the new collection in place and touches no field besides the
    collection and the filtered view. *)
Lemma set_items_then_filter (entityName : string) (items : list T)
    (also : list (string * Value)) (w : World) :
  filterIsDerived entityName →
  (∀ kv, kv ∈ also → kv.1 = filteredKey entityName) →
  ∃ w', bind (setState ((itemsKey entityName, VItems items) :: also))
             (λ _, runFilterFunction methods entityName) w = (Normal tt, w')
        ∧ store w' !! itemsKey entityName = Some (VItems items)
        ∧ (∀ k, k ≠ itemsKey entityName → k ≠ filteredKey entityName →
                store w' !! k = store w !! k)
        ∧ calls w' = calls w.
Proof.
  intros Hf Halso. unfold bind. cbn [setState].
  destruct (runFilterFunction_derives entityName Hf
              (mkWorld (merge ((itemsKey entityName, VItems items) :: also) (store w))
                       (notifications w) (calls w) (clock w)))
    as (w' & -> & Hkeep & Hcalls).
  exists w'. split; [reflexivity|]. cbn [store calls] in Hkeep, Hcalls.
  assert (Hother : ∀ k, k ≠ filteredKey entityName →
            merge also (<[itemsKey entityName := VItems items]> (store w)) !! k
            = <[itemsKey entityName := VItems items]> (store w) !! k).
  { intros k Hk. apply merge_lookup_other. intros Hin.
    apply list_elem_of_fmap in Hin as ([k' v] & -> & Hin).
    apply Hk. exact (Halso _ Hin). }
  repeat split.
  - rewrite Hkeep by key_neq. rewrite merge_cons, Hother by key_neq.
    apply lookup_insert_eq.
  - intros k Hk1 Hk2. rewrite Hkeep by exact Hk2.
    rewrite merge_cons, Hother by exact Hk2.
    apply lookup_insert_ne. congruence.
  - exact Hcalls.
Qed.

Lemma update_items_then_filter (entityName : string) (old : list T)
    (g : list T → list T) (w : World) :
  filterIsDerived entityName →
  store w !! itemsKey entityName = Some (VItems old) →
  ∃ w', bind (setStateWith (λ state,
                match asItems state (itemsKey entityName) with
                | Normal items => Normal [(itemsKey entityName, VItems (g items))]
                | Abrupt e => Abrupt e
                end))
             (λ _, runFilterFunction methods entityName) w = (Normal tt, w')
        ∧ store w' !! itemsKey entityName = Some (VItems (g old))
        ∧ (∀ k, k ≠ itemsKey entityName → k ≠ filteredKey entityName →
                store w' !! k = store w !! k)
        ∧ calls w' = calls w.
Proof.
  intros Hf Hold.
  destruct (set_items_then_filter entityName (g old) [] w Hf) as (w' & Heq & Hrest).
  { intros kv Hkv. inversion Hkv. }
  exists w'. split; [|exact Hrest].
  rewrite <- Heq. unfold bind, setStateWith, asItems. rewrite Hold. reflexivity.
Qed.

(** *** Stepping through an action *)

Lemma returning_returns (body : Act (option bool)) (handler : JsError → Act unit)
    (partial : list (string * Value)) (w w1 : World) (b : bool) :
  body w = (Normal (Some b), w1) →
  returning body handler (setState partial) w
  = (Normal b, mkWorld (merge partial (store w1)) (notifications w1)
                       (calls w1) (clock w1)).
Proof.
  intros Hb. unfold returning, tryCatchFinally, bind. rewrite Hb. reflexivity.
Qed.

Lemma returning_throws (body : Act (option bool)) (handler : JsError → Act unit)
    (partial : list (string * Value)) (w w1 w2 : World) (e : JsError) :
  body w = (Abrupt e, w1) →
  handler e w1 = (Normal tt, w2) →
  returning body handler (setState partial) w
  = (Normal false, mkWorld (merge partial (store w2)) (notifications w2)
                           (calls w2) (clock w2)).
Proof.
  intros Hb Hh. unfold returning, tryCatchFinally, bind. rewrite Hb, Hh.
  reflexivity.
Qed.

Lemma await_resolves {D B} (call : ServiceCall) (op : list ServiceCall → Awaited D)
    (k : D → Act B) (w : World) (r : D) :
  op (calls w) = Resolves r →
  bind (await call op) k w
  = k r (mkWorld (store w) (notifications w) (calls w ++ [call]) (clock w)).
Proof. intros Hop. unfold bind, await. rewrite Hop. reflexivity. Qed.

Lemma bind_normal {A B} (m : Act A) (k : A → Act B) (w w1 : World) (a : A) :
  m w = (Normal a, w1) → bind m k w = k a w1.
Proof. intros Hm. unfold bind. rewrite Hm. reflexivity. Qed.

Lemma bind_abrupt {A B} (m : Act A) (k : A → Act B) (w w1 : World) (e : JsError) :
  m w = (Abrupt e, w1) → bind m k w = (Abrupt e, w1).
Proof. intros Hm. unfold bind. rewrite Hm. reflexivity. Qed.

Lemma merge_lookup_keep (partial : list (string * Value)) (s : Store)
    (k : string) (v : option Value) :
  s !! k = v → k ∉ partial.*1 → merge partial s !! k = v.
Proof. intros <- Hk. apply merge_lookup_other, Hk. Qed.

Ltac not_in_keys :=
  cbn; let H := fresh in
  intros H;
  repeat (apply elem_of_cons in H; destruct H as [H|H];
          [revert H; key_neq|]);
  apply elem_of_nil in H; destruct H.

(** *** Create *)

Lemma countId_cons_same (item : T) (items : list T) :
  countId id (id item) (item :: items) = S (countId id (id item) items).
Proof. unfold countId. cbn. rewrite String.eqb_refl. reflexivity. Qed.

Lemma countId_absent (i : string) (items : list T) :
  i ∉ ids id items → countId id i items = 0.
Proof.
  unfold countId, ids. induction items as [|x items IH]; intros Hi; [reflexivity|].
  cbn. destruct (String.eqb_spec (id x) i) as [Heq|Hne].
  - exfalso. apply Hi. cbn. rewrite Heq. left.
  - apply IH. intros Hin. apply Hi. cbn. right. exact Hin.
Qed.

(** C2, as the code has it.  When the service answers a create call
    with a record, the action returns [true] and the record is first in
    the collection, followed by the records that were there, in their
    order; the number of records carrying its identifier grows by one,
    so it is the only record with that identifier when no record of the
    collection carried the identifier before. *)
Theorem create_prepends
    (create : Payload → list ServiceCall → Awaited (ApiResponse T))
    (entityName : string) (payload : Payload) (w : World)
    (items : list T) (response : ApiResponse T) (item : T) :
  filterIsDerived entityName →
  store w !! itemsKey entityName = Some (VItems items) →
  create payload (calls w) = Resolves response →
  successData (handleApiResponse T response (Some "Success")
                 (Some (capitalize entityName +:+ " created successfully")))
  = Some item →
  ∃ w', createCreateAction handleApiResponse handleApiError methods
          create entityName payload w = (Normal true, w')
        ∧ store w' !! itemsKey entityName = Some (VItems (item :: items))
        ∧ countId id (id item) (item :: items) = S (countId id (id item) items)
        ∧ (id item ∉ ids id items → countId id (id item) (item :: items) = 1).
Proof.
  intros Hf Hitems Hcreate Hdata.
  unfold createCreateAction. unfold bind at 1. cbn [setState].
  set (w0 := mkWorld _ _ _ _).
  assert (Hitems0 : store w0 !! itemsKey entityName = Some (VItems items)).
  { apply merge_lookup_keep; [exact Hitems|not_in_keys]. }
  set (w1 := mkWorld (store w0) (notifications w0)
                     (calls w0 ++ [CallCreate payload]) (clock w0)).
  destruct (update_items_then_filter entityName items (cons item) w1 Hf Hitems0)
    as (w2 & Hrun & Hnew & _ & _).
  erewrite returning_returns.
  2:{ rewrite (await_resolves _ _ _ w0 response) by exact Hcreate.
      rewrite Hdata. fold w1.
      unfold handleCreateSuccess.
      erewrite bind_normal by exact Hrun. reflexivity. }
  eexists. split; [reflexivity|]. cbn [store]. split; [|split].
  - apply merge_lookup_keep; [exact Hnew|not_in_keys].
  - apply countId_cons_same.
  - intros Habsent. rewrite countId_cons_same, countId_absent by exact Habsent.
    reflexivity.
Qed.

(** *** Update and toggle *)

Lemma map_replacedInPlace (i : string) (item : T) (old : list T) :
  replacedInPlace i item old
    (map (λ x, if String.eqb (id x) i then item else x) old).
Proof.
  split; [apply length_map|].
  intros n x Hn.
  change (map ?f old) with (f <$> old).
  rewrite list_lookup_fmap, Hn. cbn.
  destruct (String.eqb_spec (id x) i); split; intros; congruence.
Qed.

(** C7. When the service answers an update call with a record, the
    update action returns [true] and the collection is the old one with
    the records of identifier [i] replaced in place by the returned
    record and all others unchanged.  The toggle action runs the same
    success handler: it returns [true] exactly when the collection field
    is not the field of its own busy flag, and then the collection has
    been replaced in place in the same way. *)
Theorem update_replaces_in_place
    (update toggleStatus : string → Payload → list ServiceCall → Awaited (ApiResponse T))
    (entityName i : string) (payload : Payload) (w : World)
    (items : list T) (response response' : ApiResponse T) (item item' : T) :
  filterIsDerived entityName →
  store w !! itemsKey entityName = Some (VItems items) →
  update i payload (calls w) = Resolves response →
  successData (handleApiResponse T response (Some "Success")
                 (Some (capitalize entityName +:+ " updated successfully")))
  = Some item →
  toggleStatus i payload (calls w) = Resolves response' →
  successData (handleApiResponse T response'
                 (Some (capitalize entityName +:+ " status updated successfully"))
                 None)
  = Some item' →
  (∃ w' new,
      createUpdateAction id handleApiResponse handleApiError methods
        update entityName i payload w = (Normal true, w')
      ∧ store w' !! itemsKey entityName = Some (VItems new)
      ∧ replacedInPlace i item items new)
  ∧ (∃ b w',
      createToggleStatusAction id handleApiResponse handleApiError methods
        toggleStatus entityName i payload w = (Normal b, w')
      ∧ (b = true ↔ itemsKey entityName ≠ "togglingStatus")
      ∧ (b = true →
         ∃ new, store w' !! itemsKey entityName = Some (VItems new)
                ∧ replacedInPlace i item' items new)).
Proof.
  intros Hf Hitems Hupdate Hdata Htoggle Hdata'. split.
  - unfold createUpdateAction. unfold bind at 1. cbn [setState].
    set (w0 := mkWorld _ _ _ _).
    assert (Hitems0 : store w0 !! itemsKey entityName = Some (VItems items)).
    { apply merge_lookup_keep; [exact Hitems|not_in_keys]. }
    set (w1 := mkWorld (store w0) (notifications w0)
                       (calls w0 ++ [CallUpdate i payload]) (clock w0)).
    destruct (update_items_then_filter entityName items
                (map (λ x, if String.eqb (id x) i then item else x)) w1 Hf Hitems0)
      as (w2 & Hrun & Hnew & _ & _).
    erewrite returning_returns.
    2:{ rewrite (await_resolves _ _ _ w0 response) by exact Hupdate.
        rewrite Hdata. fold w1. unfold handleUpdateSuccess.
        erewrite bind_normal by exact Hrun. reflexivity. }
    eexists _, _. split; [reflexivity|]. cbn [store]. split.
    + apply merge_lookup_keep; [exact Hnew|not_in_keys].
    + apply map_replacedInPlace.
  - unfold createToggleStatusAction. unfold bind at 1. cbn [setState].
    set (w0 := mkWorld _ _ _ _).
    set (w1 := mkWorld (store w0) (notifications w0)
                       (calls w0 ++ [CallToggleStatus i payload]) (clock w0)).
    destruct (decide (itemsKey entityName = "togglingStatus")) as [Hclash|Hfree].
    + (* the busy flag has overwritten the collection *)
      assert (Hflag : store w1 !! itemsKey entityName = Some (VBool true)).
      { rewrite Hclash. subst w1 w0. cbn [store].
        rewrite !merge_cons, merge_nil.
        rewrite lookup_insert_ne by discriminate. apply lookup_insert_eq. }
      destruct (handleActionError_normal (TypeError (itemsKey entityName))
                  entityName "toggle status" w1) as ([] & w2 & Hh).
      erewrite returning_throws.
      2:{ rewrite (await_resolves _ _ _ w0 response') by exact Htoggle.
          rewrite Hdata'. fold w1. unfold handleUpdateSuccess.
          erewrite bind_abrupt; [reflexivity|].
          erewrite bind_abrupt; [reflexivity|].
          unfold setStateWith, asItems. rewrite Hflag. reflexivity. }
      2:{ exact Hh. }
      eexists _, _. split; [reflexivity|]. split.
      * split; [discriminate|]. intros Hne. destruct (Hne Hclash).
      * discriminate.
    + assert (Hitems0 : store w0 !! itemsKey entityName = Some (VItems items)).
      { apply merge_lookup_keep; [exact Hitems|not_in_keys]. }
      destruct (update_items_then_filter entityName items
                  (map (λ x, if String.eqb (id x) i then item' else x)) w1 Hf Hitems0)
        as (w2 & Hrun & Hnew & _ & _).
      erewrite returning_returns.
      2:{ rewrite (await_resolves _ _ _ w0 response') by exact Htoggle.
          rewrite Hdata'. fold w1. unfold handleUpdateSuccess.
          erewrite bind_normal by exact Hrun. reflexivity. }
      eexists _, _. split; [reflexivity|]. split; [tauto|].
      intros _. eexists. cbn [store]. split.
      * apply merge_lookup_keep; [exact Hnew|not_in_keys].
      * apply map_replacedInPlace.
Qed.

(** *** Delete *)

Lemma withoutId_absent (i : string) (items : list T) :
  i ∉ ids id (withoutId i items).
Proof.
  unfold ids, withoutId. induction items as [|x items IH]; cbn; [apply not_elem_of_nil|].
  destruct (String.eqb_spec (id x) i) as [Heq|Hne]; cbn; [exact IH|].
  intros Hin. apply elem_of_cons in Hin as [Hin|Hin]; [congruence|exact (IH Hin)].
Qed.

Lemma withoutId_id (i : string) (items : list T) :
  i ∉ ids id items → withoutId i items = items.
Proof.
  unfold ids, withoutId. induction items as [|x items IH]; cbn; intros Hi; [reflexivity|].
  destruct (String.eqb_spec (id x) i) as [Heq|Hne]; cbn.
  - exfalso. apply Hi. rewrite Heq. left.
  - f_equal. apply IH. intros Hin. apply Hi. right. exact Hin.
Qed.

Lemma withoutId_length (i : string) (items : list T) :
  i ∈ ids id items → NoDup (ids id items) →
  S (length (withoutId i items)) = length items.
Proof.
  unfold ids. induction items as [|x items IH]; cbn; intros Hin Hnd.
  - inversion Hin.
  - apply NoDup_cons in Hnd as [Hx Hnd].
    unfold withoutId. cbn.
    destruct (String.eqb_spec (id x) i) as [Heq|Hne]; cbn.
    + f_equal. fold (withoutId i items). rewrite withoutId_id; [reflexivity|].
      rewrite <- Heq. exact Hx.
    + f_equal. apply IH; [|exact Hnd].
      apply elem_of_cons in Hin as [Hin|Hin]; [congruence|exact Hin].
Qed.

Lemma withoutId_sublist (i : string) (items : list T) :
  sublist (withoutId i items) items.
Proof.
  unfold withoutId. induction items as [|x items IH]; cbn; [constructor|].
  destruct (negb (String.eqb (id x) i)); constructor; exact IH.
Qed.

Lemma withoutId_keeps (i : string) (items : list T) (x : T) :
  x ∈ items → id x ≠ i → x ∈ withoutId i items.
Proof.
  unfold withoutId. induction items as [|y items IH]; cbn; intros Hin Hne.
  - inversion Hin.
  - apply elem_of_cons in Hin as [<-|Hin].
    + destruct (String.eqb_spec (id x) i); [congruence|]. cbn. left.
    + destruct (negb (String.eqb (id y) i)); [right|]; apply IH; assumption.
Qed.

(** C8. When the service answers a delete call with success, the action
    returns [true] and the collection is the old one without the
    records of identifier [i]: no record with that identifier remains;
    the remaining records are the other records, in their order; and
    when [i] was present and the identifiers were unique, the
    collection is shorter by exactly one record. *)
Theorem delete_removes
    (delete : string → list ServiceCall → Awaited (ApiResponse unit))
    (entityName i : string) (w : World)
    (items : list T) (response : ApiResponse unit) :
  filterIsDerived entityName →
  store w !! itemsKey entityName = Some (VItems items) →
  delete i (calls w) = Resolves response →
  success (handleApiResponse unit response (Some "Success")
             (Some (capitalize entityName +:+ " deleted successfully")))
  = true →
  ∃ w' kept,
    createDeleteAction id handleApiResponse handleApiError methods
      delete entityName i w = (Normal true, w')
    ∧ store w' !! itemsKey entityName = Some (VItems kept)
    ∧ (i ∉ ids id kept)
    ∧ kept = List.filter (λ x, negb (String.eqb (id x) i)) items
    ∧ sublist kept items
    ∧ (∀ x, x ∈ items → id x ≠ i → x ∈ kept)
    ∧ (i ∈ ids id items → NoDup (ids id items) → S (length kept) = length items).
Proof.
  intros Hf Hitems Hdelete Hsuccess.
  unfold createDeleteAction. unfold bind at 1. cbn [setState].
  set (w0 := mkWorld _ _ _ _).
  assert (Hitems0 : store w0 !! itemsKey entityName = Some (VItems items)).
  { apply merge_lookup_keep; [exact Hitems|not_in_keys]. }
  set (w1 := mkWorld (store w0) (notifications w0)
                     (calls w0 ++ [CallDelete i]) (clock w0)).
  destruct (update_items_then_filter entityName items (withoutId i) w1 Hf Hitems0)
    as (w2 & Hrun & Hnew & _ & _).
  erewrite returning_returns.
  2:{ rewrite (await_resolves _ _ _ w0 response) by exact Hdelete.
      rewrite Hsuccess. fold w1. unfold handleDeleteSuccess.
      erewrite bind_normal by exact Hrun. reflexivity. }
  exists (mkWorld (merge [("deleting", VBool false)] (store w2))
                  (notifications w2) (calls w2) (clock w2)), (withoutId i items).
  split; [reflexivity|]. cbn [store]. split.
  { apply merge_lookup_keep; [exact Hnew|not_in_keys]. }
  split; [apply withoutId_absent|].
  split; [reflexivity|].
  split; [apply withoutId_sublist|].
  split; [apply withoutId_keeps|apply withoutId_length].
Qed.

(** *** Fetch by semester *)

Lemma tryCatchFinally_returns {A} (body : Act A) (handler : JsError → Act A)
    (partial : list (string * Value)) (w w1 : World) (a : A) :
  body w = (Normal a, w1) →
  tryCatchFinally body handler (setState partial) w
  = (Normal a, mkWorld (merge partial (store w1)) (notifications w1)
                       (calls w1) (clock w1)).
Proof. intros Hb. unfold tryCatchFinally. rewrite Hb. reflexivity. Qed.

(** The cache test at the head of the action. *)
Lemma cache_check {B} (semesterId : string) (force : bool)
    (k : bool → Act B) (w : World) :
  bind (if negb force
        then bind getState (λ s, ret (hasCachedSemester s semesterId))
        else ret false) k w
  = k (negb force && hasCachedSemester (store w) semesterId) w.
Proof. destruct force; reflexivity. Qed.

Lemma fetchBySemester_populates
    (findAllBySemester : string → list ServiceCall → Awaited (ApiResponse (list T)))
    (entityName semesterId : string) (force : bool) (w : World)
    (response : ApiResponse (list T)) (items : list T) :
  filterIsDerived entityName →
  negb force && hasCachedSemester (store w) semesterId = false →
  findAllBySemester semesterId (calls w) = Resolves response →
  fetchedItems (handleApiResponse (list T) response None None) = Some items →
  ∃ w', createFetchBySemesterAction handleApiResponse handleApiError methods
          findAllBySemester entityName semesterId force w = (Normal tt, w')
        ∧ store w' !! itemsKey entityName = Some (VItems items)
        ∧ store w' !! "lastSemesterId" = Some (VStr semesterId)
        ∧ store w' !! "lastError" = Some VNull
        ∧ calls w' = calls w ++ [CallFindAllBySemester semesterId].
Proof.
  intros Hf Hmiss Hfind Hfetched.
  unfold createFetchBySemesterAction. rewrite cache_check, Hmiss.
  unfold bind at 1. cbn [setState].
  set (w0 := mkWorld _ _ _ _).
  set (w1 := mkWorld (store w0) (notifications w0)
                     (calls w0 ++ [CallFindAllBySemester semesterId]) (clock w0)).
  destruct (set_items_then_filter entityName items
              [(filteredKey entityName, VItems items)] w1 Hf)
    as (w2 & Hrun & Hnew & Hkeep & Hcalls).
  { intros kv Hkv. apply list_elem_of_singleton in Hkv as ->. reflexivity. }
  assert (Hbody : ∀ handler,
    tryCatchFinally
      (bind (await (CallFindAllBySemester semesterId) (findAllBySemester semesterId))
         (λ response,
            match successData (handleApiResponse (list T) response None None) with
            | Some items =>
                bind (handleFetchSuccess methods items entityName)
                  (λ _, setState [("lastSemesterId", VStr semesterId)])
            | None =>
                match error (handleApiResponse (list T) response None None) with
                | Some e =>
                    if isEnrollmentStateConflict e
                    then bind (handleFetchSuccess methods [] entityName)
                           (λ _, setState [("lastSemesterId", VStr semesterId)])
                    else handleResultError e
                | None => ret tt
                end
            end))
      handler (setState [("loading", VBool false)]) w0
    = (Normal tt,
       mkWorld (merge [("loading", VBool false)]
                  (merge [("lastSemesterId", VStr semesterId)] (store w2)))
               (notifications w2) (calls w2) (clock w2))).
  { intros handler.
    apply (tryCatchFinally_returns _ _ _ w0
             (mkWorld (merge [("lastSemesterId", VStr semesterId)] (store w2))
                      (notifications w2) (calls w2) (clock w2)) tt).
    rewrite (await_resolves _ _ _ w0 response) by exact Hfind. fold w1.
    unfold fetchedItems in Hfetched.
    destruct (successData (handleApiResponse (list T) response None None))
      as [items'|].
    - injection Hfetched as ->. unfold handleFetchSuccess.
      erewrite bind_normal by exact Hrun. reflexivity.
    - destruct (error (handleApiResponse (list T) response None None)) as [e|];
        [|discriminate].
      destruct (isEnrollmentStateConflict e); [|discriminate].
      injection Hfetched as <-. unfold handleFetchSuccess.
      erewrite bind_normal by exact Hrun. reflexivity. }
  unfold bind. rewrite Hbody.
  eexists. split; [reflexivity|]. cbn [store calls].
  split; [|split; [|split]].
  - apply merge_lookup_keep; [|not_in_keys].
    apply merge_lookup_keep; [exact Hnew|not_in_keys].
  - apply merge_lookup_keep; [|not_in_keys].
    rewrite merge_cons, merge_nil. apply lookup_insert_eq.
  - apply merge_lookup_keep; [|not_in_keys].
    apply merge_lookup_keep; [|not_in_keys].
    rewrite Hkeep by key_neq. subst w1 w0. cbn [store].
    rewrite !merge_cons, merge_nil. apply lookup_insert_eq.
  - rewrite Hcalls. reflexivity.
Qed.

Lemma includes_empty (needle : string) :
  needle ≠ "" → includes "" needle = false.
Proof. destruct needle; [congruence|reflexivity]. Qed.

(** The test of the source, [statusCode === 409 && message && (...)],
    says: the status is 409 and the message contains one of the three
    recognized patterns. *)
Lemma isEnrollmentStateConflict_spec (e : ApiError) :
  isEnrollmentStateConflict e = true ↔
  statusCode e = 409
  ∧ (includes (message e) "NotYet" = true
     ∨ includes (message e) "End" = true
     ∨ includes (message e) "semesters allow student enrollment" = true).
Proof.
  unfold isEnrollmentStateConflict.
  rewrite !andb_true_iff, !orb_true_iff, Nat.eqb_eq, negb_true_iff.
  split.
  - intros [[Hs _] Hp]. split; [exact Hs|tauto].
  - intros [Hs Hp]. repeat split; [exact Hs| |tauto].
    destruct (String.eqb_spec (message e) "") as [Hm|]; [|reflexivity].
    rewrite Hm in Hp. cbn in Hp. destruct Hp as [?|[?|?]]; discriminate.
Qed.

(** C4. A fetch by semester that reaches the service and is answered
    with an error result ends in one of two ways.  When the status is
    409 and the message contains a recognized pattern ("NotYet", "End"
    or "semesters allow student enrollment"), the collection is empty,
    the remembered semester is the requested one and the error slot
    holds [null].  For every other error result the error slot holds the
    error state built from that error, and the collection and the
    remembered semester are as they were. *)
Theorem conflict_downgraded_else_error
    (findAllBySemester : string → list ServiceCall → Awaited (ApiResponse (list T)))
    (entityName semesterId : string) (force : bool) (w : World)
    (response : ApiResponse (list T)) (e : ApiError) :
  filterIsDerived entityName →
  negb force && hasCachedSemester (store w) semesterId = false →
  findAllBySemester semesterId (calls w) = Resolves response →
  successData (handleApiResponse (list T) response None None) = None →
  error (handleApiResponse (list T) response None None) = Some e →
  ∃ w', createFetchBySemesterAction handleApiResponse handleApiError methods
          findAllBySemester entityName semesterId force w = (Normal tt, w')
     ∧ (statusCode e = 409
        ∧ (includes (message e) "NotYet" = true
           ∨ includes (message e) "End" = true
           ∨ includes (message e) "semesters allow student enrollment" = true) →
        store w' !! itemsKey entityName = Some (VItems [])
        ∧ store w' !! "lastSemesterId" = Some (VStr semesterId)
        ∧ store w' !! "lastError" = Some VNull)
     ∧ (¬ (statusCode e = 409
           ∧ (includes (message e) "NotYet" = true
              ∨ includes (message e) "End" = true
              ∨ includes (message e) "semesters allow student enrollment" = true)) →
        store w' !! "lastError"
        = Some (VErrorState {| es_message := message e;
                               es_statusCode := statusCode e;
                               es_timestamp := clock w |})
        ∧ store w' !! itemsKey entityName = store w !! itemsKey entityName
        ∧ store w' !! "lastSemesterId" = store w !! "lastSemesterId").
Proof.
  intros Hf Hmiss Hfind Hnodata Herror.
  destruct (isEnrollmentStateConflict e) eqn:Hconflict.
  - destruct (fetchBySemester_populates findAllBySemester entityName semesterId
                force w response [] Hf Hmiss Hfind)
      as (w' & Hrun & Hitems & Hsem & Herr & _).
    { unfold fetchedItems. rewrite Hnodata, Herror, Hconflict. reflexivity. }
    exists w'. split; [exact Hrun|]. split; [tauto|].
    intros Hnot. exfalso. apply Hnot.
    apply isEnrollmentStateConflict_spec, Hconflict.
  - unfold createFetchBySemesterAction. rewrite cache_check, Hmiss.
    unfold bind at 1. cbn [setState].
    set (w0 := mkWorld _ _ _ _).
    unfold bind at 1.
    erewrite tryCatchFinally_returns.
    2:{ rewrite (await_resolves _ _ _ w0 response) by exact Hfind.
        rewrite Hnodata, Herror, Hconflict. reflexivity. }
    eexists. split; [reflexivity|]. cbn [store]. split.
    + intros Hyes. apply isEnrollmentStateConflict_spec in Hyes. congruence.
    + intros _. split; [|split].
      * apply merge_lookup_keep; [|not_in_keys].
        rewrite merge_cons, merge_nil. apply lookup_insert_eq.
      * apply merge_lookup_keep; [|not_in_keys].
        apply merge_lookup_keep; [|not_in_keys].
        subst w0. cbn [store]. apply merge_lookup_keep; [reflexivity|not_in_keys].
      * apply merge_lookup_keep; [|not_in_keys].
        apply merge_lookup_keep; [|not_in_keys].
        subst w0. cbn [store]. apply merge_lookup_keep; [reflexivity|not_in_keys].
Qed.

(** C3, as the code has it.  In the student store, a first
    [fetch-by-parent(p, force = false)] that reaches the service and is
    answered with records, or with the recognized conflict, issues one
    call; a second one right after it returns at once, with no call
    and the world as the first one left it. *)
Theorem second_fetch_is_cached
    (findAllBySemester : string → list ServiceCall → Awaited (ApiResponse (list T)))
    (semesterId : string) (w : World)
    (response : ApiResponse (list T)) (items : list T) :
  filterIsDerived "student" →
  hasCachedSemester (store w) semesterId = false →
  findAllBySemester semesterId (calls w) = Resolves response →
  fetchedItems (handleApiResponse (list T) response None None) = Some items →
  ∃ w1, createFetchBySemesterAction handleApiResponse handleApiError methods
          findAllBySemester "student" semesterId false w = (Normal tt, w1)
        ∧ calls w1 = calls w ++ [CallFindAllBySemester semesterId]
        ∧ createFetchBySemesterAction handleApiResponse handleApiError methods
            findAllBySemester "student" semesterId false w1 = (Normal tt, w1).
Proof.
  intros Hf Hmiss Hfind Hfetched.
  destruct (fetchBySemester_populates findAllBySemester "student" semesterId
              false w response items Hf Hmiss Hfind Hfetched)
    as (w1 & Hrun & Hitems & Hsem & _ & Hcalls).
  exists w1. split; [exact Hrun|]. split; [exact Hcalls|].
  unfold createFetchBySemesterAction. rewrite cache_check.
  change (itemsKey "student") with "students" in Hitems.
  unfold hasCachedSemester. rewrite Hitems, Hsem. cbn.
  rewrite String.eqb_refl. reflexivity.
Qed.

(** *** Busy flags *)

(** C9. Every factory-generated action completes, whatever the service
    does (success, normalized error, neither, or a throw) and whatever the
    filter function does, and when it completes each busy flag it set at
    its start holds [false].  The fetch-by-semester action either leaves
    the world untouched (the cached semester is requested again without
    [force], so no flag was set) or ends with [loading] cleared. *)
Theorem busy_flags_cleared
    (findAll : list ServiceCall → Awaited (ApiResponse (list T)))
    (findAllBySemester : string → list ServiceCall → Awaited (ApiResponse (list T)))
    (create : Payload → list ServiceCall → Awaited (ApiResponse T))
    (createMany : Payload → list ServiceCall → Awaited (ApiResponse (list T)))
    (update toggleStatus : string → Payload → list ServiceCall → Awaited (ApiResponse T))
    (delete : string → list ServiceCall → Awaited (ApiResponse unit))
    (entityName semesterId i : string) (force : bool) (payload : Payload)
    (w : World) :
  endsCleared "loading"
    (createFetchAction handleApiResponse handleApiError methods findAll entityName) w
  ∧ (createFetchBySemesterAction handleApiResponse handleApiError methods
       findAllBySemester entityName semesterId force w = (Normal tt, w)
     ∨ endsCleared "loading"
         (createFetchBySemesterAction handleApiResponse handleApiError methods
            findAllBySemester entityName semesterId force) w)
  ∧ endsCleared "creating"
      (createCreateAction handleApiResponse handleApiError methods
         create entityName payload) w
  ∧ endsCleared "creatingMany"
      (createBatchCreateAction handleApiResponse handleApiError methods
         createMany entityName payload) w
  ∧ endsCleared (creatingManyKey entityName)
      (createBatchCreateAction handleApiResponse handleApiError methods
         createMany entityName payload) w
  ∧ endsCleared "updating"
      (createUpdateAction id handleApiResponse handleApiError methods
         update entityName i payload) w
  ∧ endsCleared "deleting"
      (createDeleteAction id handleApiResponse handleApiError methods
         delete entityName i) w
  ∧ endsCleared "togglingStatus"
      (createToggleStatusAction id handleApiResponse handleApiError methods
         toggleStatus entityName i payload) w.
Proof.
  repeat split;
    try (apply set_then_returning_cleared; flag_side);
    try (apply set_then_try_cleared; flag_side).
  unfold createFetchBySemesterAction.
  destruct (negb force && hasCachedSemester (store w) semesterId) eqn:Hc.
  - left. destruct force; [discriminate|]. cbn in Hc.
    unfold bind at 1. cbn. rewrite Hc. reflexivity.
  - right.
    assert (Hcached : ∀ k : bool → Act unit,
      bind (if negb force
            then bind getState (λ s, ret (hasCachedSemester s semesterId))
            else ret false) k w = k false w).
    { intros k. destruct force; [reflexivity|]. cbn in Hc.
      unfold bind, getState, ret. cbn. rewrite Hc. reflexivity. }
    unfold endsCleared. rewrite Hcached.
    apply set_then_try_cleared; flag_side.
Qed.

(** *** Failures leave the data alone *)

Lemma itemsKey_neq_creatingManyKey (entityName : string) :
  itemsKey entityName ≠ creatingManyKey entityName.
Proof.
  intros Heq. apply (f_equal String.length) in Heq.
  unfold itemsKey, creatingManyKey in Heq.
  rewrite !app_length, capitalize_length in Heq. cbn in Heq. lia.
Qed.

Lemma creatingManyKey_prefix (entityName k : string) :
  (∀ rest, k ≠ String "c" rest) → creatingManyKey entityName ≠ k.
Proof. intros Hk Heq. apply (Hk _ (eq_sym Heq)). Qed.

Lemma returning_falls_through (body : Act (option bool)) (handler : JsError → Act unit)
    (partial : list (string * Value)) (w w1 : World) :
  body w = (Normal None, w1) →
  returning body handler (setState partial) w
  = (Normal false, mkWorld (merge partial (store w1)) (notifications w1)
                           (calls w1) (clock w1)).
Proof.
  intros Hb. unfold returning, tryCatchFinally, bind. rewrite Hb. reflexivity.
Qed.

Lemma await_rejects {D B} (call : ServiceCall) (op : list ServiceCall → Awaited D)
    (k : D → Act B) (w : World) (e : JsError) :
  op (calls w) = RejectsWith e →
  bind (await call op) k w
  = (Abrupt e, mkWorld (store w) (notifications w) (calls w ++ [call]) (clock w)).
Proof. intros Hop. unfold bind, await. rewrite Hop. reflexivity. Qed.

Lemma lowered_keys (flags : list string) : (lowered (T:=T) flags).*1 = flags.
Proof. unfold lowered. induction flags as [|f flags IH]; cbn; congruence. Qed.

Lemma raised_keys (flags : list string) :
  (raised (T:=T) flags).*1 = flags ++ ["lastError"].
Proof.
  unfold raised. rewrite fmap_app. cbn. f_equal.
  induction flags as [|f flags IH]; cbn; congruence.
Qed.

Lemma lowered_lookup (flags : list string) (s : Store) (flag : string) :
  flag ∈ flags → merge (lowered flags) s !! flag = Some (VBool false).
Proof.
  intros Hin. apply merge_lookup_all.
  - rewrite lowered_keys. exact Hin.
  - intros kv Hkv. unfold lowered in Hkv.
    apply list_elem_of_fmap in Hkv as (f & -> & _). reflexivity.
Qed.

(** The store an action leaves when it raised its flags, wrote [mid]
    into the error slot (or nothing) and lowered its flags. *)
Lemma untouched_store (flags : list string) (mid : list (string * Value))
    (slot : Value) (s : Store) :
  "lastError" ∉ flags →
  mid = [("lastError", slot)] ∨ (mid = [] ∧ slot = VNull) →
  let s' := merge (lowered flags) (merge mid (merge (raised flags) s)) in
  s' !! "lastError" = Some slot
  ∧ (∀ flag, flag ∈ flags → s' !! flag = Some (VBool false))
  ∧ (∀ k, k ≠ "lastError" → k ∉ flags → s' !! k = s !! k).
Proof.
  intros Hflags Hmid s'. subst s'. split; [|split].
  - rewrite merge_lookup_other by (rewrite lowered_keys; exact Hflags).
    destruct Hmid as [->|[-> ->]].
    + rewrite merge_cons, merge_nil. apply lookup_insert_eq.
    + rewrite merge_nil. unfold raised, merge. rewrite foldl_app. cbn.
      apply lookup_insert_eq.
  - intros flag Hin. apply lowered_lookup, Hin.
  - intros k Hk Hnot.
    rewrite merge_lookup_other by (rewrite lowered_keys; exact Hnot).
    assert (Hmidk : merge mid (merge (raised flags) s) !! k
                    = merge (raised flags) s !! k).
    { destruct Hmid as [->|[-> _]]; [|reflexivity].
      rewrite merge_cons, merge_nil. apply lookup_insert_ne. congruence. }
    rewrite Hmidk. apply merge_lookup_other. rewrite raised_keys.
    intros Hin. apply elem_of_app in Hin as [Hin|Hin]; [exact (Hnot Hin)|].
    apply list_elem_of_singleton in Hin. exact (Hk Hin).
Qed.

Lemma endsUntouched_intro {A} (flags : list string) (call : ServiceCall)
    (mid : list (string * Value)) (slot : Value) (shown : list Notification)
    (result : A) (m : Act A) (w : World) :
  "lastError" ∉ flags →
  mid = [("lastError", slot)] ∨ (mid = [] ∧ slot = VNull) →
  m w = (Normal result,
         mkWorld (merge (lowered flags) (merge mid (merge (raised flags) (store w))))
                 (notifications w ++ shown) (calls w ++ [call]) (clock w)) →
  endsUntouched flags call slot shown result m w.
Proof.
  intros Hflags Hmid Hm.
  destruct (untouched_store flags mid slot (store w) Hflags Hmid) as (H1 & H2 & H3).
  eexists. split; [exact Hm|]. cbn [store notifications calls].
  repeat split; assumption.
Qed.

Lemma returned (body : Act (option bool)) (handler : JsError → Act unit)
    (partial : list (string * Value)) (w : World) (b : bool)
    (s : Store) (n : list Notification) (c : list ServiceCall) (t : nat) :
  body w = (Normal (Some b), mkWorld s n c t) →
  returning body handler (setState partial) w
  = (Normal b, mkWorld (merge partial s) n c t).
Proof. apply returning_returns. Qed.

Lemma fell_through (body : Act (option bool)) (handler : JsError → Act unit)
    (partial : list (string * Value)) (w : World)
    (s : Store) (n : list Notification) (c : list ServiceCall) (t : nat) :
  body w = (Normal None, mkWorld s n c t) →
  returning body handler (setState partial) w
  = (Normal false, mkWorld (merge partial s) n c t).
Proof. apply returning_falls_through. Qed.

Lemma caught (body : Act (option bool)) (handler : JsError → Act unit)
    (partial : list (string * Value)) (w w1 : World) (e : JsError)
    (s : Store) (n : list Notification) (c : list ServiceCall) (t : nat) :
  body w = (Abrupt e, w1) →
  handler e w1 = (Normal tt, mkWorld s n c t) →
  returning body handler (setState partial) w
  = (Normal false, mkWorld (merge partial s) n c t).
Proof. apply returning_throws. Qed.

Ltac flags_free :=
  let H := fresh in
  intros H; cbn in H;
  repeat (apply elem_of_cons in H; destruct H as [H|H];
          [first [discriminate H
                 | exact (creatingManyKey_prefix _ _ ltac:(intros ?; discriminate)
                            (eq_sym H))]|]);
  apply elem_of_nil in H; destruct H.

(** X1. When the service answers a create call, or a batch create
    call, with an error result, the action returns [false], records the
    error in the error slot, shows one notification whose title is the
    category of the status (400, 409, 422, or "Error <status>"), clears
    its busy flags and changes no other field: the collection and the
    filtered view are as they were. *)
Theorem create_error_result_is_reported
    (create : Payload → list ServiceCall → Awaited (ApiResponse T))
    (createMany : Payload → list ServiceCall → Awaited (ApiResponse (list T)))
    (entityName : string) (payload : Payload) (w : World)
    (result : ApiResult T) (results : ApiResult (list T)) (e : ApiError) :
  answeredWith (create payload) (Some "Success")
    (Some (capitalize entityName +:+ " created successfully")) w result →
  successData result = None → error result = Some e →
  answeredWith (createMany payload) (Some "Import Successfully")
    (Some ("List " +:+ entityName +:+ "s have been imported successfully."))
    w results →
  successData results = None → error results = Some e →
  endsUntouched ["creating"] (CallCreate payload)
    (VErrorState (errorStateAt w e))
    [{| n_title := getErrorTitle (statusCode e); n_description := message e |}]
    false
    (createCreateAction handleApiResponse handleApiError methods
       create entityName payload) w
  ∧ endsUntouched ["creatingMany"; creatingManyKey entityName]
      (CallCreateMany payload)
      (VErrorState (errorStateAt w e))
      [{| n_title := getErrorTitle (statusCode e); n_description := message e |}]
      false
      (createBatchCreateAction handleApiResponse handleApiError methods
         createMany entityName payload) w.
Proof.
  intros (response & Hop & Hres) Hdata Herr (responses & Hops & Hress) Hdatas Herrs.
  split.
  - apply (endsUntouched_intro ["creating"] _
             [("lastError", VErrorState (errorStateAt w e))]);
      [flags_free|left; reflexivity|].
    unfold createCreateAction. unfold bind at 1. cbn [setState].
    erewrite returned; [reflexivity|].
    erewrite await_resolves by exact Hop. cbn beta.
    rewrite Hres, Hdata, Herr. unfold handleCreateError. rewrite Herr. reflexivity.
  - apply (endsUntouched_intro ["creatingMany"; creatingManyKey entityName] _
             [("lastError", VErrorState (errorStateAt w e))]);
      [flags_free|left; reflexivity|].
    unfold createBatchCreateAction. unfold bind at 1. cbn [setState].
    erewrite returned; [reflexivity|].
    erewrite await_resolves by exact Hops. cbn beta.
    rewrite Hress, Hdatas, Herrs. unfold handleCreateError. rewrite Herrs.
    reflexivity.
Qed.

(** X2. When the service answers an update, a delete or a toggle call
    with an error result, the action returns [false], records the error
    in the error slot, shows one notification titled "Error", clears
    its busy flag and changes no other field. *)
Theorem update_error_result_is_reported
    (update toggleStatus : string → Payload → list ServiceCall → Awaited (ApiResponse T))
    (delete : string → list ServiceCall → Awaited (ApiResponse unit))
    (entityName i : string) (payload : Payload) (w : World)
    (updated toggled : ApiResult T) (deleted : ApiResult unit) (e : ApiError) :
  answeredWith (update i payload) (Some "Success")
    (Some (capitalize entityName +:+ " updated successfully")) w updated →
  successData updated = None → error updated = Some e →
  answeredWith (toggleStatus i payload)
    (Some (capitalize entityName +:+ " status updated successfully")) None
    w toggled →
  successData toggled = None → error toggled = Some e →
  answeredWith (delete i) (Some "Success")
    (Some (capitalize entityName +:+ " deleted successfully")) w deleted →
  success deleted = false → error deleted = Some e →
  endsUntouched ["updating"] (CallUpdate i payload)
    (VErrorState (errorStateAt w e))
    [{| n_title := "Error"; n_description := message e |}] false
    (createUpdateAction id handleApiResponse handleApiError methods
       update entityName i payload) w
  ∧ endsUntouched ["togglingStatus"] (CallToggleStatus i payload)
      (VErrorState (errorStateAt w e))
      [{| n_title := "Error"; n_description := message e |}] false
      (createToggleStatusAction id handleApiResponse handleApiError methods
         toggleStatus entityName i payload) w
  ∧ endsUntouched ["deleting"] (CallDelete i)
      (VErrorState (errorStateAt w e))
      [{| n_title := "Error"; n_description := message e |}] false
      (createDeleteAction id handleApiResponse handleApiError methods
         delete entityName i) w.
Proof.
  intros (ru & Hu & Hru) Hdu Heu (rt & Ht & Hrt) Hdt Het (rd & Hd & Hrd) Hsd Hed.
  split; [|split].
  - apply (endsUntouched_intro ["updating"] _
             [("lastError", VErrorState (errorStateAt w e))]);
      [flags_free|left; reflexivity|].
    unfold createUpdateAction. unfold bind at 1. cbn [setState].
    erewrite returned; [reflexivity|].
    erewrite await_resolves by exact Hu. cbn beta.
    rewrite Hru, Hdu, Heu. reflexivity.
  - apply (endsUntouched_intro ["togglingStatus"] _
             [("lastError", VErrorState (errorStateAt w e))]);
      [flags_free|left; reflexivity|].
    unfold createToggleStatusAction. unfold bind at 1. cbn [setState].
    erewrite returned; [reflexivity|].
    erewrite await_resolves by exact Ht. cbn beta.
    rewrite Hrt, Hdt, Het. reflexivity.
  - apply (endsUntouched_intro ["deleting"] _
             [("lastError", VErrorState (errorStateAt w e))]);
      [flags_free|left; reflexivity|].
    unfold createDeleteAction. unfold bind at 1. cbn [setState].
    erewrite returned; [reflexivity|].
    erewrite await_resolves by exact Hd. cbn beta.
    rewrite Hrd, Hsd, Hed. reflexivity.
Qed.

(** X3. When the answer of the service carries neither usable data
    nor an error (for delete: no success and no error), a mutating
    action returns [false] without a notification: the error slot holds
    [null], the busy flags are cleared and no other field changes. *)
Theorem empty_answer_fails_silently
    (created updated toggled : ApiResult T) (imported : ApiResult (list T))
    (deleted : ApiResult unit)
    (opCreate : Payload → list ServiceCall → Awaited (ApiResponse T))
    (opCreateMany : Payload → list ServiceCall → Awaited (ApiResponse (list T)))
    (opUpdate opToggle : string → Payload → list ServiceCall → Awaited (ApiResponse T))
    (opDelete : string → list ServiceCall → Awaited (ApiResponse unit))
    (entityName i : string) (payload : Payload) (w : World) :
  answeredWith (opCreate payload) (Some "Success")
    (Some (capitalize entityName +:+ " created successfully")) w created →
  successData created = None → error created = None →
  answeredWith (opCreateMany payload) (Some "Import Successfully")
    (Some ("List " +:+ entityName +:+ "s have been imported successfully."))
    w imported →
  successData imported = None → error imported = None →
  answeredWith (opUpdate i payload) (Some "Success")
    (Some (capitalize entityName +:+ " updated successfully")) w updated →
  successData updated = None → error updated = None →
  answeredWith (opToggle i payload)
    (Some (capitalize entityName +:+ " status updated successfully")) None
    w toggled →
  successData toggled = None → error toggled = None →
  answeredWith (opDelete i) (Some "Success")
    (Some (capitalize entityName +:+ " deleted successfully")) w deleted →
  success deleted = false → error deleted = None →
  endsUntouched ["creating"] (CallCreate payload) VNull [] false
    (createCreateAction handleApiResponse handleApiError methods
       opCreate entityName payload) w
  ∧ endsUntouched ["creatingMany"; creatingManyKey entityName]
      (CallCreateMany payload) VNull [] false
      (createBatchCreateAction handleApiResponse handleApiError methods
         opCreateMany entityName payload) w
  ∧ endsUntouched ["updating"] (CallUpdate i payload) VNull [] false
      (createUpdateAction id handleApiResponse handleApiError methods
         opUpdate entityName i payload) w
  ∧ endsUntouched ["togglingStatus"] (CallToggleStatus i payload) VNull [] false
      (createToggleStatusAction id handleApiResponse handleApiError methods
         opToggle entityName i payload) w
  ∧ endsUntouched ["deleting"] (CallDelete i) VNull [] false
      (createDeleteAction id handleApiResponse handleApiError methods
         opDelete entityName i) w.
Proof.
  intros (rc & Hc & Hrc) Hdc Hec (rm & Hm & Hrm) Hdm Hem (ru & Hu & Hru) Hdu Heu
         (rt & Ht & Hrt) Hdt Het (rd & Hd & Hrd) Hsd Hed.
  repeat split.
  - apply (endsUntouched_intro ["creating"] _ []);
      [flags_free|right; split; reflexivity|].
    unfold createCreateAction. unfold bind at 1. cbn [setState].
    rewrite app_nil_r. erewrite fell_through; [reflexivity|].
    erewrite await_resolves by exact Hc. cbn beta.
    rewrite Hrc, Hdc, Hec. reflexivity.
  - apply (endsUntouched_intro ["creatingMany"; creatingManyKey entityName] _ []);
      [flags_free|right; split; reflexivity|].
    unfold createBatchCreateAction. unfold bind at 1. cbn [setState].
    rewrite app_nil_r. erewrite fell_through; [reflexivity|].
    erewrite await_resolves by exact Hm. cbn beta.
    rewrite Hrm, Hdm, Hem. reflexivity.
  - apply (endsUntouched_intro ["updating"] _ []);
      [flags_free|right; split; reflexivity|].
    unfold createUpdateAction. unfold bind at 1. cbn [setState].
    rewrite app_nil_r. erewrite fell_through; [reflexivity|].
    erewrite await_resolves by exact Hu. cbn beta.
    rewrite Hru, Hdu, Heu. reflexivity.
  - apply (endsUntouched_intro ["togglingStatus"] _ []);
      [flags_free|right; split; reflexivity|].
    unfold createToggleStatusAction. unfold bind at 1. cbn [setState].
    rewrite app_nil_r. erewrite fell_through; [reflexivity|].
    erewrite await_resolves by exact Ht. cbn beta.
    rewrite Hrt, Hdt, Het. reflexivity.
  - apply (endsUntouched_intro ["deleting"] _ []);
      [flags_free|right; split; reflexivity|].
    unfold createDeleteAction. unfold bind at 1. cbn [setState].
    rewrite app_nil_r. erewrite fell_through; [reflexivity|].
    erewrite await_resolves by exact Hd. cbn beta.
    rewrite Hrd, Hsd, Hed. reflexivity.
Qed.

Lemma try_returned {A} (body : Act A) (handler : JsError → Act A)
    (partial : list (string * Value)) (w : World) (a : A)
    (s : Store) (n : list Notification) (c : list ServiceCall) (t : nat) :
  body w = (Normal a, mkWorld s n c t) →
  tryCatchFinally body handler (setState partial) w
  = (Normal a, mkWorld (merge partial s) n c t).
Proof. apply tryCatchFinally_returns. Qed.

Lemma try_caught {A} (body : Act A) (handler : JsError → Act A)
    (partial : list (string * Value)) (w w1 : World) (e : JsError) (a : A)
    (s : Store) (n : list Notification) (c : list ServiceCall) (t : nat) :
  body w = (Abrupt e, w1) →
  handler e w1 = (Normal a, mkWorld s n c t) →
  tryCatchFinally body handler (setState partial) w
  = (Normal a, mkWorld (merge partial s) n c t).
Proof.
  intros Hb Hh. unfold tryCatchFinally. rewrite Hb, Hh. reflexivity.
Qed.

(** X4. When the service call throws (the promise rejects), every
    action ends normally: the mutating actions return [false]; the error
    slot holds the error that [handleApiError] makes of the thrown
    value, with the fallback message "Failed to <operation> <entity>";
    one notification titled "Error" is shown; the busy flags are
    cleared and no other field changes. *)
Theorem thrown_error_is_caught
    (findAll : list ServiceCall → Awaited (ApiResponse (list T)))
    (findAllBySemester : string → list ServiceCall → Awaited (ApiResponse (list T)))
    (create : Payload → list ServiceCall → Awaited (ApiResponse T))
    (createMany : Payload → list ServiceCall → Awaited (ApiResponse (list T)))
    (update toggleStatus : string → Payload → list ServiceCall → Awaited (ApiResponse T))
    (delete : string → list ServiceCall → Awaited (ApiResponse unit))
    (entityName semesterId i : string) (force : bool) (payload : Payload)
    (w : World) (thrown : JsError) :
  findAll (calls w) = RejectsWith thrown →
  findAllBySemester semesterId (calls w) = RejectsWith thrown →
  negb force && hasCachedSemester (store w) semesterId = false →
  create payload (calls w) = RejectsWith thrown →
  createMany payload (calls w) = RejectsWith thrown →
  update i payload (calls w) = RejectsWith thrown →
  toggleStatus i payload (calls w) = RejectsWith thrown →
  delete i (calls w) = RejectsWith thrown →
  let reported (operation name : string) :=
    handleApiError thrown ("Failed to " +:+ operation +:+ " " +:+ name) in
  let slot e := VErrorState (errorStateAt w e) in
  let shown e := [{| n_title := "Error"; n_description := message e |}] in
  endsUntouched ["loading"] CallFindAll
    (slot (reported "fetch" (entityName +:+ "s")))
    (shown (reported "fetch" (entityName +:+ "s"))) tt
    (createFetchAction handleApiResponse handleApiError methods findAll entityName) w
  ∧ endsUntouched ["loading"] (CallFindAllBySemester semesterId)
      (slot (reported "fetch by semester" (entityName +:+ "s")))
      (shown (reported "fetch by semester" (entityName +:+ "s"))) tt
      (createFetchBySemesterAction handleApiResponse handleApiError methods
         findAllBySemester entityName semesterId force) w
  ∧ endsUntouched ["creating"] (CallCreate payload)
      (slot (reported "create" entityName))
      (shown (reported "create" entityName)) false
      (createCreateAction handleApiResponse handleApiError methods
         create entityName payload) w
  ∧ endsUntouched ["creatingMany"; creatingManyKey entityName]
      (CallCreateMany payload)
      (slot (reported "create" (entityName +:+ "s")))
      (shown (reported "create" (entityName +:+ "s"))) false
      (createBatchCreateAction handleApiResponse handleApiError methods
         createMany entityName payload) w
  ∧ endsUntouched ["updating"] (CallUpdate i payload)
      (slot (reported "update" entityName))
      (shown (reported "update" entityName)) false
      (createUpdateAction id handleApiResponse handleApiError methods
         update entityName i payload) w
  ∧ endsUntouched ["togglingStatus"] (CallToggleStatus i payload)
      (slot (reported "toggle status" entityName))
      (shown (reported "toggle status" entityName)) false
      (createToggleStatusAction id handleApiResponse handleApiError methods
         toggleStatus entityName i payload) w
  ∧ endsUntouched ["deleting"] (CallDelete i)
      (slot (reported "delete" entityName))
      (shown (reported "delete" entityName)) false
      (createDeleteAction id handleApiResponse handleApiError methods
         delete entityName i) w.
Proof.
  intros Hfa Hfs Hmiss Hc Hm Hu Ht Hd reported slot shown.
  subst reported slot shown. cbn beta.
  repeat split.
  - eapply (endsUntouched_intro ["loading"] _ [("lastError", _)]);
      [flags_free|left; reflexivity|].
    unfold createFetchAction. unfold bind at 1. cbn [setState].
    unfold bind at 1. erewrite try_caught; cycle 1;
      [erewrite await_rejects by exact Hfa; reflexivity|reflexivity|reflexivity].
  - eapply (endsUntouched_intro ["loading"] _ [("lastError", _)]);
      [flags_free|left; reflexivity|].
    unfold createFetchBySemesterAction. rewrite cache_check, Hmiss.
    unfold bind at 1. cbn [setState].
    unfold bind at 1. erewrite try_caught; cycle 1;
      [erewrite await_rejects by exact Hfs; reflexivity|reflexivity|reflexivity].
  - eapply (endsUntouched_intro ["creating"] _ [("lastError", _)]);
      [flags_free|left; reflexivity|].
    unfold createCreateAction. unfold bind at 1. cbn [setState].
    erewrite caught; cycle 1;
      [erewrite await_rejects by exact Hc; reflexivity|reflexivity|reflexivity].
  - eapply (endsUntouched_intro ["creatingMany"; creatingManyKey entityName] _
              [("lastError", _)]);
      [flags_free|left; reflexivity|].
    unfold createBatchCreateAction. unfold bind at 1. cbn [setState].
    erewrite caught; cycle 1;
      [erewrite await_rejects by exact Hm; reflexivity|reflexivity|reflexivity].
  - eapply (endsUntouched_intro ["updating"] _ [("lastError", _)]);
      [flags_free|left; reflexivity|].
    unfold createUpdateAction. unfold bind at 1. cbn [setState].
    erewrite caught; cycle 1;
      [erewrite await_rejects by exact Hu; reflexivity|reflexivity|reflexivity].
  - eapply (endsUntouched_intro ["togglingStatus"] _ [("lastError", _)]);
      [flags_free|left; reflexivity|].
    unfold createToggleStatusAction. unfold bind at 1. cbn [setState].
    erewrite caught; cycle 1;
      [erewrite await_rejects by exact Ht; reflexivity|reflexivity|reflexivity].
  - eapply (endsUntouched_intro ["deleting"] _ [("lastError", _)]);
      [flags_free|left; reflexivity|].
    unfold createDeleteAction. unfold bind at 1. cbn [setState].
    erewrite caught; cycle 1;
      [erewrite await_rejects by exact Hd; reflexivity|reflexivity|reflexivity].
Qed.

(** *** Successes change the collection and nothing else *)

Lemma raised_lastError (flags : list string) (s : Store) :
  merge (raised flags) s !! "lastError" = Some VNull.
Proof. unfold raised, merge. rewrite foldl_app. cbn. apply lookup_insert_eq. Qed.

Lemma raised_other (flags : list string) (s : Store) (k : string) :
  k ≠ "lastError" → k ∉ flags → merge (raised flags) s !! k = s !! k.
Proof.
  intros Hk Hnot. apply merge_lookup_other. rewrite raised_keys.
  intros Hin. apply elem_of_app in Hin as [Hin|Hin]; [exact (Hnot Hin)|].
  apply list_elem_of_singleton in Hin. exact (Hk Hin).
Qed.

Lemma bind_assoc {A B C} (m : Act A) (f : A → Act B) (g : B → Act C) (w : World) :
  bind (bind m f) g w = bind m (λ a, bind (f a) g) w.
Proof. unfold bind. destruct (m w) as [[a|e] w']; reflexivity. Qed.

Lemma endsUpdated_intro (flags : list string) (call : ServiceCall)
    (entityName : string) (g : list T → list T) (old : list T)
    (body : Act (option bool)) (handler : JsError → Act unit) (w : World) :
  filterIsDerived entityName →
  store w !! itemsKey entityName = Some (VItems old) →
  "lastError" ∉ flags → itemsKey entityName ∉ flags →
  body (mkWorld (merge (raised flags) (store w)) (notifications w) (calls w) (clock w))
  = bind (bind (setStateWith (λ state,
                  match asItems state (itemsKey entityName) with
                  | Normal items => Normal [(itemsKey entityName, VItems (g items))]
                  | Abrupt e => Abrupt e
                  end))
               (λ _, runFilterFunction methods entityName))
         (λ _, ret (Some true))
      (mkWorld (merge (raised flags) (store w)) (notifications w)
               (calls w ++ [call]) (clock w)) →
  endsUpdated flags call entityName (g old)
    (bind (setState (raised flags))
       (λ _, returning body handler (setState (lowered flags)))) w.
Proof.
  intros Hf Hold Hflags Hitems Hbody.
  set (w1 := mkWorld (merge (raised flags) (store w)) (notifications w)
                     (calls w ++ [call]) (clock w)).
  assert (Hold1 : store w1 !! itemsKey entityName = Some (VItems old)).
  { cbn [w1 store]. rewrite raised_other; [exact Hold|key_neq|exact Hitems]. }
  destruct (update_items_then_filter entityName old g w1 Hf Hold1)
    as (w2 & Hrun & Hnew & Hkeep & Hcalls).
  exists (mkWorld (merge (lowered flags) (store w2)) (notifications w2)
                  (calls w2) (clock w2)).
  split.
  { unfold bind at 1. cbn [setState].
    apply returning_returns. rewrite Hbody. fold w1.
    erewrite bind_normal by exact Hrun. reflexivity. }
  cbn [store calls]. split; [|split; [|split; [|split]]].
  - rewrite merge_lookup_other by (rewrite lowered_keys; exact Hitems). exact Hnew.
  - rewrite merge_lookup_other by (rewrite lowered_keys; exact Hflags).
    rewrite Hkeep by key_neq. apply raised_lastError.
  - intros flag Hin. apply lowered_lookup, Hin.
  - intros k Hk1 Hk2 Hk3 Hk4.
    rewrite merge_lookup_other by (rewrite lowered_keys; exact Hk4).
    rewrite Hkeep by assumption. apply raised_other; assumption.
  - rewrite Hcalls. reflexivity.
Qed.

Ltac items_free :=
  let H := fresh in
  intros H; cbn in H;
  repeat (apply elem_of_cons in H; destruct H as [H|H];
          [revert H; first [key_neq | apply itemsKey_neq_creatingManyKey]|]);
  apply elem_of_nil in H; destruct H.

Lemma create_succeeds
    (create : Payload → list ServiceCall → Awaited (ApiResponse T))
    (entityName : string) (payload : Payload) (w : World)
    (old : list T) (result : ApiResult T) (item : T) :
  filterIsDerived entityName →
  store w !! itemsKey entityName = Some (VItems old) →
  answeredWith (create payload) (Some "Success")
    (Some (capitalize entityName +:+ " created successfully")) w result →
  successData result = Some item →
  endsUpdated ["creating"] (CallCreate payload) entityName (item :: old)
    (createCreateAction handleApiResponse handleApiError methods
       create entityName payload) w.
Proof.
  intros Hf Hold (response & Hop & Hres) Hdata.
  apply (endsUpdated_intro ["creating"] _ _ (cons item));
    [exact Hf|exact Hold|flags_free|items_free|].
  erewrite await_resolves by exact Hop. cbv beta zeta. rewrite Hres, Hdata. reflexivity.
Qed.

Lemma update_succeeds
    (update : string → Payload → list ServiceCall → Awaited (ApiResponse T))
    (entityName i : string) (payload : Payload) (w : World)
    (old : list T) (result : ApiResult T) (item : T) :
  filterIsDerived entityName →
  store w !! itemsKey entityName = Some (VItems old) →
  answeredWith (update i payload) (Some "Success")
    (Some (capitalize entityName +:+ " updated successfully")) w result →
  successData result = Some item →
  endsUpdated ["updating"] (CallUpdate i payload) entityName
    (map (λ x, if String.eqb (id x) i then item else x) old)
    (createUpdateAction id handleApiResponse handleApiError methods
       update entityName i payload) w.
Proof.
  intros Hf Hold (response & Hop & Hres) Hdata.
  apply (endsUpdated_intro ["updating"] _ _
           (map (λ x, if String.eqb (id x) i then item else x)));
    [exact Hf|exact Hold|flags_free|items_free|].
  erewrite await_resolves by exact Hop. cbv beta zeta. rewrite Hres, Hdata. reflexivity.
Qed.

Lemma delete_succeeds
    (delete : string → list ServiceCall → Awaited (ApiResponse unit))
    (entityName i : string) (w : World)
    (old : list T) (result : ApiResult unit) :
  filterIsDerived entityName →
  store w !! itemsKey entityName = Some (VItems old) →
  answeredWith (delete i) (Some "Success")
    (Some (capitalize entityName +:+ " deleted successfully")) w result →
  success result = true →
  endsUpdated ["deleting"] (CallDelete i) entityName (withoutId i old)
    (createDeleteAction id handleApiResponse handleApiError methods
       delete entityName i) w.
Proof.
  intros Hf Hold (response & Hop & Hres) Hsuccess.
  apply (endsUpdated_intro ["deleting"] _ _ (withoutId i));
    [exact Hf|exact Hold|flags_free|items_free|].
  erewrite await_resolves by exact Hop. cbv beta zeta. rewrite Hres, Hsuccess.
  reflexivity.
Qed.

Lemma createMany_succeeds
    (createMany : Payload → list ServiceCall → Awaited (ApiResponse (list T)))
    (entityName : string) (payload : Payload) (w : World)
    (old : list T) (result : ApiResult (list T)) (items : list T) :
  filterIsDerived entityName →
  store w !! itemsKey entityName = Some (VItems old) →
  answeredWith (createMany payload) (Some "Import Successfully")
    (Some ("List " +:+ entityName +:+ "s have been imported successfully."))
    w result →
  successData result = Some items →
  endsUpdated ["creatingMany"; creatingManyKey entityName] (CallCreateMany payload)
    entityName (items ++ old)
    (createBatchCreateAction handleApiResponse handleApiError methods
       createMany entityName payload) w.
Proof.
  intros Hf Hold (response & Hop & Hres) Hdata.
  apply (endsUpdated_intro ["creatingMany"; creatingManyKey entityName] _ _
           (app items));
    [exact Hf|exact Hold|flags_free|items_free|].
  erewrite await_resolves by exact Hop. cbv beta zeta. rewrite Hres, Hdata.
  symmetry. apply bind_assoc.
Qed.

(** X5. When the service answers a batch create call with records, the
    action returns [true] and the collection is the returned records, in
    the order the service gave them, followed by the records that were
    there; an empty answer leaves the collection as it was.  The error
    slot holds [null], both busy flags are cleared, and no field other
    than these, the collection and the filtered view changes. *)
Theorem batch_create_prepends_all
    (createMany : Payload → list ServiceCall → Awaited (ApiResponse (list T)))
    (entityName : string) (payload : Payload) (w : World)
    (old : list T) (result : ApiResult (list T)) (items : list T) :
  filterIsDerived entityName →
  store w !! itemsKey entityName = Some (VItems old) →
  answeredWith (createMany payload) (Some "Import Successfully")
    (Some ("List " +:+ entityName +:+ "s have been imported successfully."))
    w result →
  successData result = Some items →
  endsUpdated ["creatingMany"; creatingManyKey entityName] (CallCreateMany payload)
    entityName (items ++ old)
    (createBatchCreateAction handleApiResponse handleApiError methods
       createMany entityName payload) w
  ∧ length (items ++ old) = length items + length old
  ∧ (items = [] → items ++ old = old).
Proof.
  intros Hf Hold Hanswer Hdata. split; [|split].
  - exact (createMany_succeeds createMany entityName payload w old result items
             Hf Hold Hanswer Hdata).
  - apply length_app.
  - intros ->. reflexivity.
Qed.

(** X6. A successful create, update or delete issues exactly one
    service call, leaves [null] in the error slot even if it held an
    error before, clears its busy flag, and changes no field besides the
    collection, the filtered view, the error slot and the busy flag. *)
Theorem successful_mutation_frame
    (create : Payload → list ServiceCall → Awaited (ApiResponse T))
    (update : string → Payload → list ServiceCall → Awaited (ApiResponse T))
    (delete : string → list ServiceCall → Awaited (ApiResponse unit))
    (entityName i : string) (payload : Payload) (w : World) (old : list T)
    (created updated : ApiResult T) (deleted : ApiResult unit) (item item' : T) :
  filterIsDerived entityName →
  store w !! itemsKey entityName = Some (VItems old) →
  answeredWith (create payload) (Some "Success")
    (Some (capitalize entityName +:+ " created successfully")) w created →
  successData created = Some item →
  answeredWith (update i payload) (Some "Success")
    (Some (capitalize entityName +:+ " updated successfully")) w updated →
  successData updated = Some item' →
  answeredWith (delete i) (Some "Success")
    (Some (capitalize entityName +:+ " deleted successfully")) w deleted →
  success deleted = true →
  endsUpdated ["creating"] (CallCreate payload) entityName (item :: old)
    (createCreateAction handleApiResponse handleApiError methods
       create entityName payload) w
  ∧ endsUpdated ["updating"] (CallUpdate i payload) entityName
      (map (λ x, if String.eqb (id x) i then item' else x) old)
      (createUpdateAction id handleApiResponse handleApiError methods
         update entityName i payload) w
  ∧ endsUpdated ["deleting"] (CallDelete i) entityName
      (List.filter (λ x, negb (String.eqb (id x) i)) old)
      (createDeleteAction id handleApiResponse handleApiError methods
         delete entityName i) w.
Proof.
  intros Hf Hold Hc Hdc Hu Hdu Hd Hsd. split; [|split].
  - exact (create_succeeds create entityName payload w old created item Hf Hold Hc Hdc).
  - exact (update_succeeds update entityName i payload w old updated item'
             Hf Hold Hu Hdu).
  - exact (delete_succeeds delete entityName i w old deleted Hf Hold Hd Hsd).
Qed.

(** *** Fetch all *)

(** X7. When the service answers a fetch-all call with records, the
    action replaces the collection by them, whatever the collection
    field held before (nothing, or records), leaves [null] in the error
    slot, clears [loading] and changes no field besides these and the
    filtered view; in a store without a filter function the filtered
    view holds the same records. *)
Theorem fetch_replaces_collection
    (findAll : list ServiceCall → Awaited (ApiResponse (list T)))
    (entityName : string) (w : World)
    (result : ApiResult (list T)) (items : list T) :
  filterIsDerived entityName →
  answeredWith findAll None None w result →
  successData result = Some items →
  ∃ w', createFetchAction handleApiResponse handleApiError methods
          findAll entityName w = (Normal tt, w')
        ∧ store w' !! itemsKey entityName = Some (VItems items)
        ∧ store w' !! "lastError" = Some VNull
        ∧ store w' !! "loading" = Some (VBool false)
        ∧ (∀ k, k ≠ itemsKey entityName → k ≠ filteredKey entityName →
                k ≠ "lastError" → k ≠ "loading" → store w' !! k = store w !! k)
        ∧ calls w' = calls w ++ [CallFindAll]
        ∧ (methods !! filterFunctionKey entityName = None →
           store w' !! filteredKey entityName = Some (VItems items)).
Proof.
  intros Hf (response & Hop & Hres) Hdata.
  unfold createFetchAction. unfold bind at 1. cbn [setState].
  set (w1 := mkWorld (merge [("loading", VBool true); ("lastError", VNull)] (store w))
                     (notifications w) (calls w ++ [CallFindAll]) (clock w)).
  destruct (set_items_then_filter entityName items
              [(filteredKey entityName, VItems items)] w1 Hf)
    as (w2 & Hrun & Hnew & Hkeep & Hcalls).
  { intros kv Hkv. apply list_elem_of_singleton in Hkv as ->. reflexivity. }
  unfold bind at 1.
  rewrite (tryCatchFinally_returns _ _ _ _ w2 tt).
  2:{ erewrite await_resolves by exact Hop. cbv beta zeta. rewrite Hres, Hdata.
      fold w1. unfold handleFetchSuccess.
      erewrite bind_normal by exact Hrun. reflexivity. }
  eexists. split; [reflexivity|]. cbn [store calls].
  split; [|split; [|split; [|split; [|split]]]].
  - apply merge_lookup_keep; [exact Hnew|not_in_keys].
  - apply merge_lookup_keep; [|not_in_keys].
    rewrite Hkeep by key_neq. unfold w1; cbn [store].
    rewrite !merge_cons, merge_nil. apply lookup_insert_eq.
  - rewrite merge_cons, merge_nil. apply lookup_insert_eq.
  - intros k Hk1 Hk2 Hk3 Hk4.
    rewrite merge_cons, merge_nil, lookup_insert_ne by congruence.
    rewrite Hkeep by assumption. unfold w1; cbn [store].
    rewrite !merge_cons, merge_nil.
    rewrite !lookup_insert_ne by congruence. reflexivity.
  - rewrite Hcalls. reflexivity.
  - intros Hnone.
    apply merge_lookup_keep; [|not_in_keys].
    unfold bind, runFilterFunction, getState in Hrun. cbn [setState] in Hrun.
    rewrite Hnone in Hrun. cbn in Hrun. injection Hrun as <-. cbn [store].
    rewrite ?merge_cons, ?merge_nil. apply lookup_insert_eq.
Qed.

(** X8. When the service answers a fetch-all call with anything but
    records, the collection is left as it was: for an error result the
    error slot holds the error and one notification titled "Error" is
    shown; for an answer with neither records nor error nothing is
    recorded and nothing is shown.  In both cases [loading] is cleared
    and no other field changes. *)
Theorem fetch_failure_keeps_collection
    (findAll : list ServiceCall → Awaited (ApiResponse (list T)))
    (entityName : string) (w : World) (result : ApiResult (list T)) :
  answeredWith findAll None None w result →
  successData result = None →
  match error result with
  | Some e =>
      endsUntouched ["loading"] CallFindAll (VErrorState (errorStateAt w e))
        [{| n_title := "Error"; n_description := message e |}] tt
        (createFetchAction handleApiResponse handleApiError methods
           findAll entityName) w
  | None =>
      endsUntouched ["loading"] CallFindAll VNull [] tt
        (createFetchAction handleApiResponse handleApiError methods
           findAll entityName) w
  end.
Proof.
  intros (response & Hop & Hres) Hdata.
  destruct (error result) as [e|] eqn:Herr.
  - apply (endsUntouched_intro ["loading"] _
             [("lastError", VErrorState (errorStateAt w e))]);
      [flags_free|left; reflexivity|].
    unfold createFetchAction. unfold bind at 1. cbn [setState].
    unfold bind at 1. erewrite try_returned; [reflexivity|].
    erewrite await_resolves by exact Hop. cbv beta zeta.
    rewrite Hres, Hdata, Herr. reflexivity.
  - apply (endsUntouched_intro ["loading"] _ []);
      [flags_free|right; split; reflexivity|].
    unfold createFetchAction. unfold bind at 1. cbn [setState].
    rewrite app_nil_r.
    unfold bind at 1. erewrite try_returned; [reflexivity|].
    erewrite await_resolves by exact Hop. cbv beta zeta.
    rewrite Hres, Hdata, Herr. reflexivity.
Qed.

(** *** Looking a record up *)

Lemma find_id_spec (i : string) (items : list T) :
  match List.find (λ item, String.eqb (id item) i) items with
  | Some x => ∃ before after,
      items = before ++ x :: after ∧ id x = i ∧ i ∉ ids id before
  | None => i ∉ ids id items
  end.
Proof.
  unfold ids. induction items as [|y items IH]; cbn; [apply not_elem_of_nil|].
  destruct (String.eqb_spec (id y) i) as [Heq|Hne].
  - exists [], items. repeat split; [exact Heq|apply not_elem_of_nil].
  - destruct (List.find _ items) as [x|].
    + destruct IH as (before & after & -> & Hx & Hb).
      exists (y :: before), after. repeat split; [exact Hx|].
      cbn. intros Hin. apply elem_of_cons in Hin as [Hin|Hin]; [congruence|exact (Hb Hin)].
    + intros Hin. apply elem_of_cons in Hin as [Hin|Hin]; [congruence|exact (IH Hin)].
Qed.

Lemma getById_items (entityName i : string) (w : World) (items : list T) :
  store w !! itemsKey entityName = Some (VItems items) →
  createGetById id entityName i w
  = (Normal (List.find (λ item, String.eqb (id item) i) items), w).
Proof. intros Hs. unfold createGetById, bind, getState. rewrite Hs. reflexivity. Qed.

(** X9. [getById] reads the store and changes nothing.  On a
    collection it yields the first record, in the order of the
    collection, whose identifier is [i], and [undefined] exactly when no
    record has that identifier.  When the collection field is absent or
    [null] it yields [undefined]; when the field holds any other value
    that is not an array it throws a TypeError. *)
Theorem getById_finds_first (entityName i : string) (w : World) :
  match store w !! itemsKey entityName with
  | Some (VItems items) =>
      ∃ r, createGetById id entityName i w = (Normal r, w)
           ∧ (r = None ↔ i ∉ ids id items)
           ∧ (∀ x, r = Some x →
                ∃ before after,
                  items = before ++ x :: after ∧ id x = i ∧ i ∉ ids id before)
  | None | Some VNull => createGetById id entityName i w = (Normal None, w)
  | Some _ => ∃ msg, createGetById id entityName i w = (Abrupt (TypeError msg), w)
  end.
Proof.
  destruct (store w !! itemsKey entityName) as [[| | |items|]|] eqn:Hs;
    try (unfold createGetById, bind, getState; rewrite Hs; reflexivity);
    try (eexists; unfold createGetById, bind, getState; rewrite Hs; reflexivity).
  eexists. split; [apply getById_items, Hs|].
  pose proof (find_id_spec i items) as Hfind.
  destruct (List.find _ items) as [x|].
  - split.
    + split; [discriminate|]. intros Hnot. exfalso. apply Hnot.
      destruct Hfind as (before & after & -> & <- & _).
      unfold ids. rewrite map_app. apply elem_of_app. right. left.
    + intros y Hy. injection Hy as <-. exact Hfind.
  - split; [tauto|]. intros y Hy. discriminate.
Qed.

Lemma find_replaced_same (i : string) (item : T) (old : list T) :
  id item = i → i ∈ ids id old →
  List.find (λ x, String.eqb (id x) i)
    (map (λ x, if String.eqb (id x) i then item else x) old) = Some item.
Proof.
  intros Hitem. unfold ids.
  induction old as [|y old IH]; cbn; intros Hin; [inversion Hin|].
  destruct (String.eqb_spec (id y) i) as [Heq|Hne].
  - rewrite Hitem, String.eqb_refl. reflexivity.
  - apply String.eqb_neq in Hne. rewrite Hne. apply IH.
    apply String.eqb_neq in Hne.
    apply elem_of_cons in Hin as [Hin|Hin]; [congruence|exact Hin].
Qed.

Lemma find_replaced_other (i : string) (item : T) (old : list T) :
  id item ≠ i →
  List.find (λ x, String.eqb (id x) i)
    (map (λ x, if String.eqb (id x) i then item else x) old) = None.
Proof.
  intros Hitem. induction old as [|y old IH]; cbn; [reflexivity|].
  destruct (String.eqb_spec (id y) i) as [Heq|Hne].
  - apply String.eqb_neq in Hitem. rewrite Hitem. exact IH.
  - apply String.eqb_neq in Hne. rewrite Hne. exact IH.
Qed.

Lemma find_withoutId (i : string) (old : list T) :
  List.find (λ x, String.eqb (id x) i) (withoutId i old) = None.
Proof.
  pose proof (find_id_spec i (withoutId i old)) as Hfind.
  destruct (List.find _ (withoutId i old)) as [x|]; [|reflexivity].
  destruct Hfind as (before & after & Heq & Hx & _).
  exfalso. apply (withoutId_absent i old).
  unfold withoutId, StoreFactory.withoutId in *. rewrite Heq.
  unfold ids. rewrite map_app. apply elem_of_app. right. rewrite <- Hx. left.
Qed.

(** X10. Looking a record up after a successful mutation.  After a
    create, [getById] of the new record's identifier yields the new
    record, also when an older record carries the same identifier.
    After a delete of [i], [getById i] yields [undefined].  After an
    update of [i], [getById i] yields the returned record when that
    record carries identifier [i] and [i] was in the collection, and
    [undefined] when the returned record carries another identifier. *)
Theorem getById_after_mutation
    (create : Payload → list ServiceCall → Awaited (ApiResponse T))
    (update : string → Payload → list ServiceCall → Awaited (ApiResponse T))
    (delete : string → list ServiceCall → Awaited (ApiResponse unit))
    (entityName i : string) (payload : Payload) (w : World) (old : list T)
    (created updated : ApiResult T) (deleted : ApiResult unit) (item item' : T) :
  filterIsDerived entityName →
  store w !! itemsKey entityName = Some (VItems old) →
  answeredWith (create payload) (Some "Success")
    (Some (capitalize entityName +:+ " created successfully")) w created →
  successData created = Some item →
  answeredWith (update i payload) (Some "Success")
    (Some (capitalize entityName +:+ " updated successfully")) w updated →
  successData updated = Some item' →
  answeredWith (delete i) (Some "Success")
    (Some (capitalize entityName +:+ " deleted successfully")) w deleted →
  success deleted = true →
  (∃ w', createCreateAction handleApiResponse handleApiError methods
           create entityName payload w = (Normal true, w')
         ∧ createGetById id entityName (id item) w' = (Normal (Some item), w'))
  ∧ (∃ w', createDeleteAction id handleApiResponse handleApiError methods
             delete entityName i w = (Normal true, w')
           ∧ createGetById id entityName i w' = (Normal None, w'))
  ∧ (∃ w', createUpdateAction id handleApiResponse handleApiError methods
             update entityName i payload w = (Normal true, w')
           ∧ (id item' = i → i ∈ ids id old →
              createGetById id entityName i w' = (Normal (Some item'), w'))
           ∧ (id item' ≠ i →
              createGetById id entityName i w' = (Normal None, w'))).
Proof.
  intros Hf Hold Hc Hdc Hu Hdu Hd Hsd. split; [|split].
  - destruct (create_succeeds create entityName payload w old created item
                Hf Hold Hc Hdc) as (w' & Hrun & Hitems & _).
    exists w'. split; [exact Hrun|].
    rewrite (getById_items _ _ _ _ Hitems). cbn. rewrite String.eqb_refl.
    reflexivity.
  - destruct (delete_succeeds delete entityName i w old deleted Hf Hold Hd Hsd)
      as (w' & Hrun & Hitems & _).
    exists w'. split; [exact Hrun|].
    rewrite (getById_items _ _ _ _ Hitems), find_withoutId. reflexivity.
  - destruct (update_succeeds update entityName i payload w old updated item'
                Hf Hold Hu Hdu) as (w' & Hrun & Hitems & _).
    exists w'. split; [exact Hrun|]. split.
    + intros Hsame Hin.
      rewrite (getById_items _ _ _ _ Hitems), find_replaced_same by assumption.
      reflexivity.
    + intros Hother.
      rewrite (getById_items _ _ _ _ Hitems), find_replaced_other by assumption.
      reflexivity.
Qed.

(** *** When fetch by semester calls the service *)

Lemma fetchBySemester_calls_once
    (findAllBySemester : string → list ServiceCall → Awaited (ApiResponse (list T)))
    (entityName semesterId : string) (force : bool) (w : World) :
  filterIsDerived entityName →
  negb force && hasCachedSemester (store w) semesterId = false →
  ∃ w', createFetchBySemesterAction handleApiResponse handleApiError methods
          findAllBySemester entityName semesterId force w = (Normal tt, w')
        ∧ calls w' = calls w ++ [CallFindAllBySemester semesterId].
Proof.
  intros Hf Hmiss.
  destruct (findAllBySemester semesterId (calls w)) as [response|thrown] eqn:Hop.
  - destruct (fetchedItems (handleApiResponse (list T) response None None))
      as [items|] eqn:Hfetched.
    + destruct (fetchBySemester_populates findAllBySemester entityName semesterId
                  force w response items Hf Hmiss Hop Hfetched)
        as (w' & Hrun & _ & _ & _ & Hcalls).
      exists w'. split; [exact Hrun|exact Hcalls].
    + unfold fetchedItems in Hfetched.
      unfold createFetchBySemesterAction. rewrite cache_check, Hmiss.
      unfold bind at 1. cbn [setState]. unfold bind at 1.
      destruct (successData (handleApiResponse (list T) response None None))
        as [items|] eqn:Hdata; [discriminate|].
      destruct (error (handleApiResponse (list T) response None None))
        as [e|] eqn:Herr.
      * destruct (isEnrollmentStateConflict e) eqn:Hconflict; [discriminate|].
        erewrite try_returned.
        2:{ erewrite await_resolves by exact Hop. cbv beta zeta.
            rewrite Hdata, Herr, Hconflict. reflexivity. }
        eexists. split; reflexivity.
      * erewrite try_returned.
        2:{ erewrite await_resolves by exact Hop. cbv beta zeta.
            rewrite Hdata, Herr. reflexivity. }
        eexists. split; reflexivity.
  - unfold createFetchBySemesterAction. rewrite cache_check, Hmiss.
    unfold bind at 1. cbn [setState]. unfold bind at 1.
    erewrite try_caught; cycle 1;
      [erewrite await_rejects by exact Hop; reflexivity|reflexivity|].
    eexists. split; reflexivity.
Qed.

(** X11. Fetch by semester calls the service exactly once, whatever
    the service then does, unless it is called without [force] on a
    store that holds a truthy [students] field and remembers the
    requested semester; in that case it calls nothing and leaves the
    world as it is.  With [force] it always calls the service. *)
Theorem fetch_by_semester_calls_unless_cached
    (findAllBySemester : string → list ServiceCall → Awaited (ApiResponse (list T)))
    (entityName semesterId : string) (force : bool) (w : World) :
  filterIsDerived entityName →
  (hasCachedSemester (store w) semesterId = true ↔
   truthy (store w !! "students") = true
   ∧ store w !! "lastSemesterId" = Some (VStr semesterId))
  ∧ ∃ w', createFetchBySemesterAction handleApiResponse handleApiError methods
            findAllBySemester entityName semesterId force w = (Normal tt, w')
          ∧ (if negb force && hasCachedSemester (store w) semesterId
             then w' = w
             else calls w' = calls w ++ [CallFindAllBySemester semesterId]).
Proof.
  intros Hf. split.
  - unfold hasCachedSemester. rewrite andb_true_iff.
    destruct (store w !! "lastSemesterId") as [[| |s| |]|];
      try (split; intros [? ?]; [discriminate|split; [assumption|discriminate]]).
    destruct (String.eqb_spec s semesterId) as [->|Hne].
    + tauto.
    + split; intros [? ?]; [discriminate|]. split; [assumption|congruence].
  - destruct (negb force && hasCachedSemester (store w) semesterId) eqn:Hc.
    + exists w. split; [|reflexivity].
      unfold createFetchBySemesterAction. rewrite cache_check, Hc. reflexivity.
    + exact (fetchBySemester_calls_once findAllBySemester entityName semesterId
               force w Hf Hc).
Qed.

(** X12. The cache of the student store is keyed by the last semester
    alone: after a fetch for semester [p] that stored records (or the
    empty result of the recognized conflict), a fetch for another
    semester [q] without [force] calls the service again, whatever it
    then answers. *)
Theorem switching_semester_refetches
    (findAllBySemester : string → list ServiceCall → Awaited (ApiResponse (list T)))
    (p q : string) (w : World)
    (response : ApiResponse (list T)) (items : list T) :
  filterIsDerived "student" →
  hasCachedSemester (store w) p = false →
  findAllBySemester p (calls w) = Resolves response →
  fetchedItems (handleApiResponse (list T) response None None) = Some items →
  q ≠ p →
  ∃ w1 w2,
    createFetchBySemesterAction handleApiResponse handleApiError methods
      findAllBySemester "student" p false w = (Normal tt, w1)
    ∧ createFetchBySemesterAction handleApiResponse handleApiError methods
        findAllBySemester "student" q false w1 = (Normal tt, w2)
    ∧ calls w2 = calls w ++ [CallFindAllBySemester p; CallFindAllBySemester q].
Proof.
  intros Hf Hmiss Hfind Hfetched Hq.
  destruct (fetchBySemester_populates findAllBySemester "student" p
              false w response items Hf Hmiss Hfind Hfetched)
    as (w1 & Hrun & _ & Hsem & _ & Hcalls).
  assert (Hmiss1 : negb false && hasCachedSemester (store w1) q = false).
  { unfold hasCachedSemester. rewrite Hsem.
    apply String.eqb_neq in Hq. rewrite String.eqb_sym, Hq.
    apply andb_false_r. }
  destruct (fetchBySemester_calls_once findAllBySemester "student" q false w1
              Hf Hmiss1) as (w2 & Hrun2 & Hcalls2).
  exists w1, w2. split; [exact Hrun|]. split; [exact Hrun2|].
  rewrite Hcalls2, Hcalls, <- app_assoc. reflexivity.
Qed.

(** *** Search, field setters and reset *)




(** X14. A field setter, and the search-text setter, which is the field
    setter of [searchText]: the field holds the new value afterwards, no
    service is called, and when the named filter function only derives
    the filtered view no field besides the one set and the filtered view
    changes; without such a function the only change is the field. *)
Theorem field_setter_keeps_collection
    (fieldName filterFunctionName entityName : string) (value : Value)
    (text : string) (w : World) :
  (∀ f, methods !! filterFunctionName = Some f → derivesFilteredView entityName f) →
  fieldName ≠ filteredKey entityName →
  createSetSearchText methods filterFunctionName text
  = createFieldSetter methods "searchText" filterFunctionName (VStr text)
  ∧ ∃ w', createFieldSetter methods fieldName filterFunctionName value w
          = (Normal tt, w')
          ∧ store w' !! fieldName = Some value
          ∧ (∀ k, k ≠ fieldName → k ≠ filteredKey entityName →
                  store w' !! k = store w !! k)
          ∧ calls w' = calls w
          ∧ (methods !! filterFunctionName = None →
             store w' = <[fieldName := value]> (store w)).
Proof.
  intros Hf Hfield. split; [reflexivity|].
  unfold createFieldSetter, bind, getState. cbn [setState].
  destruct (methods !! filterFunctionName) as [f|] eqn:Hm.
  - destruct (Hf f eq_refl
                (mkWorld (merge [(fieldName, value)] (store w)) (notifications w)
                         (calls w) (clock w)))
      as (w' & -> & Hkeep & Hcalls).
    exists w'. split; [reflexivity|]. cbn [store calls] in Hkeep, Hcalls.
    split; [|split; [|split]].
    + rewrite Hkeep by exact Hfield. rewrite merge_cons, merge_nil.
      apply lookup_insert_eq.
    + intros k Hk1 Hk2. rewrite Hkeep by exact Hk2.
      rewrite merge_cons, merge_nil. apply lookup_insert_ne. congruence.
    + exact Hcalls.
    + discriminate.
  - eexists. split; [reflexivity|]. cbn [store calls].
    rewrite merge_cons, merge_nil.
    split; [apply lookup_insert_eq|].
    split; [intros k Hk _; apply lookup_insert_ne; congruence|].
    split; reflexivity.
Qed.

Lemma creatingManyKey_neq_legacy (entityName : string) :
  creatingManyKey entityName ≠ "creatingMany".
Proof.
  intros Heq. apply (f_equal String.length) in Heq.
  unfold creatingManyKey in Heq.
  rewrite !app_length, capitalize_length in Heq. cbn in Heq. lia.
Qed.

Lemma merge_app (l1 l2 : list (string * Value)) (s : Store) :
  merge (l1 ++ l2) s = merge l2 (merge l1 s).
Proof. apply foldl_app. Qed.

Lemma merge_lookup_nodup (partial : list (string * Value)) (s : Store)
    (k : string) (v : Value) :
  NoDup partial.*1 → (k, v) ∈ partial → merge partial s !! k = Some v.
Proof.
  revert s. induction partial as [|[k' v'] rest IH]; intros s Hnd Hin.
  - inversion Hin.
  - cbn in Hnd. apply NoDup_cons in Hnd as [Hk' Hnd].
    rewrite merge_cons. apply elem_of_cons in Hin as [Heq|Hin].
    + injection Heq as -> ->. rewrite merge_lookup_other by exact Hk'.
      apply lookup_insert_eq.
    + apply IH; assumption.
Qed.

Ltac reset_neq :=
  first
    [ key_neq
    | apply not_eq_sym; assumption
    | apply itemsKey_neq_creatingManyKey
    | apply not_eq_sym, itemsKey_neq_creatingManyKey
    | apply creatingManyKey_neq_legacy
    | apply not_eq_sym, creatingManyKey_neq_legacy
    | unfold creatingManyKey, filteredKey; cbn; discriminate ].

(** X15. The fields that [createReset] returns, merged into a store:
    every busy flag is [false], the error slot is [null], the search
    text is empty, the filtered view is empty and, unless the collection
    field is the field [togglingStatus], the collection is empty; fields
    that the reset does not name are kept.  Custom fields are merged
    last, so each of them holds its custom value. *)
Theorem reset_restores_initial_state (entityName : string)
    (customFields : list (string * Value)) (s : Store) :
  let s0 := merge (createReset entityName []) s in
  merge (createReset entityName customFields) s = merge customFields s0
  ∧ (∀ k v, NoDup customFields.*1 → (k, v) ∈ customFields →
            merge (createReset entityName customFields) s !! k = Some v)
  ∧ (∀ flag, flag ∈ ["loading"; "creating"; "updating"; "deleting";
                     "togglingStatus"; "creatingMany";
                     creatingManyKey entityName] →
             s0 !! flag = Some (VBool false))
  ∧ s0 !! "lastError" = Some VNull
  ∧ s0 !! "searchText" = Some (VStr "")
  ∧ s0 !! filteredKey entityName = Some (VItems [])
  ∧ (itemsKey entityName ≠ "togglingStatus" →
     s0 !! itemsKey entityName = Some (VItems []))
  ∧ (∀ k, k ∉ (createReset (T:=T) entityName []).*1 → s0 !! k = s !! k).
Proof.
  intros s0.
  assert (Happ : merge (createReset entityName customFields) s
                 = merge customFields s0).
  { unfold s0, createReset. rewrite app_nil_r. apply merge_app. }
  split; [exact Happ|].
  split; [intros k v Hnd Hin; rewrite Happ; apply merge_lookup_nodup; assumption|].
  assert (Hkept : ∀ k, k ∉ (createReset (T:=T) entityName []).*1 → s0 !! k = s !! k).
  { intros k Hk. apply merge_lookup_other, Hk. }
  revert Hkept.
  unfold s0, createReset. rewrite app_nil_r, !merge_cons, merge_nil.
  intros Hkept.
  split.
  { intros flag Hin.
    repeat (apply elem_of_cons in Hin; destruct Hin as [->|Hin];
            [repeat (rewrite lookup_insert_ne by reset_neq);
             apply lookup_insert_eq|]).
    inversion Hin. }
  split; [repeat (rewrite lookup_insert_ne by reset_neq); apply lookup_insert_eq|].
  split; [repeat (rewrite lookup_insert_ne by reset_neq); apply lookup_insert_eq|].
  split; [repeat (rewrite lookup_insert_ne by reset_neq); apply lookup_insert_eq|].
  split.
  { intros Hfree.
    repeat (rewrite lookup_insert_ne by reset_neq); apply lookup_insert_eq. }
  exact Hkept.
Qed.

End Properties.

(** *** The actions on the example store *)

Lemma copyFilter_derives (entityName : string) :
  derivesFilteredView entityName (copyFilter entityName).
Proof.
  intros w. unfold copyFilter.
  destruct (store w !! itemsKey entityName) as [v|].
  - eexists. split; [reflexivity|]. cbn. split; [|reflexivity].
    intros k Hk. apply lookup_insert_ne. congruence.
  - exists w. repeat split; reflexivity.
Qed.

Lemma studentMethods_derived : filterIsDerived studentMethods "student".
Proof.
  intros f Hf. unfold studentMethods in Hf.
  rewrite lookup_singleton_eq in Hf. injection Hf as <-.
  apply copyFilter_derives.
Qed.

Lemma create_prepends_witness :
  ∃ w', createCreateAction passThrough genericApiError studentMethods
          (λ _, succeedWith ann) "student" tt (worldWith "student" [bob])
        = (Normal true, w')
        ∧ store w' !! itemsKey "student" = Some (VItems [ann; bob])
        ∧ countId studentId (studentId ann) [ann; bob]
          = S (countId studentId (studentId ann) [bob])
        ∧ (studentId ann ∉ ids studentId [bob] →
           countId studentId (studentId ann) [ann; bob] = 1).
Proof.
  apply (create_prepends studentId passThrough genericApiError studentMethods
           (λ _, succeedWith ann) "student" tt (worldWith "student" [bob])
           [bob] {| success := true; data := Some ann; error := None |} ann).
  - apply studentMethods_derived.
  - vm_compute. reflexivity.
  - reflexivity.
  - reflexivity.
Defined.

(** C2 as stated fails: the service answers a create call with a record
    whose identifier is already in the collection, and the collection
    then holds two records with that identifier. *)
Lemma create_duplicates_identifier :
  ∃ w', createCreateAction passThrough genericApiError studentMethods
          (λ _, succeedWith annActive) "student" tt (worldWith "student" [ann])
        = (Normal true, w')
        ∧ store w' !! itemsKey "student" = Some (VItems [annActive; ann])
        ∧ countId studentId (studentId annActive) [annActive; ann] = 2.
Proof.
  eexists. split; [vm_compute; reflexivity|]. split; vm_compute; reflexivity.
Qed.

Lemma update_replaces_in_place_witness :
  (∃ w' new,
      createUpdateAction studentId passThrough genericApiError studentMethods
        (λ _ _, succeedWith annActive) "student" "s1" tt
        (worldWith "student" [ann; bob]) = (Normal true, w')
      ∧ store w' !! itemsKey "student" = Some (VItems new)
      ∧ replacedInPlace studentId "s1" annActive [ann; bob] new)
  ∧ (∃ b w',
      createToggleStatusAction studentId passThrough genericApiError studentMethods
        (λ _ _, succeedWith annActive) "student" "s1" tt
        (worldWith "student" [ann; bob]) = (Normal b, w')
      ∧ (b = true ↔ itemsKey "student" ≠ "togglingStatus")
      ∧ (b = true →
         ∃ new, store w' !! itemsKey "student" = Some (VItems new)
                ∧ replacedInPlace studentId "s1" annActive [ann; bob] new)).
Proof.
  apply (update_replaces_in_place studentId passThrough genericApiError
           studentMethods (λ _ _, succeedWith annActive) (λ _ _, succeedWith annActive)
           "student" "s1" tt (worldWith "student" [ann; bob]) [ann; bob]
           {| success := true; data := Some annActive; error := None |}
           {| success := true; data := Some annActive; error := None |}
           annActive annActive).
  - apply studentMethods_derived.
  - vm_compute. reflexivity.
  - reflexivity.
  - reflexivity.
  - reflexivity.
  - reflexivity.
Defined.

(** The toggle scenario of the specification, run. *)
Example toggle_scenario :
  ∃ w', createToggleStatusAction studentId passThrough genericApiError studentMethods
          (λ _ _, succeedWith annActive) "student" "s1" tt
          (worldWith "student" [ann; bob]) = (Normal true, w')
        ∧ store w' !! "students" = Some (VItems [annActive; bob])
        ∧ store w' !! "filteredStudents" = Some (VItems [annActive; bob])
        ∧ store w' !! "togglingStatus" = Some (VBool false).
Proof.
  eexists. split; [vm_compute; reflexivity|]. repeat split; vm_compute; reflexivity.
Qed.

Lemma delete_removes_witness :
  ∃ w' kept,
    createDeleteAction studentId passThrough genericApiError studentMethods
      (λ _ _, Resolves {| success := true; data := None; error := None |})
      "student" "s1" (worldWith "student" [ann; bob]) = (Normal true, w')
    ∧ store w' !! itemsKey "student" = Some (VItems kept)
    ∧ ("s1" ∉ ids studentId kept)
    ∧ kept = List.filter (λ x, negb (String.eqb (studentId x) "s1")) [ann; bob]
    ∧ sublist kept [ann; bob]
    ∧ (∀ x, x ∈ [ann; bob] → studentId x ≠ "s1" → x ∈ kept)
    ∧ ("s1" ∈ ids studentId [ann; bob] → NoDup (ids studentId [ann; bob]) →
       S (length kept) = length [ann; bob]).
Proof.
  apply (delete_removes studentId passThrough genericApiError studentMethods
           (λ _ _, Resolves {| success := true; data := None; error := None |})
           "student" "s1" (worldWith "student" [ann; bob]) [ann; bob]
           {| success := true; data := None; error := None |}).
  - apply studentMethods_derived.
  - vm_compute. reflexivity.
  - reflexivity.
  - reflexivity.
Defined.

Lemma conflict_downgraded_else_error_witness :
  ∃ w', createFetchBySemesterAction passThrough genericApiError studentMethods
          (λ _, failWith 409 "Semester is in NotYet status") "student" "sem-1"
          false (worldWith "student" [ann; bob]) = (Normal tt, w')
     ∧ (409 = 409
        ∧ (includes "Semester is in NotYet status" "NotYet" = true
           ∨ includes "Semester is in NotYet status" "End" = true
           ∨ includes "Semester is in NotYet status"
               "semesters allow student enrollment" = true) →
        store w' !! itemsKey "student" = Some (VItems [])
        ∧ store w' !! "lastSemesterId" = Some (VStr "sem-1")
        ∧ store w' !! "lastError" = Some VNull)
     ∧ (¬ (409 = 409
           ∧ (includes "Semester is in NotYet status" "NotYet" = true
              ∨ includes "Semester is in NotYet status" "End" = true
              ∨ includes "Semester is in NotYet status"
                  "semesters allow student enrollment" = true)) →
        store w' !! "lastError"
        = Some (VErrorState {| es_message := "Semester is in NotYet status";
                               es_statusCode := 409;
                               es_timestamp := 0 |})
        ∧ store w' !! itemsKey "student"
          = store (worldWith "student" [ann; bob]) !! itemsKey "student"
        ∧ store w' !! "lastSemesterId"
          = store (worldWith "student" [ann; bob]) !! "lastSemesterId").
Proof.
  apply (conflict_downgraded_else_error passThrough genericApiError studentMethods
           (λ _, failWith 409 "Semester is in NotYet status") "student" "sem-1"
           false (worldWith "student" [ann; bob])
           {| success := false; data := None;
              error := Some {| message := "Semester is in NotYet status";
                               statusCode := 409 |} |}
           {| message := "Semester is in NotYet status"; statusCode := 409 |}).
  - apply studentMethods_derived.
  - vm_compute. reflexivity.
  - reflexivity.
  - reflexivity.
  - reflexivity.
Defined.

(** The conflict scenario of the specification, and an error that is
    not downgraded, run. *)
Example conflict_scenario :
  ∃ w', createFetchBySemesterAction passThrough genericApiError studentMethods
          (λ _, failWith 409 "Semester is in NotYet status") "student" "sem-1"
          false (worldWith "student" [ann; bob]) = (Normal tt, w')
        ∧ store w' !! "students" = Some (VItems [])
        ∧ store w' !! "lastSemesterId" = Some (VStr "sem-1")
        ∧ store w' !! "lastError" = Some VNull
        ∧ notifications w' = [].
Proof.
  eexists. split; [vm_compute; reflexivity|]. repeat split; vm_compute; reflexivity.
Qed.

Example plain_conflict_is_an_error :
  ∃ w', createFetchBySemesterAction passThrough genericApiError studentMethods
          (λ _, failWith 409 "Duplicate student code") "student" "sem-1"
          false (worldWith "student" [ann; bob]) = (Normal tt, w')
        ∧ store w' !! "students" = Some (VItems [ann; bob])
        ∧ store w' !! "lastSemesterId" = None
        ∧ store w' !! "lastError"
          = Some (VErrorState {| es_message := "Duplicate student code";
                                 es_statusCode := 409; es_timestamp := 0 |})
        ∧ notifications w'
          = [{| n_title := "Error"; n_description := "Duplicate student code" |}].
Proof.
  eexists. split; [vm_compute; reflexivity|]. repeat split; vm_compute; reflexivity.
Qed.

Lemma second_fetch_is_cached_witness :
  ∃ w1, createFetchBySemesterAction passThrough genericApiError studentMethods
          (λ _, succeedWith [ann; bob]) "student" "sem-1" false
          (emptyWorld "student") = (Normal tt, w1)
        ∧ calls w1 = calls (emptyWorld "student") ++ [CallFindAllBySemester "sem-1"]
        ∧ createFetchBySemesterAction passThrough genericApiError studentMethods
            (λ _, succeedWith [ann; bob]) "student" "sem-1" false w1
          = (Normal tt, w1).
Proof.
  apply (second_fetch_is_cached passThrough genericApiError studentMethods
           (λ _, succeedWith [ann; bob]) "sem-1" (emptyWorld "student")
           {| success := true; data := Some [ann; bob]; error := None |}
           [ann; bob]).
  - apply studentMethods_derived.
  - vm_compute. reflexivity.
  - reflexivity.
  - reflexivity.
Defined.

(** C3 as stated fails: the first fetch is answered with an error,
    which is not remembered as data of the semester, and the second
    fetch for the same semester calls the service again. *)
Lemma second_fetch_after_failure_calls_again :
  ∃ w1 w2,
    createFetchBySemesterAction passThrough genericApiError studentMethods
      (λ _, failWith 500 "Internal server error") "student" "sem-1" false
      (emptyWorld "student") = (Normal tt, w1)
    ∧ createFetchBySemesterAction passThrough genericApiError studentMethods
        (λ _, failWith 500 "Internal server error") "student" "sem-1" false w1
      = (Normal tt, w2)
    ∧ calls w2 = [CallFindAllBySemester "sem-1"; CallFindAllBySemester "sem-1"].
Proof.
  eexists _, _. split; [vm_compute; reflexivity|].
  split; vm_compute; reflexivity.
Qed.

(** The cache test reads the field [students]: in a store of another
    entity a second fetch calls the service again although the first
    one succeeded. *)
Example second_fetch_of_another_entity_calls_again :
  ∃ w1 w2,
    createFetchBySemesterAction passThrough genericApiError ∅
      (λ _, succeedWith [ann; bob]) "member" "sem-1" false
      (emptyWorld "member") = (Normal tt, w1)
    ∧ createFetchBySemesterAction passThrough genericApiError ∅
        (λ _, succeedWith [ann; bob]) "member" "sem-1" false w1
      = (Normal tt, w2)
    ∧ calls w2 = [CallFindAllBySemester "sem-1"; CallFindAllBySemester "sem-1"].
Proof.
  eexists _, _. split; [vm_compute; reflexivity|].
  split; vm_compute; reflexivity.
Qed.

(** The batch-import scenario of the specification, run. *)
Example batch_import_scenario :
  ∃ w', createBatchCreateAction passThrough genericApiError studentMethods
          (λ _, succeedWith [annActive; ann; bob]) "student" tt
          (worldWith "student" [bob; ann]) = (Normal true, w')
        ∧ store w' !! "students" = Some (VItems [annActive; ann; bob; bob; ann])
        ∧ store w' !! "creatingMany" = Some (VBool false)
        ∧ store w' !! "creatingManyStudents" = Some (VBool false).
Proof.
  eexists. split; [vm_compute; reflexivity|]. repeat split; vm_compute; reflexivity.
Qed.

(** *** Failures and successes on the example store *)

Lemma create_error_result_is_reported_witness :
  endsUntouched ["creating"] (CallCreate tt)
    (VErrorState (errorStateAt classroom studentExists))
    [{| n_title := "Conflict Error";
        n_description := "Student code already exists" |}]
    false
    (createCreateAction passThrough genericApiError studentMethods
       (λ _, answering (errorResult studentExists)) "student" tt) classroom.
Proof.
  exact (proj1 (create_error_result_is_reported passThrough genericApiError
    studentMethods (λ _, answering (errorResult studentExists))
    (λ _, answering (errorResult studentExists)) "student" tt classroom
    (errorResult studentExists) (errorResult studentExists) studentExists
    (ex_intro _ _ (conj eq_refl eq_refl)) eq_refl eq_refl
    (ex_intro _ _ (conj eq_refl eq_refl)) eq_refl eq_refl)).
Defined.

Lemma update_error_result_is_reported_witness :
  endsUntouched ["updating"] (CallUpdate "s1" tt)
    (VErrorState (errorStateAt classroom studentExists))
    [{| n_title := "Error"; n_description := "Student code already exists" |}]
    false
    (createUpdateAction studentId passThrough genericApiError studentMethods
       (λ _ _, answering (errorResult studentExists)) "student" "s1" tt) classroom.
Proof.
  exact (proj1 (update_error_result_is_reported studentId passThrough
    genericApiError studentMethods
    (λ _ _, answering (errorResult studentExists))
    (λ _ _, answering (errorResult studentExists))
    (λ _, answering (errorResult studentExists)) "student" "s1" tt classroom
    (errorResult studentExists) (errorResult studentExists)
    (errorResult studentExists) studentExists
    (ex_intro _ _ (conj eq_refl eq_refl)) eq_refl eq_refl
    (ex_intro _ _ (conj eq_refl eq_refl)) eq_refl eq_refl
    (ex_intro _ _ (conj eq_refl eq_refl)) eq_refl eq_refl)).
Defined.

Lemma empty_answer_fails_silently_witness :
  endsUntouched ["deleting"] (CallDelete "s1") VNull [] false
    (createDeleteAction studentId passThrough genericApiError studentMethods
       (λ _, answering emptyResult) "student" "s1") classroom.
Proof.
  exact (proj2 (proj2 (proj2 (proj2 (empty_answer_fails_silently studentId
    passThrough genericApiError studentMethods
    emptyResult emptyResult emptyResult emptyResult emptyResult
    (λ _, answering emptyResult) (λ _, answering emptyResult)
    (λ _ _, answering emptyResult) (λ _ _, answering emptyResult)
    (λ _, answering emptyResult) "student" "s1" tt classroom
    (ex_intro _ _ (conj eq_refl eq_refl)) eq_refl eq_refl
    (ex_intro _ _ (conj eq_refl eq_refl)) eq_refl eq_refl
    (ex_intro _ _ (conj eq_refl eq_refl)) eq_refl eq_refl
    (ex_intro _ _ (conj eq_refl eq_refl)) eq_refl eq_refl
    (ex_intro _ _ (conj eq_refl eq_refl)) eq_refl eq_refl))))).
Defined.

Lemma thrown_error_is_caught_witness :
  endsUntouched ["loading"] CallFindAll
    (VErrorState (errorStateAt classroom
       {| message := "Failed to fetch students"; statusCode := 500 |}))
    [{| n_title := "Error"; n_description := "Failed to fetch students" |}] tt
    (createFetchAction passThrough genericApiError studentMethods
       (throwing networkDown) "student") classroom.
Proof.
  exact (proj1 (thrown_error_is_caught studentId passThrough genericApiError
    studentMethods (throwing networkDown) (λ _, throwing networkDown)
    (λ _, throwing networkDown) (λ _, throwing networkDown)
    (λ _ _, throwing networkDown) (λ _ _, throwing networkDown)
    (λ _, throwing networkDown) "student" "sem-1" "s1" false tt classroom
    networkDown eq_refl eq_refl eq_refl eq_refl eq_refl eq_refl eq_refl eq_refl)).
Defined.

Lemma batch_create_prepends_all_witness :
  endsUpdated ["creatingMany"; creatingManyKey "student"] (CallCreateMany tt)
    "student" ([annActive; bob] ++ [ann; bob])
    (createBatchCreateAction passThrough genericApiError studentMethods
       (λ _, answering (okResult [annActive; bob])) "student" tt) classroom.
Proof.
  exact (proj1 (batch_create_prepends_all passThrough genericApiError
    studentMethods (λ _, answering (okResult [annActive; bob])) "student" tt
    classroom [ann; bob] (okResult [annActive; bob]) [annActive; bob]
    studentMethods_derived eq_refl
    (ex_intro _ _ (conj eq_refl eq_refl)) eq_refl)).
Defined.

Lemma successful_mutation_frame_witness :
  endsUpdated ["creating"] (CallCreate tt) "student" (annActive :: [ann; bob])
    (createCreateAction passThrough genericApiError studentMethods
       (λ _, answering (okResult annActive)) "student" tt) classroom.
Proof.
  exact (proj1 (successful_mutation_frame studentId passThrough genericApiError
    studentMethods (λ _, answering (okResult annActive))
    (λ _ _, answering (okResult annActive)) (λ _, answering (okResult tt))
    "student" "s1" tt classroom [ann; bob]
    (okResult annActive) (okResult annActive) (okResult tt) annActive annActive
    studentMethods_derived eq_refl
    (ex_intro _ _ (conj eq_refl eq_refl)) eq_refl
    (ex_intro _ _ (conj eq_refl eq_refl)) eq_refl
    (ex_intro _ _ (conj eq_refl eq_refl)) eq_refl)).
Defined.

Lemma fetch_replaces_collection_witness :
  ∃ w', createFetchAction passThrough genericApiError studentMethods
          (answering (okResult [bob])) "student" classroom = (Normal tt, w')
        ∧ store w' !! itemsKey "student" = Some (VItems [bob]).
Proof.
  destruct (fetch_replaces_collection passThrough genericApiError studentMethods
    (answering (okResult [bob])) "student" classroom (okResult [bob]) [bob]
    studentMethods_derived (ex_intro _ _ (conj eq_refl eq_refl)) eq_refl)
    as (w' & Hrun & Hitems & _).
  exists w'. split; [exact Hrun|exact Hitems].
Defined.

Lemma fetch_failure_keeps_collection_witness :
  endsUntouched ["loading"] CallFindAll
    (VErrorState (errorStateAt classroom studentExists))
    [{| n_title := "Error"; n_description := "Student code already exists" |}] tt
    (createFetchAction passThrough genericApiError studentMethods
       (answering (errorResult studentExists)) "student") classroom.
Proof.
  exact (fetch_failure_keeps_collection passThrough genericApiError studentMethods
    (answering (errorResult studentExists)) "student" classroom
    (errorResult studentExists) (ex_intro _ _ (conj eq_refl eq_refl)) eq_refl).
Defined.

Lemma getById_after_mutation_witness :
  ∃ w', createCreateAction passThrough genericApiError studentMethods
          (λ _, answering (okResult annActive)) "student" tt classroom
        = (Normal true, w')
        ∧ createGetById studentId "student" (studentId annActive) w'
          = (Normal (Some annActive), w').
Proof.
  exact (proj1 (getById_after_mutation studentId passThrough genericApiError
    studentMethods (λ _, answering (okResult annActive))
    (λ _ _, answering (okResult annActive)) (λ _, answering (okResult tt))
    "student" "s1" tt classroom [ann; bob]
    (okResult annActive) (okResult annActive) (okResult tt) annActive annActive
    studentMethods_derived eq_refl
    (ex_intro _ _ (conj eq_refl eq_refl)) eq_refl
    (ex_intro _ _ (conj eq_refl eq_refl)) eq_refl
    (ex_intro _ _ (conj eq_refl eq_refl)) eq_refl)).
Defined.

Lemma fetch_by_semester_calls_unless_cached_witness :
  ∃ w', createFetchBySemesterAction passThrough genericApiError studentMethods
          (λ _, answering (okResult [bob])) "student" "sem-1" true classroom
        = (Normal tt, w')
        ∧ (if negb true && hasCachedSemester (store classroom) "sem-1"
           then w' = classroom
           else calls w' = calls classroom ++ [CallFindAllBySemester "sem-1"]).
Proof.
  exact (proj2 (fetch_by_semester_calls_unless_cached passThrough genericApiError
    studentMethods (λ _, answering (okResult [bob])) "student" "sem-1" true
    classroom studentMethods_derived)).
Defined.

Lemma switching_semester_refetches_witness :
  ∃ w1 w2,
    createFetchBySemesterAction passThrough genericApiError studentMethods
      (λ _, answering (okResult [bob])) "student" "sem-1" false classroom
    = (Normal tt, w1)
    ∧ createFetchBySemesterAction passThrough genericApiError studentMethods
        (λ _, answering (okResult [bob])) "student" "sem-2" false w1
      = (Normal tt, w2)
    ∧ calls w2 = calls classroom
                 ++ [CallFindAllBySemester "sem-1"; CallFindAllBySemester "sem-2"].
Proof.
  apply (switching_semester_refetches passThrough genericApiError studentMethods
    (λ _, answering (okResult [bob])) "sem-1" "sem-2" classroom
    (okResult [bob]) [bob] studentMethods_derived).
  - vm_compute. reflexivity.
  - reflexivity.
  - reflexivity.
  - discriminate.
Defined.

Lemma field_setter_keeps_collection_witness :
  createSetSearchText studentMethods (filterFunctionKey "student") "ann"
  = createFieldSetter studentMethods "searchText" (filterFunctionKey "student")
      (VStr "ann")
  ∧ ∃ w', createFieldSetter studentMethods "searchText"
            (filterFunctionKey "student") (VStr "ann") classroom
          = (Normal tt, w')
          ∧ store w' !! "searchText" = Some (VStr "ann")
          ∧ (∀ k, k ≠ "searchText" → k ≠ filteredKey "student" →
                  store w' !! k = store classroom !! k)
          ∧ calls w' = calls classroom
          ∧ (studentMethods !! filterFunctionKey "student" = None →
             store w' = <["searchText" := VStr "ann"]> (store classroom)).
Proof.
  apply (field_setter_keeps_collection studentMethods "searchText"
    (filterFunctionKey "student") "student" (VStr "ann") "ann" classroom).
  - exact studentMethods_derived.
  - discriminate.
Defined.

(** The search filter on the example records. *)
Example search_by_name :
  createSearchFilter asciiLower (λ s, [Some (fullName s); None]) [ann; bob] "ANN"
  = [ann]
  ∧ createSearchFilter asciiLower (λ s, [Some (fullName s); None]) [ann; bob] ""
    = [ann; bob]
  ∧ createSearchFilter asciiLower (λ s, [None]) [ann; bob] "a" = [].
Proof. repeat split. Qed.

End StoreProperties.

(** ** Properties of the HTTP interceptors *)

Module HttpProperties.
Import Js HttpInterceptors.

Section Properties.

Context {TokenState : Type}.
Context (getValidAccessToken : TokenState → Awaited (option string) * TokenState).
Context (refreshAccessToken : TokenState → Awaited (option string) * TokenState).
Context (clearTokens : TokenState → TokenState).
Context (transport : Config → list Event → Transport).

Local Abbreviation World := (@World TokenState).
Local Abbreviation requestInterceptor :=
  (createRequestInterceptor getValidAccessToken).
Local Abbreviation client :=
  (httpClient getValidAccessToken refreshAccessToken clearTokens transport).

(** *** Authentication endpoints *)

Lemma isAuthEndpoint_spec (u : option string) :
  isAuthEndpoint u = true ↔
  ∃ s endpoint, u = Some s ∧ endpoint ∈ authEndpoints ∧ includes s endpoint = true.
Proof.
  unfold isAuthEndpoint. rewrite existsb_exists. split.
  - intros (endpoint & Hin & Hinc). destruct u as [s|]; [|discriminate].
    exists s, endpoint. rewrite list_elem_of_In. auto.
  - intros (s & endpoint & -> & Hin & Hinc). exists endpoint.
    rewrite <- list_elem_of_In. auto.
Qed.

(** *** The request interceptor *)

Lemma withAuthorization_header (c : Config) (token : string) :
  ∃ h, headers (withAuthorization c token) = Some h
       ∧ h !! "Authorization" = Some ("Bearer " +:+ token)
       ∧ (∀ k, k ≠ "Authorization" → h !! k = default ∅ (headers c) !! k).
Proof.
  eexists. split; [reflexivity|]. split.
  - apply lookup_insert_eq.
  - intros k Hk. apply lookup_insert_ne. congruence.
Qed.

Lemma withAuthorization_rest (c : Config) (token : string) :
  url (withAuthorization c token) = url c
  ∧ _retry (withAuthorization c token) = _retry c
  ∧ method (withAuthorization c token) = method c
  ∧ payload (withAuthorization c token) = payload c.
Proof. repeat split. Qed.

(** C5. The request interceptor never fails.  A request to an
    authentication endpoint (one whose URL contains a login or refresh
    path) comes back as it went in, and the token manager is not asked.
    For any other request: when the token manager yields a non-empty
    access token the request comes back with its headers, or no headers,
    extended by [Authorization: Bearer <token>], so that this is the
    value of its [Authorization] header, and with everything else as it
    was; when the token manager throws, or yields no token or an empty
    one, the request comes back unchanged. *)
Theorem request_interceptor_attaches_bearer (c : Config) (w : World) :
  (isAuthEndpoint (url c) = true → requestInterceptor c w = (c, w))
  ∧ (isAuthEndpoint (url c) = false →
     ∀ (r : Awaited (option string)) (t : TokenState),
       getValidAccessToken (tokens w) = (r, t) →
       match r with
       | Resolves (Some token) =>
           if String.eqb token ""
           then requestInterceptor c w = (c, mkWorld t (window w) (events w))
           else requestInterceptor c w
                = (mkConfig (url c)
                     (Some (<["Authorization" := "Bearer " +:+ token]>
                              (default ∅ (headers c))))
                     (_retry c) (method c) (payload c),
                   mkWorld t (window w) (events w))
                ∧ (headers (requestInterceptor c w).1 ≫= lookup "Authorization")
                  = Some ("Bearer " +:+ token)
                ∧ (∀ k, k ≠ "Authorization" →
                        (headers (requestInterceptor c w).1 ≫= lookup k)
                        = (headers c ≫= lookup k))
       | Resolves None =>
           requestInterceptor c w = (c, mkWorld t (window w) (events w))
       | RejectsWith _ =>
           requestInterceptor c w
           = (c, mkWorld t (window w) (events w ++ [EvConsoleWarn (url c)]))
       end).
Proof.
  unfold createRequestInterceptor. split.
  - intros ->. reflexivity.
  - intros -> r t Hget.
    unfold bind, awaitValidAccessToken. rewrite Hget.
    destruct r as [[token|]|e]; cbn; try reflexivity.
    destruct (String.eqb token ""); [reflexivity|].
    cbn. split; [reflexivity|]. split.
    + apply lookup_insert_eq.
    + intros k Hk. rewrite lookup_insert_ne by congruence.
      destruct (headers c); [reflexivity|apply lookup_empty].
Qed.

(** *** The response error handler *)

Lemma bind_step {A B} (m : Act A) (k : A → Act B) (w w' : World) (a : A) :
  m w = (a, w') → bind m k w = k a w'.
Proof. intros Hm. unfold bind. rewrite Hm. reflexivity. Qed.

Lemma refreshable_test (error : AxiosError) (originalRequest : Config) :
  refreshable error originalRequest →
  match response error with
  | Some r => (status r =? 401)%nat
  | None => false
  end
  && negb (flagTruthy (_retry originalRequest))
  && negb (isAuthEndpoint (url originalRequest)) = true.
Proof.
  intros (_ & (r & -> & Hs) & -> & ->). rewrite Hs. reflexivity.
Qed.

(** C6, as the code has it.  On a 401 from an endpoint that is not an
    authentication endpoint, for a request not yet retried, the handler
    asks for a refresh.  When the refresh yields a non-empty access
    token, what the handler returns is what the client returns for the
    original request, marked as retried and carrying
    [Authorization: Bearer <token>].  When the refresh yields no token,
    the handler clears the stored tokens, sets the window's address to
    the login page if there is a window, and rejects with the original
    error. *)
Theorem unauthorized_refreshes_then_reissues_or_logs_out {R}
    (httpClient : Config → World → R * World) (reject : Settled → R)
    (error : AxiosError) (originalRequest : Config) (w : World)
    (newAccessToken : option string) (t : TokenState) :
  refreshable error originalRequest →
  refreshAccessToken (tokens w) = (Resolves newAccessToken, t) →
  match newAccessToken with
  | Some token =>
      if String.eqb token ""
      then createResponseErrorHandler refreshAccessToken clearTokens
             httpClient reject error w
           = (reject (Rejected
                (mkError
                   (Some (mkConfig (url originalRequest) (headers originalRequest)
                            (Some true) (method originalRequest)
                            (payload originalRequest)))
                   (response error) (errorMessage error))),
              mkWorld (clearTokens t)
                (match window w with Some _ => Some "/login" | None => None end)
                (events w ++ [EvConsoleError "API Error"]))
      else createResponseErrorHandler refreshAccessToken clearTokens
             httpClient reject error w
           = httpClient
               (mkConfig (url originalRequest)
                  (Some (<["Authorization" := "Bearer " +:+ token]>
                           (default ∅ (headers originalRequest))))
                  (Some true) (method originalRequest) (payload originalRequest))
               (mkWorld t (window w) (events w))
  | None =>
      createResponseErrorHandler refreshAccessToken clearTokens
        httpClient reject error w
      = (reject (Rejected
           (mkError
              (Some (mkConfig (url originalRequest) (headers originalRequest)
                       (Some true) (method originalRequest)
                       (payload originalRequest)))
              (response error) (errorMessage error))),
         mkWorld (clearTokens t)
           (match window w with Some _ => Some "/login" | None => None end)
           (events w ++ [EvConsoleError "API Error"]))
  end.
Proof.
  intros Hr Hrefresh. pose proof (refreshable_test _ _ Hr) as Htest.
  destruct Hr as (Hc & _).
  unfold createResponseErrorHandler. rewrite Hc. cbn [isRetryableRequest negb].
  rewrite Htest.
  rewrite (bind_step _ _ w (mkWorld t (window w) (events w)) (Resolves newAccessToken))
    by (unfold awaitRefreshAccessToken; rewrite Hrefresh; reflexivity).
  destruct newAccessToken as [token|]; cbn [tokenTruthy].
  - destruct (String.eqb token ""); reflexivity.
  - reflexivity.
Qed.

(** A request already retried, a request to an authentication endpoint
    and a failure other than 401 are rejected with the error as it
    came: no refresh, no reissue. *)
Lemma handler_rejects_without_retry {R}
    (httpClient : Config → World → R * World) (reject : Settled → R)
    (error : AxiosError) (originalRequest : Config) (w : World) :
  config error = Some originalRequest →
  flagTruthy (_retry originalRequest) = true
  ∨ isAuthEndpoint (url originalRequest) = true
  ∨ (∀ r, response error = Some r → status r ≠ 401) →
  createResponseErrorHandler refreshAccessToken clearTokens
    httpClient reject error w
  = (reject (Rejected error),
     mkWorld (tokens w) (window w) (events w ++ [EvConsoleError "API Error"])).
Proof.
  intros Hc Hwhy. unfold createResponseErrorHandler. rewrite Hc.
  cbn [isRetryableRequest negb].
  assert (Htest : match response error with
                  | Some r => (status r =? 401)%nat
                  | None => false
                  end
                  && negb (flagTruthy (_retry originalRequest))
                  && negb (isAuthEndpoint (url originalRequest)) = false).
  { destruct Hwhy as [->|[->|Hs]].
    - rewrite andb_false_r. reflexivity.
    - rewrite andb_false_r. reflexivity.
    - destruct (response error) as [r|]; [|reflexivity].
      specialize (Hs r eq_refl). apply Nat.eqb_neq in Hs. rewrite Hs. reflexivity. }
  rewrite Htest. reflexivity.
Qed.

(** *** The client: at most one retry *)

Lemma sends_emit_console (w w' : World) (what : string) :
  events w' = events w ++ [EvConsoleError what] → sends w' = sends w.
Proof.
  intros He. unfold sends. rewrite He, omap_app. cbn. apply app_nil_r.
Qed.

Lemma sends_emit_send (w w' : World) (c : Config) :
  events w' = events w ++ [EvSend c] → sends w' = sends w ++ [c].
Proof. intros He. unfold sends. rewrite He, omap_app. reflexivity. Qed.

(** The request interceptor keeps the retry mark and the URL, and
    sends nothing. *)
Lemma requestInterceptor_keeps (c : Config) (w : World) :
  ∃ sent w1, requestInterceptor c w = (sent, w1)
             ∧ _retry sent = _retry c
             ∧ url sent = url c
             ∧ sends w1 = sends w.
Proof.
  unfold createRequestInterceptor.
  destruct (isAuthEndpoint (url c)); [exists c, w; repeat split|].
  unfold bind, awaitValidAccessToken.
  destruct (getValidAccessToken (tokens w)) as [[[token|]|e] t]; cbn.
  - destruct (String.eqb token ""); cbn; eexists _, _; repeat split.
  - eexists _, _; repeat split.
  - eexists _, _. split; [reflexivity|]. repeat split.
    unfold sends. cbn. rewrite omap_app. cbn. apply app_nil_r.
Qed.

(** What the handler does with the client it was given: it never calls
    it, or it calls it once, last, on the request marked as retried. *)
Lemma handler_calls_client_at_most_once {R}
    (httpClient : Config → World → R * World) (reject : Settled → R)
    (error : AxiosError) (w : World) :
  (∃ s w', createResponseErrorHandler refreshAccessToken clearTokens
             httpClient reject error w = (reject s, w')
           ∧ sends w' = sends w)
  ∨ (∃ originalRequest token w1,
       config error = Some originalRequest
       ∧ flagTruthy (_retry originalRequest) = false
       ∧ createResponseErrorHandler refreshAccessToken clearTokens
           httpClient reject error w
         = httpClient (withAuthorization (markRetried originalRequest) token) w1
       ∧ sends w1 = sends w).
Proof.
  destruct w as [t win evs].
  unfold createResponseErrorHandler.
  destruct (config error) as [originalRequest|] eqn:Hc.
  2:{ left. eexists _, _. split; [reflexivity|].
      apply (sends_emit_console _ _ "API Error (no config)"). reflexivity. }
  cbn [isRetryableRequest negb].
  destruct (match response error with
            | Some r => (status r =? 401)%nat
            | None => false
            end
            && negb (flagTruthy (_retry originalRequest))
            && negb (isAuthEndpoint (url originalRequest))) eqn:Htest.
  2:{ left. eexists _, _. split; [reflexivity|].
      apply (sends_emit_console _ _ "API Error"). reflexivity. }
  apply andb_true_iff in Htest as [Htest _].
  apply andb_true_iff in Htest as [_ Hflag]. apply negb_true_iff in Hflag.
  destruct (refreshAccessToken t) as [r t'] eqn:Hrefresh.
  rewrite (bind_step _ _ (mkWorld t win evs) (mkWorld t' win evs) r)
    by (unfold awaitRefreshAccessToken; cbn [tokens]; rewrite Hrefresh; reflexivity).
  destruct r as [[token|]|e].
  - cbn [tokenTruthy]. destruct (String.eqb token ""); cbn [negb].
    + left. eexists _, _. split; [reflexivity|].
      apply (sends_emit_console _ _ "API Error"). reflexivity.
    + right. exists originalRequest, token, (mkWorld t' win evs).
      split; [reflexivity|]. split; [exact Hflag|]. split; reflexivity.
  - left. eexists _, _. split; [reflexivity|].
      apply (sends_emit_console _ _ "API Error"). reflexivity.
  - left. eexists _, _. split; [reflexivity|]. reflexivity.
Qed.

Lemma client_unfold (n : nat) (c sent : Config) (w w1 : World) :
  requestInterceptor c w = (sent, w1) →
  client (S n) c w
  = match transport sent (events w1) with
    | Delivers r =>
        (Some (Fulfilled r),
         mkWorld (tokens w1) (window w1) (events w1 ++ [EvSend sent]))
    | FailsWith r msg =>
        createResponseErrorHandler refreshAccessToken clearTokens
          (client n) Some (mkError (Some sent) r msg)
          (mkWorld (tokens w1) (window w1) (events w1 ++ [EvSend sent]))
    end.
Proof.
  intros Hi. cbn [httpClient].
  rewrite (bind_step _ _ w w1 sent) by exact Hi.
  unfold bind, send. destruct (transport sent (events w1)); reflexivity.
Qed.

(** A request already marked as retried is sent once, and its promise
    settles as the transport answers. *)
Lemma client_retried (n : nat) (c : Config) (w : World) :
  flagTruthy (_retry c) = true →
  ∃ out w' sent ev,
    client (S n) c w = (Some out, w')
    ∧ sends w' = sends w ++ [sent]
    ∧ _retry sent = _retry c
    ∧ out = settles sent (transport sent ev).
Proof.
  intros Hflag.
  destruct (requestInterceptor_keeps c w) as (sent & w1 & Hi & Hretry & _ & Hsends).
  rewrite (client_unfold n c sent w w1 Hi).
  set (w2 := mkWorld (tokens w1) (window w1) (events w1 ++ [EvSend sent])).
  assert (Hsends2 : sends w2 = sends w ++ [sent]).
  { rewrite <- Hsends. apply sends_emit_send. reflexivity. }
  destruct (transport sent (events w1)) as [r|r msg] eqn:Ht.
  - exists (Fulfilled r), w2, sent, (events w1).
    rewrite Ht. repeat split; assumption.
  - rewrite (handler_rejects_without_retry _ _ _ sent) by
      (try reflexivity; left; rewrite Hretry; exact Hflag).
    eexists _, _, sent, (events w1). split; [reflexivity|].
    rewrite Ht. split; [|split; [exact Hretry|reflexivity]].
    rewrite <- Hsends2. apply (sends_emit_console _ _ "API Error"). reflexivity.
Qed.

(** On a first 401 outside the authentication endpoints, once the
    refresh has yielded a non-empty token, the handler hands the marked
    request, with the new token, to the client. *)
Lemma handler_reissues {R}
    (httpClient : Config → World → R * World) (reject : Settled → R)
    (error : AxiosError) (originalRequest : Config) (r401 : Response)
    (token : string) (t : TokenState) (w : World) :
  config error = Some originalRequest →
  response error = Some r401 →
  status r401 = 401 →
  isAuthEndpoint (url originalRequest) = false →
  flagTruthy (_retry originalRequest) = false →
  refreshAccessToken (tokens w) = (Resolves (Some token), t) →
  token ≠ "" →
  createResponseErrorHandler refreshAccessToken clearTokens
    httpClient reject error w
  = httpClient (withAuthorization (markRetried originalRequest) token)
      (mkWorld t (window w) (events w)).
Proof.
  intros Hc Hr H401 Hauth Hflag Hrefresh Htoken.
  unfold createResponseErrorHandler. rewrite Hc, Hr.
  cbn [isRetryableRequest negb].
  rewrite H401, Hflag, Hauth. cbn [Nat.eqb andb negb].
  rewrite (bind_step _ _ w (mkWorld t (window w) (events w)) (Resolves (Some token)))
    by (unfold awaitRefreshAccessToken; rewrite Hrefresh; reflexivity).
  cbn [tokenTruthy]. apply String.eqb_neq in Htoken. rewrite Htoken. reflexivity.
Qed.

(** The client on a request that fails after it was marked as retried. *)
Lemma client_retried_fails (n : nat) (c sent : Config) (w w1 : World)
    (r : option Response) (msg : string) :
  flagTruthy (_retry c) = true →
  requestInterceptor c w = (sent, w1) →
  transport sent (events w1) = FailsWith r msg →
  client (S n) c w
  = (Some (Rejected (mkError (Some sent) r msg)),
     mkWorld (tokens w1) (window w1)
       (events w1 ++ [EvSend sent; EvConsoleError "API Error"]))
  ∧ _retry sent = _retry c
  ∧ sends (mkWorld (tokens w1) (window w1)
             (events w1 ++ [EvSend sent; EvConsoleError "API Error"]))
    = sends w ++ [sent].
Proof.
  intros Hflag Hi Ht.
  destruct (requestInterceptor_keeps c w) as (s0 & w0 & Hi0 & Hretry & _ & Hsends).
  rewrite Hi in Hi0. injection Hi0 as <- <-.
  split; [|split; [exact Hretry|]].
  - rewrite (client_unfold n c sent w w1 Hi), Ht.
    rewrite (handler_rejects_without_retry _ _ _ sent)
      by (try reflexivity; left; rewrite Hretry; exact Hflag).
    cbn [tokens window events]. rewrite <- app_assoc. reflexivity.
  - unfold sends in *. cbn [events]. rewrite omap_app, Hsends. reflexivity.
Qed.

(** C1. The response error handler, and the client that runs it, retry
    a request at most once.

    The handler, whatever client it was given: on a 401 for a request
    outside the authentication endpoints that is not marked as retried,
    once the refresh has yielded a non-empty token, it returns what the
    client returns for the same request with [_retry] set to [true] and
    the header [Authorization: Bearer <token>]; on a 401 for a request
    that is marked as retried it rejects with the failure, asks for no
    refresh and does not call the client.

    The client: whatever the transport and the token manager do, a
    request settles, after one sending or two.  When the first sending
    is answered 401 and the refresh yields a token, the request goes out
    a second time, marked; when that sending fails too, with a 401 or
    otherwise, the promise is rejected with the second failure after
    exactly those two sendings, and the token manager is not asked for
    another refresh.  A request that comes in marked as retried and
    fails is rejected after its one sending. *)
Theorem retried_at_most_once (n : nat) (c : Config) (w : World) :
  (∀ (R : Type) (httpClient : Config → World → R * World) (reject : Settled → R)
     (error : AxiosError) (originalRequest : Config) (r401 : Response),
     config error = Some originalRequest →
     response error = Some r401 →
     status r401 = 401 →
     isAuthEndpoint (url originalRequest) = false →
     (flagTruthy (_retry originalRequest) = false →
      ∀ (token : string) (t : TokenState),
        refreshAccessToken (tokens w) = (Resolves (Some token), t) →
        token ≠ "" →
        createResponseErrorHandler refreshAccessToken clearTokens
          httpClient reject error w
        = httpClient
            (mkConfig (url originalRequest)
               (Some (<["Authorization" := "Bearer " +:+ token]>
                        (default ∅ (headers originalRequest))))
               (Some true) (method originalRequest) (payload originalRequest))
            (mkWorld t (window w) (events w)))
     ∧ (flagTruthy (_retry originalRequest) = true →
        createResponseErrorHandler refreshAccessToken clearTokens
          httpClient reject error w
        = (reject (Rejected error),
           mkWorld (tokens w) (window w)
             (events w ++ [EvConsoleError "API Error"]))))
  ∧ (∃ out w' first rest,
       client (S (S n)) c w = (Some out, w')
       ∧ sends w' = sends w ++ first :: rest
       ∧ (rest = []
          ∨ ∃ second ev,
              rest = [second]
              ∧ flagTruthy (_retry first) = false
              ∧ _retry second = Some true
              ∧ out = settles second (transport second ev))
       ∧ (flagTruthy (_retry c) = true →
          rest = [] ∧ ∃ ev, out = settles first (transport first ev)))
  ∧ (∀ (sent : Config) (w1 : World) (r401 : Response) (msg token : string)
       (t : TokenState),
       isAuthEndpoint (url c) = false →
       flagTruthy (_retry c) = false →
       requestInterceptor c w = (sent, w1) →
       transport sent (events w1) = FailsWith (Some r401) msg →
       status r401 = 401 →
       refreshAccessToken (tokens w1) = (Resolves (Some token), t) →
       token ≠ "" →
       client (S (S n)) c w
       = client (S n)
           (mkConfig (url sent)
              (Some (<["Authorization" := "Bearer " +:+ token]>
                       (default ∅ (headers sent))))
              (Some true) (method sent) (payload sent))
           (mkWorld t (window w1) (events w1 ++ [EvSend sent]))
       ∧ ∀ (sent' : Config) (w3 : World) (r' : option Response) (msg' : string),
           requestInterceptor
             (mkConfig (url sent)
                (Some (<["Authorization" := "Bearer " +:+ token]>
                         (default ∅ (headers sent))))
                (Some true) (method sent) (payload sent))
             (mkWorld t (window w1) (events w1 ++ [EvSend sent])) = (sent', w3) →
           transport sent' (events w3) = FailsWith r' msg' →
           client (S (S n)) c w
           = (Some (Rejected (mkError (Some sent') r' msg')),
              mkWorld (tokens w3) (window w3)
                (events w3 ++ [EvSend sent'; EvConsoleError "API Error"]))
           ∧ _retry sent' = Some true
           ∧ sends (mkWorld (tokens w3) (window w3)
                      (events w3 ++ [EvSend sent'; EvConsoleError "API Error"]))
             = sends w ++ [sent; sent'])
  ∧ (∀ (sent : Config) (w1 : World) (r : option Response) (msg : string),
       flagTruthy (_retry c) = true →
       requestInterceptor c w = (sent, w1) →
       transport sent (events w1) = FailsWith r msg →
       client (S (S n)) c w
       = (Some (Rejected (mkError (Some sent) r msg)),
          mkWorld (tokens w1) (window w1)
            (events w1 ++ [EvSend sent; EvConsoleError "API Error"]))
       ∧ sends (mkWorld (tokens w1) (window w1)
                  (events w1 ++ [EvSend sent; EvConsoleError "API Error"]))
         = sends w ++ [sent]).
Proof.
  split; [|split; [|split]].
  - intros R k reject error originalRequest r401 Hc Hr H401 Hauth. split.
    + intros Hflag token t Hrefresh Htoken.
      exact (handler_reissues k reject error originalRequest r401 token t w
               Hc Hr H401 Hauth Hflag Hrefresh Htoken).
    + intros Hflag.
      apply (handler_rejects_without_retry k reject error originalRequest w Hc).
      left. exact Hflag.
  - destruct (decide (flagTruthy (_retry c) = true)) as [Hflag|Hflag].
    { destruct (client_retried (S n) c w Hflag)
        as (out & w' & sent & ev & H1 & H2 & _ & H4).
      exists out, w', sent, []. split; [exact H1|]. split; [exact H2|].
      split; [left; reflexivity|]. intros _. split; [reflexivity|].
      exists ev. exact H4. }
    destruct (requestInterceptor_keeps c w) as (sent & w1 & Hi & Hretry & _ & Hsends).
    rewrite (client_unfold (S n) c sent w w1 Hi).
    set (w2 := mkWorld (tokens w1) (window w1) (events w1 ++ [EvSend sent])).
    assert (Hsends2 : sends w2 = sends w ++ [sent]).
    { rewrite <- Hsends. apply sends_emit_send. reflexivity. }
    destruct (transport sent (events w1)) as [r|r msg].
    { exists (Fulfilled r), w2, sent, []. split; [reflexivity|].
      split; [exact Hsends2|]. split; [left; reflexivity|].
      intros Hyes. destruct (Hflag Hyes). }
    destruct (handler_calls_client_at_most_once (client (S n)) Some
                (mkError (Some sent) r msg) w2)
      as [(s & w' & Hh & Hs)|(originalRequest & token & w3 & Hc & Hnot & Hh & Hs)].
    + exists s, w', sent, []. split; [exact Hh|].
      split; [rewrite Hs; exact Hsends2|]. split; [left; reflexivity|].
      intros Hyes. destruct (Hflag Hyes).
    + cbn in Hc. injection Hc as <-.
      destruct (client_retried n (withAuthorization (markRetried sent) token) w3)
        as (out & w' & second & ev & H1 & H2 & H3 & H4); [reflexivity|].
      exists out, w', sent, [second]. split; [rewrite Hh; exact H1|].
      split; [rewrite H2, Hs, Hsends2, <- app_assoc; reflexivity|].
      split.
      * right. exists second, ev. repeat split; [exact Hnot|exact H3|exact H4].
      * intros Hyes. destruct (Hflag Hyes).
  - intros sent w1 r401 msg token t Hauth Hflag Hi Ht H401 Hrefresh Htoken.
    destruct (requestInterceptor_keeps c w)
      as (s0 & w0 & Hi0 & Hretry & Hurl & Hsends).
    rewrite Hi in Hi0. injection Hi0 as <- <-.
    assert (Hfirst :
      client (S (S n)) c w
      = client (S n) (withAuthorization (markRetried sent) token)
          (mkWorld t (window w1) (events w1 ++ [EvSend sent]))).
    { rewrite (client_unfold (S n) c sent w w1 Hi), Ht.
      apply (handler_reissues _ _ _ sent r401 token t); try reflexivity.
      - exact H401.
      - rewrite Hurl. exact Hauth.
      - rewrite Hretry. exact Hflag.
      - exact Hrefresh.
      - exact Htoken. }
    split; [exact Hfirst|].
    intros sent' w3 r' msg' Hi' Ht'.
    destruct (client_retried_fails n (withAuthorization (markRetried sent) token)
                sent' (mkWorld t (window w1) (events w1 ++ [EvSend sent])) w3
                r' msg' eq_refl Hi' Ht') as (Hrun & Hmark & Hs).
    split; [rewrite Hfirst; exact Hrun|]. split; [exact Hmark|].
    rewrite Hs, (sends_emit_send w1 _ sent) by reflexivity.
    rewrite Hsends, <- app_assoc. reflexivity.
  - intros sent w1 r msg Hflag Hi Ht.
    destruct (client_retried_fails (S n) c sent w w1 r msg Hflag Hi Ht)
      as (Hrun & _ & Hs).
    split; [exact Hrun|exact Hs].
Qed.

(** *** What the interceptors leave alone *)

(** X16. The request interceptor changes nothing of a request but its
    [Authorization] header: URL, method, payload and retry mark are
    kept, every other header is kept, nothing is sent and the window is
    not touched.  The headers are either exactly as they were, or the
    [Authorization] header is "Bearer " followed by a non-empty token,
    replacing any value it had. *)
Theorem request_interceptor_touches_only_authorization (c : Config) (w : World) :
  ∃ sent w',
    requestInterceptor c w = (sent, w')
    ∧ url sent = url c ∧ method sent = method c ∧ payload sent = payload c
    ∧ _retry sent = _retry c
    ∧ window w' = window w ∧ sends w' = sends w
    ∧ (∀ k, k ≠ "Authorization" →
            default ∅ (headers sent) !! k = default ∅ (headers c) !! k)
    ∧ (sent = c
       ∨ ∃ token, token ≠ ""
                  ∧ default ∅ (headers sent) !! "Authorization"
                    = Some ("Bearer " +:+ token)).
Proof.
  unfold createRequestInterceptor.
  destruct (isAuthEndpoint (url c)).
  { exists c, w. repeat split. left. reflexivity. }
  unfold bind, awaitValidAccessToken.
  destruct (getValidAccessToken (tokens w)) as [[[token|]|e] t]; cbn.
  - destruct (String.eqb_spec token "") as [->|Hne]; cbn.
    + eexists _, _. repeat split. left. reflexivity.
    + eexists _, _. split; [reflexivity|]. cbn. repeat split.
      * intros k Hk. apply lookup_insert_ne. congruence.
      * right. exists token. split; [exact Hne|]. apply lookup_insert_eq.
  - eexists _, _. repeat split. left. reflexivity.
  - eexists _, _. split; [reflexivity|]. cbn. repeat split.
    + unfold sends. cbn. rewrite omap_app. cbn. apply app_nil_r.
    + left. reflexivity.
Qed.

(** X17. When the refresh itself throws, the handler rejects with the
    thrown value and does nothing else: the stored tokens are not
    cleared, the window is not redirected, nothing is logged and the
    client is not called. *)
Theorem refresh_throw_is_propagated {R}
    (httpClient : Config → World → R * World) (reject : Settled → R)
    (error : AxiosError) (originalRequest : Config) (w : World)
    (thrown : JsError) (t : TokenState) :
  refreshable error originalRequest →
  refreshAccessToken (tokens w) = (RejectsWith thrown, t) →
  createResponseErrorHandler refreshAccessToken clearTokens
    httpClient reject error w
  = (reject (RejectedThrown thrown), mkWorld t (window w) (events w)).
Proof.
  intros Hr Hrefresh. pose proof (refreshable_test _ _ Hr) as Htest.
  destruct Hr as (Hc & _).
  unfold createResponseErrorHandler. rewrite Hc. cbn [isRetryableRequest negb].
  rewrite Htest.
  rewrite (bind_step _ _ w (mkWorld t (window w) (events w)) (RejectsWith thrown))
    by (unfold awaitRefreshAccessToken; rewrite Hrefresh; reflexivity).
  reflexivity.
Qed.

(** X18. An error that is not a first 401 from an endpoint outside the
    authentication endpoints (no config, no response, another status, a
    request already retried, or a login or refresh request) is rejected
    as it came: no refresh is asked for, the stored tokens and the
    window are untouched, the client is not called, and one line is
    logged. *)
Theorem other_failures_are_rejected_as_they_came {R}
    (httpClient : Config → World → R * World) (reject : Settled → R)
    (error : AxiosError) (w : World) :
  (∀ originalRequest, ¬ refreshable error originalRequest) →
  ∃ what,
    createResponseErrorHandler refreshAccessToken clearTokens
      httpClient reject error w
    = (reject (Rejected error),
       mkWorld (tokens w) (window w) (events w ++ [EvConsoleError what])).
Proof.
  intros Hnot. unfold createResponseErrorHandler.
  destruct (config error) as [originalRequest|] eqn:Hc.
  2:{ eexists. reflexivity. }
  cbn [isRetryableRequest negb].
  destruct (match response error with
            | Some r => (status r =? 401)%nat
            | None => false
            end
            && negb (flagTruthy (_retry originalRequest))
            && negb (isAuthEndpoint (url originalRequest))) eqn:Htest.
  2:{ eexists. reflexivity. }
  exfalso. apply (Hnot originalRequest).
  apply andb_true_iff in Htest as [Htest Hauth].
  apply andb_true_iff in Htest as [Hstatus Hflag].
  apply negb_true_iff in Hauth, Hflag.
  split; [exact Hc|]. split; [|split; assumption].
  destruct (response error) as [r|]; [|discriminate].
  exists r. split; [reflexivity|]. apply Nat.eqb_eq, Hstatus.
Qed.

(** *** The client on whole requests *)

Lemma request_window (c : Config) (w : World) (sent : Config) (w1 : World) :
  requestInterceptor c w = (sent, w1) → window w1 = window w.
Proof.
  unfold createRequestInterceptor.
  destruct (isAuthEndpoint (url c)); [intros [= <- <-]; reflexivity|].
  unfold bind, awaitValidAccessToken.
  destruct (getValidAccessToken (tokens w)) as [[[token|]|e] t]; cbn.
  - destruct (String.eqb token ""); cbn; intros [= <- <-]; reflexivity.
  - intros [= <- <-]. reflexivity.
  - intros [= <- <-]. reflexivity.
Qed.


(** X19. A request to an authentication endpoint goes out exactly as
    it was given, once, and settles as the transport answers, a 401
    included: the token manager is never asked and its state, like the
    window, is untouched. *)
Theorem auth_endpoint_request_is_sent_as_is (n : nat) (c : Config) (w : World) :
  isAuthEndpoint (url c) = true →
  client (S n) c w
  = (Some (settles c (transport c (events w))),
     mkWorld (tokens w) (window w)
       (events w ++ EvSend c ::
          match transport c (events w) with
          | Delivers _ => []
          | FailsWith _ _ => [EvConsoleError "API Error"]
          end)).
Proof.
  intros Hauth.
  assert (Hi : requestInterceptor c w = (c, w)).
  { unfold createRequestInterceptor. rewrite Hauth. reflexivity. }
  rewrite (client_unfold n c c w w Hi).
  destruct (transport c (events w)) as [r|r msg]; [reflexivity|].
  rewrite (handler_rejects_without_retry _ _ _ c)
    by (try reflexivity; right; left; exact Hauth).
  cbn. rewrite <- app_assoc. reflexivity.
Qed.

(** X20. Recovery from an expired token.  A request outside the
    authentication endpoints, not yet retried, is answered 401; the
    refresh yields a non-empty token; the request, marked as retried and
    carrying the new token, passes the request interceptor again and is
    delivered.  Then the caller's promise is fulfilled with the second
    answer, and the request was sent exactly twice. *)
Theorem expired_token_is_recovered (n : nat) (c sent sent' : Config)
    (w w1 w3 : World) (r401 r : Response) (msg token : string) (t : TokenState) :
  isAuthEndpoint (url c) = false →
  flagTruthy (_retry c) = false →
  requestInterceptor c w = (sent, w1) →
  transport sent (events w1) = FailsWith (Some r401) msg →
  status r401 = 401 →
  refreshAccessToken (tokens w1) = (Resolves (Some token), t) →
  token ≠ "" →
  requestInterceptor
    (mkConfig (url sent)
       (Some (<["Authorization" := "Bearer " +:+ token]> (default ∅ (headers sent))))
       (Some true) (method sent) (payload sent))
    (mkWorld t (window w1) (events w1 ++ [EvSend sent])) = (sent', w3) →
  transport sent' (events w3) = Delivers r →
  client (S (S n)) c w
  = (Some (Fulfilled r),
     mkWorld (tokens w3) (window w3) (events w3 ++ [EvSend sent']))
  ∧ sends w3 ++ [sent'] = sends w ++ [sent; sent'].
Proof.
  intros Hauth Hflag Hi Ht H401 Hrefresh Htoken Hi' Ht'.
  destruct (requestInterceptor_keeps c w) as (s0 & w0 & Hi0 & Hretry & Hurl & Hsends).
  rewrite Hi in Hi0. injection Hi0 as <- <-.
  change (mkConfig (url sent)
            (Some (<["Authorization" := "Bearer " +:+ token]>
                     (default ∅ (headers sent))))
            (Some true) (method sent) (payload sent))
    with (withAuthorization (markRetried sent) token) in Hi'.
  destruct (requestInterceptor_keeps (withAuthorization (markRetried sent) token)
              (mkWorld t (window w1) (events w1 ++ [EvSend sent])))
    as (s0 & w0 & Hi0 & _ & _ & Hsends').
  rewrite Hi' in Hi0. injection Hi0 as <- <-.
  split.
  - rewrite (client_unfold (S n) c sent w w1 Hi), Ht.
    unfold createResponseErrorHandler. cbn [config response isRetryableRequest negb].
    rewrite H401, Hretry, Hflag, Hurl, Hauth. cbn [Nat.eqb andb negb].
    rewrite (bind_step _ _ _ (mkWorld t (window w1) (events w1 ++ [EvSend sent]))
               (Resolves (Some token)))
      by (unfold awaitRefreshAccessToken; cbn [tokens]; rewrite Hrefresh; reflexivity).
    cbn [tokenTruthy]. apply String.eqb_neq in Htoken. rewrite Htoken. cbn [negb].
    rewrite (client_unfold n _ sent' _ w3 Hi'), Ht'. reflexivity.
  - rewrite Hsends'.
    rewrite (sends_emit_send w1 _ sent) by reflexivity.
    rewrite Hsends, <- app_assoc. reflexivity.
Qed.

(** X21. The end of a session.  A request outside the authentication
    endpoints, not yet retried, is answered 401 and the refresh yields no
    token.  Then the caller's promise is rejected with the 401, the
    request was sent exactly once, the stored tokens are cleared and the
    window, if there is one, shows the login page. *)
Theorem failed_refresh_ends_the_session (n : nat) (c sent : Config)
    (w w1 : World) (r401 : Response) (msg : string) (t : TokenState) :
  isAuthEndpoint (url c) = false →
  flagTruthy (_retry c) = false →
  requestInterceptor c w = (sent, w1) →
  transport sent (events w1) = FailsWith (Some r401) msg →
  status r401 = 401 →
  refreshAccessToken (tokens w1) = (Resolves None, t) →
  ∃ w',
    client (S n) c w
    = (Some (Rejected
         (mkError
            (Some (mkConfig (url sent) (headers sent) (Some true)
                     (method sent) (payload sent)))
            (Some r401) msg)), w')
    ∧ tokens w' = clearTokens t
    ∧ window w' = match window w with Some _ => Some "/login" | None => None end
    ∧ sends w' = sends w ++ [sent].
Proof.
  intros Hauth Hflag Hi Ht H401 Hrefresh.
  destruct (requestInterceptor_keeps c w) as (s0 & w0 & Hi0 & Hretry & Hurl & Hsends).
  rewrite Hi in Hi0. injection Hi0 as <- <-.
  pose proof (request_window c w sent w1 Hi) as Hwin.
  change (mkConfig (url sent) (headers sent) (Some true) (method sent) (payload sent))
    with (markRetried sent).
  rewrite (client_unfold n c sent w w1 Hi), Ht.
  unfold createResponseErrorHandler. cbn [config response isRetryableRequest negb].
  rewrite H401, Hretry, Hflag, Hurl, Hauth. cbn [Nat.eqb andb negb].
  rewrite (bind_step _ _ _ (mkWorld t (window w1) (events w1 ++ [EvSend sent]))
             (Resolves None))
    by (unfold awaitRefreshAccessToken; cbn [tokens]; rewrite Hrefresh; reflexivity).
  eexists. split; [reflexivity|]. cbn [tokens window].
  split; [reflexivity|]. split; [rewrite Hwin; reflexivity|].
  rewrite <- Hsends.
  rewrite (sends_emit_console
             (mkWorld t (window w1) (events w1 ++ [EvSend sent])) _ "API Error")
    by reflexivity.
  apply sends_emit_send. reflexivity.
Qed.

(** X22. A request counts as a request to an authentication endpoint
    exactly when its URL is defined and contains one of the four login
    and refresh paths somewhere: an absolute URL, a prefixed path or a
    path followed by a query string all count, and a request without a
    URL does not. *)
Theorem auth_endpoint_is_a_substring_test (u : option string) :
  isAuthEndpoint u = true ↔
  ∃ s before endpoint after,
    u = Some s
    ∧ endpoint ∈ ["/auth/admin/login"; "/auth/user/login";
                  "/auth/admin/refresh"; "/auth/user/refresh"]
    ∧ s = before +:+ endpoint +:+ after.
Proof.
  rewrite isAuthEndpoint_spec. split.
  - intros (s & endpoint & -> & Hin & Hinc).
    apply JsFacts.includes_spec in Hinc as (before & after & ->).
    exists (before +:+ endpoint +:+ after), before, endpoint, after.
    repeat split. exact Hin.
  - intros (s & before & endpoint & after & -> & Hin & ->).
    exists (before +:+ endpoint +:+ after), endpoint. repeat split; [exact Hin|].
    apply JsFacts.includes_spec. exists before, after. reflexivity.
Qed.

End Properties.

(** *** The interceptors on the example environment *)

Lemma request_interceptor_attaches_bearer_witness :
  (createRequestInterceptor simpleGetValid getStudents (browser freshTokens)
   = (mkConfig (Some "/students") (Some (<["Authorization" := "Bearer old"]> ∅))
        None "GET" "",
      browser freshTokens)
   ∧ (headers (createRequestInterceptor simpleGetValid getStudents
                 (browser freshTokens)).1 ≫= lookup "Authorization")
     = Some "Bearer old"
   ∧ (∀ k, k ≠ "Authorization" →
           (headers (createRequestInterceptor simpleGetValid getStudents
                       (browser freshTokens)).1 ≫= lookup k)
           = None))
  ∧ createRequestInterceptor simpleGetValid postLogin (browser freshTokens)
    = (postLogin, browser freshTokens)
  ∧ createRequestInterceptor brokenGetValid getStudents (browser freshTokens)
    = (getStudents,
       mkWorld freshTokens (Some "/dashboard") [EvConsoleWarn (Some "/students")]).
Proof.
  split; [|split].
  - exact (proj2 (request_interceptor_attaches_bearer simpleGetValid getStudents
                    (browser freshTokens))
             eq_refl (Resolves (Some "old")) freshTokens eq_refl).
  - exact (proj1 (request_interceptor_attaches_bearer simpleGetValid postLogin
                    (browser freshTokens)) eq_refl).
  - exact (proj2 (request_interceptor_attaches_bearer brokenGetValid getStudents
                    (browser freshTokens))
             eq_refl (RejectsWith (Thrown "storage unavailable")) freshTokens
             eq_refl).
Defined.

(** The three cases of the request interceptor, run. *)
Example login_request_passes_through :
  createRequestInterceptor simpleGetValid postLogin (browser freshTokens)
  = (postLogin, browser freshTokens).
Proof. reflexivity. Qed.

Example request_gets_bearer_header :
  ∃ sent h,
    createRequestInterceptor simpleGetValid getStudents (browser freshTokens)
    = (sent, browser freshTokens)
    ∧ headers sent = Some h
    ∧ h !! "Authorization" = Some "Bearer old"
    ∧ url sent = Some "/students".
Proof. eexists _, _. repeat split; vm_compute; reflexivity. Qed.

Example request_goes_out_bare_when_token_fails :
  createRequestInterceptor brokenGetValid getStudents (browser freshTokens)
  = (getStudents,
     mkWorld freshTokens (Some "/dashboard") [EvConsoleWarn (Some "/students")]).
Proof. reflexivity. Qed.

Lemma unauthorized_refreshes_then_reissues_or_logs_out_witness :
  createResponseErrorHandler simpleRefresh simpleClear
    (httpClient simpleGetValid simpleRefresh simpleClear (acceptsOnly "new") 1)
    Some (unauthorized getStudents) (browser freshTokens)
  = httpClient simpleGetValid simpleRefresh simpleClear (acceptsOnly "new") 1
      (mkConfig (Some "/students") (Some (<["Authorization" := "Bearer new"]> ∅))
         (Some true) "GET" "")
      (mkWorld {| stored := Some "new"; nextToken := Some "new" |}
         (window (browser freshTokens)) (events (browser freshTokens))).
Proof.
  apply (unauthorized_refreshes_then_reissues_or_logs_out simpleRefresh simpleClear
           (httpClient simpleGetValid simpleRefresh simpleClear (acceptsOnly "new") 1)
           Some (unauthorized getStudents) getStudents (browser freshTokens)
           (Some "new") {| stored := Some "new"; nextToken := Some "new" |}).
  - unfold refreshable. repeat split; try reflexivity.
    eexists. split; reflexivity.
  - reflexivity.
Defined.

(** C6 as stated fails: where there is no window, the handler clears
    the stored tokens and rejects, and no address is set to the login
    page. *)
Lemma no_window_no_redirect :
  ∃ w',
    createResponseErrorHandler simpleRefresh simpleClear
      (httpClient simpleGetValid simpleRefresh simpleClear alwaysUnauthorized 1)
      Some (unauthorized getStudents) (server spentTokens)
    = (Some (Rejected
         (mkError (Some (mkConfig (Some "/students") None (Some true) "GET" ""))
            (Some denied) "401")), w')
    ∧ stored (tokens w') = None
    ∧ window w' ≠ Some "/login".
Proof.
  eexists. split; [vm_compute; reflexivity|]. split; [reflexivity|]. discriminate.
Qed.

(** In a browser the same failure ends on the login page. *)
Example failed_refresh_logs_out_in_browser :
  createResponseErrorHandler simpleRefresh simpleClear
    (httpClient simpleGetValid simpleRefresh simpleClear alwaysUnauthorized 1)
    Some (unauthorized getStudents) (browser spentTokens)
  = (Some (Rejected
       (mkError (Some (mkConfig (Some "/students") None (Some true) "GET" ""))
          (Some denied) "401")),
     mkWorld {| stored := None; nextToken := None |} (Some "/login")
       [EvConsoleError "API Error"]).
Proof. vm_compute. reflexivity. Qed.

Lemma retried_at_most_once_witness :
  createResponseErrorHandler simpleRefresh simpleClear
    (httpClient simpleGetValid simpleRefresh simpleClear alwaysUnauthorized 1)
    Some (unauthorized getStudents) (browser freshTokens)
  = httpClient simpleGetValid simpleRefresh simpleClear alwaysUnauthorized 1
      (mkConfig (Some "/students") (Some (<["Authorization" := "Bearer new"]> ∅))
         (Some true) "GET" "")
      (mkWorld renewedTokens (Some "/dashboard") [])
  ∧ createResponseErrorHandler simpleRefresh simpleClear
      (httpClient simpleGetValid simpleRefresh simpleClear alwaysUnauthorized 1)
      Some
      (unauthorized (mkConfig (Some "/students") None (Some true) "GET" ""))
      (browser freshTokens)
    = (Some (Rejected
         (unauthorized (mkConfig (Some "/students") None (Some true) "GET" ""))),
       mkWorld freshTokens (Some "/dashboard") [EvConsoleError "API Error"])
  ∧ httpClient simpleGetValid simpleRefresh simpleClear alwaysUnauthorized 2
      getStudents (browser freshTokens)
    = (Some (Rejected
         (mkError
            (Some (mkConfig (Some "/students")
                     (Some (<["Authorization" := "Bearer new"]> ∅))
                     (Some true) "GET" ""))
            (Some denied) "401")),
       mkWorld renewedTokens (Some "/dashboard")
         [EvSend (mkConfig (Some "/students")
                    (Some (<["Authorization" := "Bearer old"]> ∅)) None "GET" "");
          EvSend (mkConfig (Some "/students")
                    (Some (<["Authorization" := "Bearer new"]> ∅))
                    (Some true) "GET" "");
          EvConsoleError "API Error"])
  ∧ httpClient simpleGetValid simpleRefresh simpleClear alwaysUnauthorized 2
      (mkConfig (Some "/students") None (Some true) "GET" "") (browser freshTokens)
    = (Some (Rejected
         (mkError
            (Some (mkConfig (Some "/students")
                     (Some (<["Authorization" := "Bearer old"]> ∅))
                     (Some true) "GET" ""))
            (Some denied) "401")),
       mkWorld freshTokens (Some "/dashboard")
         [EvSend (mkConfig (Some "/students")
                    (Some (<["Authorization" := "Bearer old"]> ∅))
                    (Some true) "GET" "");
          EvConsoleError "API Error"]).
Proof.
  pose proof (retried_at_most_once simpleGetValid simpleRefresh simpleClear
                alwaysUnauthorized 0 getStudents (browser freshTokens))
    as (Hhandler & _ & Hclient & _).
  pose proof (retried_at_most_once simpleGetValid simpleRefresh simpleClear
                alwaysUnauthorized 0
                (mkConfig (Some "/students") None (Some true) "GET" "")
                (browser freshTokens))
    as (Hhandler' & _ & _ & Hretried).
  split; [|split; [|split]].
  - exact (proj1 (Hhandler _
                    (httpClient simpleGetValid simpleRefresh simpleClear
                       alwaysUnauthorized 1)
                    Some (unauthorized getStudents) getStudents denied
                    eq_refl eq_refl eq_refl eq_refl)
             eq_refl "new" renewedTokens eq_refl ltac:(discriminate)).
  - exact (proj2 (Hhandler' _
                    (httpClient simpleGetValid simpleRefresh simpleClear
                       alwaysUnauthorized 1)
                    Some
                    (unauthorized
                       (mkConfig (Some "/students") None (Some true) "GET" ""))
                    (mkConfig (Some "/students") None (Some true) "GET" "") denied
                    eq_refl eq_refl eq_refl eq_refl)
             eq_refl).
  - destruct (Hclient
                (mkConfig (Some "/students")
                   (Some (<["Authorization" := "Bearer old"]> ∅)) None "GET" "")
                (browser freshTokens) denied "401" "new" renewedTokens
                eq_refl eq_refl eq_refl eq_refl eq_refl eq_refl
                ltac:(discriminate)) as [_ Hsecond].
    destruct (Hsecond
                (mkConfig (Some "/students")
                   (Some (<["Authorization" := "Bearer new"]> ∅))
                   (Some true) "GET" "")
                (mkWorld renewedTokens (Some "/dashboard")
                   [EvSend (mkConfig (Some "/students")
                              (Some (<["Authorization" := "Bearer old"]> ∅))
                              None "GET" "")])
                (Some denied) "401" eq_refl eq_refl) as [Hrun _].
    exact Hrun.
  - destruct (Hretried
                (mkConfig (Some "/students")
                   (Some (<["Authorization" := "Bearer old"]> ∅))
                   (Some true) "GET" "")
                (browser freshTokens) (Some denied) "401"
                eq_refl eq_refl eq_refl) as [Hrun _].
    exact Hrun.
Defined.

(** A server that answers 401 to everything: the request is sent
    twice, the second time marked as retried, and is then rejected with
    the 401; more fuel changes nothing. *)
Example two_unauthorized_answers :
  ∃ out w' first second,
    httpClient simpleGetValid simpleRefresh simpleClear alwaysUnauthorized 7
      getStudents (browser freshTokens) = (Some (Rejected out), w')
    ∧ sends w' = [first; second]
    ∧ _retry first = None ∧ _retry second = Some true
    ∧ (status <$> response out) = Some 401.
Proof. eexists _, _, _, _. repeat split; vm_compute; reflexivity. Qed.

(** A server that accepts the refreshed token: the retry succeeds. *)
Example retry_with_new_token_succeeds :
  ∃ w', httpClient simpleGetValid simpleRefresh simpleClear (acceptsOnly "new") 2
          getStudents (browser freshTokens)
        = (Some (Fulfilled {| status := 200; body := "ok" |}), w')
        ∧ length (sends w') = 2.
Proof. eexists. split; vm_compute; reflexivity. Qed.

(** *** Whole requests on the example environment *)

Lemma refresh_throw_is_propagated_witness :
  createResponseErrorHandler brokenRefresh simpleClear
    (httpClient simpleGetValid brokenRefresh simpleClear alwaysUnauthorized 1)
    Some (unauthorized getStudents) (browser freshTokens)
  = (Some (RejectedThrown (Thrown "refresh failed")),
     mkWorld freshTokens (window (browser freshTokens))
       (events (browser freshTokens))).
Proof.
  apply (refresh_throw_is_propagated brokenRefresh simpleClear
           (httpClient simpleGetValid brokenRefresh simpleClear alwaysUnauthorized 1)
           Some (unauthorized getStudents) getStudents (browser freshTokens)
           (Thrown "refresh failed") freshTokens).
  - unfold refreshable. repeat split; try reflexivity.
    eexists. split; reflexivity.
  - reflexivity.
Defined.

Lemma other_failures_are_rejected_as_they_came_witness :
  ∃ what,
    createResponseErrorHandler simpleRefresh simpleClear
      (httpClient simpleGetValid simpleRefresh simpleClear alwaysUnauthorized 1)
      Some (unauthorized postLogin) (browser freshTokens)
    = (Some (Rejected (unauthorized postLogin)),
       mkWorld (tokens (browser freshTokens)) (window (browser freshTokens))
         (events (browser freshTokens) ++ [EvConsoleError what])).
Proof.
  apply (other_failures_are_rejected_as_they_came simpleRefresh simpleClear
           (httpClient simpleGetValid simpleRefresh simpleClear alwaysUnauthorized 1)
           Some (unauthorized postLogin) (browser freshTokens)).
  intros originalRequest (Hc & _ & _ & Hauth).
  injection Hc as <-. vm_compute in Hauth. discriminate.
Defined.

Lemma auth_endpoint_request_is_sent_as_is_witness :
  httpClient simpleGetValid simpleRefresh simpleClear alwaysUnauthorized 1
    postLogin (browser freshTokens)
  = (Some (settles postLogin
             (alwaysUnauthorized postLogin (events (browser freshTokens)))),
     mkWorld (tokens (browser freshTokens)) (window (browser freshTokens))
       (events (browser freshTokens) ++ EvSend postLogin ::
          match alwaysUnauthorized postLogin (events (browser freshTokens)) with
          | Delivers _ => []
          | FailsWith _ _ => [EvConsoleError "API Error"]
          end)).
Proof.
  apply (auth_endpoint_request_is_sent_as_is simpleGetValid simpleRefresh
           simpleClear alwaysUnauthorized 0 postLogin (browser freshTokens)).
  vm_compute. reflexivity.
Defined.

Lemma expired_token_is_recovered_witness :
  ∃ w',
    httpClient simpleGetValid simpleRefresh simpleClear (acceptsOnly "new") 2
      getStudents (browser freshTokens)
    = (Some (Fulfilled ok), w')
    ∧ length (sends w') = 2.
Proof.
  pose proof (expired_token_is_recovered simpleGetValid simpleRefresh simpleClear
    (acceptsOnly "new") 0 getStudents
    (withAuthorization getStudents "old")
    (withAuthorization
       (withAuthorization (markRetried (withAuthorization getStudents "old")) "new")
       "new")
    (browser freshTokens) (browser freshTokens)
    (mkWorld renewedTokens (Some "/dashboard")
       [EvSend (withAuthorization getStudents "old")])
    denied ok "401" "new" renewedTokens) as H.
  destruct H as [Hrun _]; try (vm_compute; reflexivity); try discriminate.
  eexists. split; [exact Hrun|]. vm_compute. reflexivity.
Defined.

Lemma failed_refresh_ends_the_session_witness :
  ∃ w',
    httpClient simpleGetValid simpleRefresh simpleClear alwaysUnauthorized 1
      getStudents (browser spentTokens)
    = (Some (Rejected (mkError
               (Some (markRetried (withAuthorization getStudents "old")))
               (Some denied) "401")), w')
    ∧ tokens w' = simpleClear {| stored := None; nextToken := None |}
    ∧ window w' = match window (browser spentTokens) with
                  | Some _ => Some "/login"
                  | None => None
                  end
    ∧ sends w' = sends (browser spentTokens) ++ [withAuthorization getStudents "old"].
Proof.
  apply (failed_refresh_ends_the_session simpleGetValid simpleRefresh simpleClear
           alwaysUnauthorized 0 getStudents (withAuthorization getStudents "old")
           (browser spentTokens) (browser spentTokens) denied "401"
           {| stored := None; nextToken := None |});
    vm_compute; reflexivity.
Defined.

End HttpProperties.

(** ** Properties of the shared credential refresh *)

Module TokenRefreshProperties.
Import TokenRefresh.

Lemma step_consistent (m : Manager) (e : Event) :
  consistent m → consistent (step m e).
Proof.
  unfold consistent. destruct m as [[waiters|] calls flying done];
    destruct e as [r|token]; cbn; intros Hm; rewrite ?Hm; reflexivity.
Qed.

Lemma run_consistent (es : list Event) (m : Manager) :
  consistent m → consistent (run es m).
Proof.
  revert m. induction es as [|e es IH]; intros m Hm; [exact Hm|].
  apply IH, step_consistent, Hm.
Qed.

Lemma run_app (es1 es2 : list Event) (m : Manager) :
  run (es1 ++ es2) m = run es2 (run es1 m).
Proof. apply foldl_app. Qed.

(** Requests that arrive while a refresh is outstanding join it. *)
Lemma run_joiners (requests : list nat) (m : Manager) (waiters : list nat) :
  awaiting m = Some waiters →
  run (map NeedsRefresh requests) m
  = mkManager (Some (waiters ++ requests)) (refreshCalls m) (inFlight m) (resolved m).
Proof.
  revert m waiters. induction requests as [|r requests IH]; intros m waiters Hm.
  - rewrite app_nil_r. destruct m; cbn in *. rewrite Hm. reflexivity.
  - cbn [map run foldl].
    change (foldl step (step m (NeedsRefresh r)) (map NeedsRefresh requests))
      with (run (map NeedsRefresh requests) (step m (NeedsRefresh r))).
    rewrite (IH _ (waiters ++ [r])); cbn; rewrite Hm; cbn; [|reflexivity].
    rewrite <- app_assoc. reflexivity.
Qed.

(** C10. In the manager the specification describes, at most one
    refresh call is outstanding after any sequence of events; and when
    no refresh is outstanding and N >= 1 requests ask for one before it
    settles, exactly one refresh call is issued and each of the N
    requests is resolved with the one token that call yields. *)
Theorem refresh_is_coalesced :
  (∀ es, inFlight (run es idle) ≤ 1)
  ∧ (∀ before first others token,
       awaiting (run before idle) = None →
       let requests := first :: others in
       let m := run (map NeedsRefresh requests ++ [RefreshSettles token])
                    (run before idle) in
       refreshCalls m = S (refreshCalls (run before idle))
       ∧ inFlight m = 0
       ∧ awaiting m = None
       ∧ resolved m
         = resolved (run before idle) ++ map (λ r, (r, token)) requests).
Proof.
  split.
  - intros es. pose proof (run_consistent es idle eq_refl) as Hc.
    unfold consistent in Hc. destruct (awaiting (run es idle)); lia.
  - intros before first others token Hidle requests m. subst m requests.
    pose proof (run_consistent before idle eq_refl) as Hc.
    unfold consistent in Hc. rewrite Hidle in Hc.
    rewrite run_app. cbn [map].
    change (run (NeedsRefresh first :: map NeedsRefresh others) (run before idle))
      with (run (map NeedsRefresh others) (step (run before idle) (NeedsRefresh first))).
    rewrite (run_joiners others _ [first]) by (cbn; rewrite Hidle; reflexivity).
    cbn. rewrite Hidle. cbn. rewrite Hc. repeat split.
Qed.

Lemma refresh_is_coalesced_witness :
  inFlight (run [NeedsRefresh 1; NeedsRefresh 2; RefreshSettles (Some "t");
                 NeedsRefresh 3] idle) ≤ 1
  ∧ (awaiting (run [] idle) = None →
     let requests := [1; 2; 3] in
     let m := run (map NeedsRefresh requests ++ [RefreshSettles (Some "new")])
                  (run [] idle) in
     refreshCalls m = S (refreshCalls (run [] idle))
     ∧ inFlight m = 0
     ∧ awaiting m = None
     ∧ resolved m
       = resolved (run [] idle) ++ map (λ r, (r, Some "new")) requests).
Proof.
  split.
  - apply (proj1 refresh_is_coalesced).
  - apply (proj2 refresh_is_coalesced [] 1 [2; 3] (Some "new")).
Defined.

(** Three requests find the credential expired: one refresh call, one
    token for all three. *)
Example three_requests_one_refresh :
  run [NeedsRefresh 1; NeedsRefresh 2; NeedsRefresh 3; RefreshSettles (Some "new")]
      idle
  = mkManager None 1 0 [(1, Some "new"); (2, Some "new"); (3, Some "new")].
Proof. reflexivity. Qed.

End TokenRefreshProperties.

(** ** Properties of the route configuration *)

Module RoutesProperties.
Import Js JsFacts Routes.

Lemma lecturer_prefix (pathname rest : string) :
  startsWith pathname ("/lecturer" +:+ rest) = true →
  startsWith pathname "/lecturer" = true.
Proof. apply startsWith_shorter. Qed.

(** X23. [findMatchingRoute] yields the first configured route whose
    path is a prefix of the pathname.  As the lecturer dashboard path
    comes before the six moderator-only lecturer paths and is a prefix
    of each of them, the result is the student, the lecturer or the
    admin dashboard route, or nothing: a route that requires a moderator
    is never the result, and a pathname is matched by prefix, not by
    path segment. *)
Theorem findMatchingRoute_is_first_prefix (pathname : string) :
  findMatchingRoute pathname
  = (if startsWith pathname "/student" then Some (mkRoute "/student" STUDENT None)
     else if startsWith pathname "/lecturer"
          then Some (mkRoute "/lecturer" LECTURER None)
     else if startsWith pathname "/admin" then Some (mkRoute "/admin" ADMIN None)
     else None)
  ∧ (∀ route, findMatchingRoute pathname = Some route →
              requiresModerator route = None
              ∧ route ∈ ROUTE_CONFIGS
              ∧ ∃ rest, pathname = path route +:+ rest)
  ∧ (findMatchingRoute pathname = None ↔
     ∀ route, route ∈ ROUTE_CONFIGS → startsWith pathname (path route) = false).
Proof.
  assert (Hmod : ∀ rest, startsWith pathname "/lecturer" = false →
                         startsWith pathname ("/lecturer" +:+ rest) = false).
  { intros rest Hno.
    destruct (startsWith pathname ("/lecturer" +:+ rest)) eqn:Hyes; [|reflexivity].
    apply lecturer_prefix in Hyes. congruence. }
  assert (Hfirst : findMatchingRoute pathname
    = (if startsWith pathname "/student" then Some (mkRoute "/student" STUDENT None)
       else if startsWith pathname "/lecturer"
            then Some (mkRoute "/lecturer" LECTURER None)
       else if startsWith pathname "/admin" then Some (mkRoute "/admin" ADMIN None)
       else None)).
  { unfold findMatchingRoute, ROUTE_CONFIGS. cbn [List.find path].
    change DASHBOARD_STUDENT with "/student".
    change DASHBOARD_LECTURER with "/lecturer".
    change DASHBOARD_ADMIN with "/admin".
    destruct (startsWith pathname "/student"); [reflexivity|].
    destruct (startsWith pathname "/lecturer") eqn:Hl; [reflexivity|].
    rewrite
      (Hmod "/group-management" eq_refl
         : startsWith pathname LECTURER_GROUP_MANAGEMENT = false),
      (Hmod "/assign-student-detail" eq_refl
         : startsWith pathname LECTURER_ASSIGN_STUDENT_DETAIL = false),
      (Hmod "/assign-supervisor" eq_refl
         : startsWith pathname LECTURER_ASSIGN_SUPERVISOR = false),
      (Hmod "/assign-list-publish-thesis" eq_refl
         : startsWith pathname LECTURER_ASSIGN_LIST_PUBLISH_THESIS = false),
      (Hmod "/assign-lecturer-review" eq_refl
         : startsWith pathname LECTURER_ASSIGN_LECTURER_REVIEW = false),
      (Hmod "/checklist-management" eq_refl
         : startsWith pathname LECTURER_CHECKLIST_MANAGEMENT = false).
    reflexivity. }
  split; [exact Hfirst|]. split.
  - intros route Hroute. rewrite Hfirst in Hroute.
    destruct (startsWith pathname "/student") eqn:Hs.
    { injection Hroute as <-. split; [reflexivity|]. split.
      - unfold ROUTE_CONFIGS. left.
      - apply startsWith_spec, Hs. }
    destruct (startsWith pathname "/lecturer") eqn:Hl.
    { injection Hroute as <-. split; [reflexivity|]. split.
      - unfold ROUTE_CONFIGS. right. left.
      - apply startsWith_spec, Hl. }
    destruct (startsWith pathname "/admin") eqn:Ha; [|discriminate].
    injection Hroute as <-. split; [reflexivity|]. split.
    + unfold ROUTE_CONFIGS. do 8 right. left.
    + apply startsWith_spec, Ha.
  - unfold findMatchingRoute. split.
    + intros Hnone route Hin. apply list_elem_of_In in Hin.
      exact (find_none _ _ Hnone route Hin).
    + intros Hall.
      destruct (List.find _ ROUTE_CONFIGS) as [route|] eqn:Hfind; [|reflexivity].
      apply find_some in Hfind as [Hin Hyes].
      apply list_elem_of_In in Hin. rewrite (Hall route Hin) in Hyes. discriminate.
Qed.

(** The pathname of a moderator-only page, and a pathname that only
    shares a prefix with a dashboard path. *)
Example group_management_matches_lecturer_dashboard :
  findMatchingRoute "/lecturer/group-management"
  = Some (mkRoute "/lecturer" LECTURER None)
  ∧ findMatchingRoute "/students-archive" = Some (mkRoute "/student" STUDENT None)
  ∧ findMatchingRoute "/login" = None.
Proof. repeat split. Qed.

End RoutesProperties.
